(** * mansalibrary: backend report and auth routes, and three pieces of the dashboard

    A shallow embedding of
    - [Backend/routes/auth.js]     (the four middlewares and the auth router),
    - [Backend/routes/reports.js]  (GET /profit-loss, GET /monthly-collections),
    - [components/Sidebar.tsx]     (the menu and its click handler),
    - [pages/AllStudents.tsx]      (fetching, searching, paging, deleting, the
                                    WhatsApp link and the dates of the table),
    - [pages/CollectionDue.tsx]    (loading, the table and its totals, the
                                    pay-due dialogue and the optimistic update),
    with the JavaScript values, the Express request/response cycle and the
    [Date] arithmetic they rely on, followed by the properties proved of
    them.

    Conventions of the model.
    - JavaScript numbers are IEEE binary64 values: Rocq's primitive [float].
      Numbers that count or index (array lengths, page numbers) are integers.
    - JavaScript strings are Rocq [string]s holding the text in UTF-8.
      [Js.toLowerCase] is the case mapping of ASCII; where text beyond ASCII
      matters the engine's [toLowerCase] is a parameter of the page.
    - The database pool, [parseFloat], the session store, the global object
      and the host's time zone are the environment of a request: the fields
      of [Express.Host].  The REST client and the builtins a page calls
      ([Date.parse], [Number], number printing, [window.confirm]) are
      parameters of the page.
    - [Express.Request] is a request that carries the session
      express-session attached; [Express.Arrival] is any request that
      reaches a router, with a session or without.
    - A handler is run on its own: nothing else touches the session or the
      page state while it awaits.
    - Array sorting, the rendering of components and writes to the console
      are not modelled. *)

From Stdlib Require Import ZArith List String Ascii Bool Lia.
From Stdlib Require Import Floats.
From Stdlib Require Uint63.
Import ListNotations.

Set Warnings "-inexact-float,-register-all".
Local Open Scope string_scope.

(* ================================================================== *)
(** ** JavaScript values *)
(* ================================================================== *)

Module Js.

(** A JavaScript value as far as the routes see one: what JSON bodies,
    database rows and the session hold. *)
Inductive value : Type :=
| VUndefined
| VNull
| VBool (b : bool)
| VNum (x : float)
| VStr (s : string)
| VArr (xs : list value)
| VObj (fields : list (string * value)).

(** A thrown exception: [name] is the constructor's name, [message] is
    [err.message]. *)
Record error : Type := mkError { name : string; message : string }.

Definition TypeError (msg : string) : error := mkError "TypeError" msg.
Definition ReferenceError (msg : string) : error := mkError "ReferenceError" msg.
Definition RangeError (msg : string) : error := mkError "RangeError" msg.

(** ToBoolean on a number: NaN, +0 and -0 are falsy. *)
Definition truthy_num (x : float) : bool :=
  negb (PrimFloat.is_nan x || PrimFloat.is_zero x).

(** ToBoolean. *)
Definition truthy (v : value) : bool :=
  match v with
  | VUndefined | VNull => false
  | VBool b => b
  | VNum x => truthy_num x
  | VStr s => negb (String.eqb s "")
  | VArr _ | VObj _ => true
  end.

(** [x || 0] on numbers. *)
Definition or_zero (x : float) : float :=
  if truthy_num x then x else 0%float.

Fixpoint assoc {A : Type} (k : string) (l : list (string * A)) : option A :=
  match l with
  | [] => None
  | (k', v) :: rest => if String.eqb k k' then Some v else assoc k rest
  end.

(** [v.k] where [v] is known not to be null or undefined: an own property
    of an object, [undefined] for anything else. *)
Definition get (v : value) (k : string) : value :=
  match v with
  | VObj fields =>
      match assoc k fields with
      | Some x => x
      | None => VUndefined
      end
  | _ => VUndefined
  end.

(** [v.k] in general: reading a property of [undefined] or [null] throws. *)
Definition prop (v : value) (k : string) : error + value :=
  match v with
  | VUndefined =>
      inl (TypeError ("Cannot read properties of undefined (reading '" ++ k ++ "')"))
  | VNull =>
      inl (TypeError ("Cannot read properties of null (reading '" ++ k ++ "')"))
  | _ => inr (get v k)
  end.

(** [const { k } = v] where [what] is the text of the expression [v]:
    destructuring [undefined] or [null] throws. *)
Definition destructure (what : string) (v : value) (k : string) : error + value :=
  match v with
  | VUndefined =>
      inl (TypeError ("Cannot destructure property '" ++ k ++ "' of '" ++ what
                      ++ "' as it is undefined."))
  | VNull =>
      inl (TypeError ("Cannot destructure property '" ++ k ++ "' of '" ++ what
                      ++ "' as it is null."))
  | _ => inr (get v k)
  end.

(** [a === b] for values that come from different sources (a request body
    against a database row, a session field against a literal): primitives
    compare by value, objects and arrays are never the same reference. *)
Definition strict_eq (a b : value) : bool :=
  match a, b with
  | VUndefined, VUndefined => true
  | VNull, VNull => true
  | VBool x, VBool y => Bool.eqb x y
  | VNum x, VNum y => PrimFloat.eqb x y
  | VStr x, VStr y => String.eqb x y
  | _, _ => false
  end.

(** *** Strings *)

Definition is_digit (c : ascii) : bool :=
  let n := nat_of_ascii c in (48 <=? n)%nat && (n <=? 57)%nat.

Definition digit_val (c : ascii) : Z := Z.of_nat (nat_of_ascii c) - 48.

Definition digit_char (d : Z) : ascii := ascii_of_nat (Z.to_nat (48 + d)).

(** ASCII white space: TAB, LF, VT, FF, CR and SPACE. *)
Definition is_space (c : ascii) : bool :=
  let n := nat_of_ascii c in
  ((9 <=? n)%nat && (n <=? 13)%nat) || (n =? 32)%nat.

(** The white space of two bytes: U+00A0. *)
Definition is_space2 (a b : ascii) : bool :=
  (nat_of_ascii a =? 194)%nat && (nat_of_ascii b =? 160)%nat.

(** The white space and the line terminators of three bytes: U+1680,
    U+2000 to U+200A, U+2028, U+2029, U+202F, U+205F, U+3000 and U+FEFF. *)
Definition is_space3 (a b c : ascii) : bool :=
  let x := nat_of_ascii a in
  let y := nat_of_ascii b in
  let z := nat_of_ascii c in
  ((x =? 225) && (y =? 154) && (z =? 128))%nat
  || ((x =? 226) && (y =? 128)
      && (((128 <=? z) && (z <=? 138)) || (z =? 168) || (z =? 169) || (z =? 175)))%nat
  || ((x =? 226) && (y =? 129) && (z =? 159))%nat
  || ((x =? 227) && (y =? 128) && (z =? 128))%nat
  || ((x =? 239) && (y =? 187) && (z =? 191))%nat.

Definition lower_char (c : ascii) : ascii :=
  let n := nat_of_ascii c in
  if (65 <=? n)%nat && (n <=? 90)%nat then ascii_of_nat (n + 32) else c.

(** [String.prototype.toLowerCase] on ASCII text: the letters [A] to [Z]
    become [a] to [z] and every other byte stays.  The builtin also maps
    the cased letters beyond ASCII, by rules that look at more than one
    character; where a statement is about such text the engine's function
    is a parameter ([AllStudents.matches_with], [CollectionDue.searched]). *)
Fixpoint toLowerCase (s : string) : string :=
  match s with
  | EmptyString => EmptyString
  | String c rest => String (lower_char c) (toLowerCase rest)
  end.

(** [String.prototype.includes]: [needle] occurs in [hay] at some offset. *)
Fixpoint includes (hay needle : string) : bool :=
  String.prefix needle hay ||
  match hay with
  | EmptyString => false
  | String _ rest => includes rest needle
  end.

(** [s.split(sep)] for a one-character separator. *)
Fixpoint split (sep : ascii) (s : string) : list string :=
  match s with
  | EmptyString => [EmptyString]
  | String c rest =>
      if Ascii.eqb c sep then EmptyString :: split sep rest
      else match split sep rest with
           | [] => [String c EmptyString]
           | hd :: tl => String c hd :: tl
           end
  end.

(** [s.slice(0, n)]. *)
Definition slice0 (n : nat) (s : string) : string := String.substring 0 n s.

(** [xs.join(sep)] on strings. *)
Fixpoint join (sep : string) (xs : list string) : string :=
  match xs with
  | [] => ""
  | [x] => x
  | x :: rest => x ++ sep ++ join sep rest
  end.

(** The value of a string of decimal digits, most significant first. *)
Fixpoint digits_value (acc : Z) (s : string) : Z :=
  match s with
  | EmptyString => acc
  | String c rest => digits_value (10 * acc + digit_val c) rest
  end.

Fixpoint all_digits (s : string) : bool :=
  match s with
  | EmptyString => true
  | String c rest => is_digit c && all_digits rest
  end.

(** ToNumber on the strings the routes pass to [new Date]: a non-empty
    digit string is its decimal value; [None] is NaN.  (The month guard lets
    only digit strings through, see [ReportsFacts.month_re_inv].) *)
Definition toNumber (s : string) : option Z :=
  match s with
  | EmptyString => Some 0%Z
  | _ => if all_digits s then Some (digits_value 0 s) else None
  end.

(** The string without its leading white space and line terminators
    (StrWhiteSpaceChar). *)
Fixpoint skip_spaces (s : string) : string :=
  match s with
  | EmptyString => EmptyString
  | String a r1 =>
      if is_space a then skip_spaces r1
      else
        match r1 with
        | EmptyString => s
        | String b r2 =>
            if is_space2 a b then skip_spaces r2
            else
              match r2 with
              | EmptyString => s
              | String c r3 => if is_space3 a b c then skip_spaces r3 else s
              end
        end
  end.

Fixpoint take_digits (s : string) : string :=
  match s with
  | String c rest => if is_digit c then String c (take_digits rest) else EmptyString
  | EmptyString => EmptyString
  end.

(** The double nearest to an integer (ties to even; an infinity beyond
    the range of doubles). *)
Definition nearest (n : Z) : float :=
  SF2Prim (binary_normalize prec emax n 0 false).

(** [parseInt(s, 10)]: leading white space, an optional sign, then the
    longest run of digits; [None] is NaN.  The number returned is the
    double nearest to the integer the digits denote.  (Past the 20th
    significant digit the standard leaves the digits to the engine; V8
    reads them all.) *)
Definition parseInt10 (s : string) : option float :=
  let s1 := skip_spaces s in
  let '(neg, s2) :=
    match s1 with
    | String "-" rest => (true, rest)
    | String "+" rest => (false, rest)
    | _ => (false, s1)
    end in
  match take_digits s2 with
  | EmptyString => None
  | ds =>
      let x := nearest (digits_value 0 ds) in
      Some (if neg then PrimFloat.opp x else x)
  end.

(** No character of [s] is [c]. *)
Fixpoint free_of (c : ascii) (s : string) : bool :=
  match s with
  | EmptyString => true
  | String x rest => negb (Ascii.eqb x c) && free_of c rest
  end.

(** [padStart(width, '0')] of a non-negative integer. *)
Fixpoint pad_digits (width : nat) (n : Z) : string :=
  match width with
  | O => EmptyString
  | S w => pad_digits w (n / 10) ++ String (digit_char (n mod 10)) EmptyString
  end.

End Js.

(* ================================================================== *)
(** ** Whole numbers as doubles *)
(* ================================================================== *)

Module JsNumber.
Local Open Scope Z_scope.

(** The double that holds the integer [n] (exactly, below 2^53). *)
Definition int_float (n : Z) : float := PrimFloat.of_uint63 (Uint63.of_Z n).

(** [m] followed by [n] zero bits. *)
Definition shl (m : positive) (n : nat) : positive := Nat.iter n xO m.

(** The binary64 representation of a positive integer below 2^53: a
    mantissa of 53 bits and the exponent that goes with it. *)
Definition canon (c : positive) : spec_float :=
  S754_finite false
    (shl c (Z.to_nat (53 - Zpos (digits2_pos c))))
    (Zpos (digits2_pos c) - 53).

End JsNumber.

(* ================================================================== *)
(** ** The Express request/response cycle *)
(* ================================================================== *)

Module Express.
Import Js.

(** A value of [req.query] as the qs parser builds it: a string, an array
    ([?k=a&k=b], [?k[]=a]) or a nested object ([?k[x]=a]). *)
Inductive qs : Type :=
| QStr (s : string)
| QArr (items : list qs)
| QObj (fields : list (string * qs)).

(** ToString of a query value ([None] is [undefined]): arrays join their
    elements with a comma, objects print as [[object Object]]. *)
Fixpoint qs_toString (q : qs) : string :=
  match q with
  | QStr s => s
  | QArr items => join "," (map qs_toString items)
  | QObj _ => "[object Object]"
  end.

Definition toString (q : option qs) : string :=
  match q with
  | None => "undefined"
  | Some v => qs_toString v
  end.

(** ToBoolean of a query value: absent and the empty string are falsy. *)
Definition qs_truthy (q : option qs) : bool :=
  match q with
  | None => false
  | Some (QStr s) => negb (String.eqb s "")
  | Some _ => true
  end.

(** [req.session]: the fields the routes read and write. *)
Record Session : Type := mkSession { user : value }.

(** A request that carries a session: what express-session hands on
    while its store answers. *)
Record Request : Type := mkRequest {
  session : Session;
  query : list (string * qs);
  req_body : value
}.


(** What a response carries: the argument of [res.json], or the page
    Express's default error handler writes for an exception no handler
    caught. *)
Inductive payload : Type :=
| Json (v : value)
| Html (page : string).

Record Response : Type := mkResponse {
  status : Z;
  body : payload;
  clearedCookies : list string
}.

(** [res.json(b)] and [res.status(c).json(b)]. *)
Definition res_json (b : value) : Response := mkResponse 200 (Json b) [].
Definition res_status_json (code : Z) (b : value) : Response :=
  mkResponse code (Json b) [].

(** The default error handler: status 500 and an HTML page. *)
Definition default_error_handler (e : error) : Response :=
  mkResponse 500 (Html (name e ++ ": " ++ message e)) [].

(** A parameter bound to [$n] in a query. *)
Inductive param : Type :=
| PStr (s : string)
| PNum (x : float)
| PVal (v : value).

Definition row : Type := list (string * value).

Definition field (r : row) (k : string) : value :=
  match assoc k r with
  | Some v => v
  | None => VUndefined
  end.

(** What a request handler runs against. *)
Record Host : Type := mkHost {
  (** [pool.query(sql, params)]: rejects with an error or resolves with rows. *)
  pool_query : string -> list param -> error + list row;
  (** The builtin [parseFloat]. *)
  parseFloat : value -> float;
  (** LocalTZA: the offset of local time from UTC, in milliseconds, at a
      local time value. *)
  LocalTZA : Z -> Z;
  (** The error, if any, the session store reports on [destroy]. *)
  store_destroy : option error;
  (** The properties of the global object. *)
  global_object : list (string * value);
  (** The builtin behind the call [recv.includes(arg)]. *)
  call_includes : value -> value -> error + bool
}.

(** The server-side state a handler can touch: the session of the
    request, [req.session] ([None] when there is none: destroyed, or never
    attached), and the queries sent to the database, oldest first. *)
Record World : Type := mkWorld {
  stored : option Session;
  queries : list (string * list param)
}.

(** Handler code: may throw, reads and writes the world. *)
Definition M (A : Type) : Type := World -> (error + A) * World.

Definition ret {A : Type} (a : A) : M A := fun w => (inr a, w).
Definition throw {A : Type} (e : error) : M A := fun w => (inl e, w).
Definition bind {A B : Type} (m : M A) (k : A -> M B) : M B :=
  fun w =>
    match m w with
    | (inl e, w') => (inl e, w')
    | (inr a, w') => k a w'
    end.

(** [try { m } catch (err) { h err }]. *)
Definition try_catch {A : Type} (m : M A) (h : error -> M A) : M A :=
  fun w =>
    match m w with
    | (inl e, w') => h e w'
    | r => r
    end.

Definition lift {A : Type} (r : error + A) : M A :=
  match r with
  | inl e => throw e
  | inr a => ret a
  end.

(** [await pool.query(sql, params)]. *)
Definition await_query (h : Host) (sql : string) (ps : list param) : M (list row) :=
  fun w =>
    (pool_query h sql ps,
     mkWorld (stored w) (queries w ++ [(sql, ps)])%list).

(** [req.session.user = u]: with no session there is nothing to assign
    to. *)
Definition set_session_user (u : value) : M unit :=
  fun w =>
    match stored w with
    | Some _ => (inr tt, mkWorld (Some (mkSession u)) (queries w))
    | None =>
        (inl (TypeError "Cannot set properties of undefined (setting 'user')"), w)
    end.

(** [req.session.destroy(cb)]: the store either reports an error and keeps
    the session, or drops it; [cb] receives the error. *)
Definition session_destroy (h : Host) : M (option error) :=
  fun w =>
    match store_destroy h with
    | Some e => (inr (Some e), w)
    | None => (inr None, mkWorld None (queries w))
    end.

(** What a middleware does with a request. *)
Inductive outcome : Type :=
| Responded (r : Response)
| Next
| Thrown (e : error).

Definition initial (req : Request) : World := mkWorld (Some (session req)) [].

(** What serving a request leaves behind: the response sent and the world. *)
Record Result : Type := mkResult { response : Response; world : World }.

(** Running the last handler of a route: an exception it lets escape
    reaches the default error handler. *)
Definition run_handler (m : M Response) (req : Request) : Result :=
  match m (initial req) with
  | (inr r, w) => mkResult r w
  | (inl e, w) => mkResult (default_error_handler e) w
  end.

(** [router.get(path, mw, handler)]: the handler runs only if the
    middleware calls [next()]. *)
Definition guarded (mw : Request -> outcome) (handler : Request -> M Response)
    (req : Request) : Result :=
  match mw req with
  | Responded r => mkResult r (initial req)
  | Next => run_handler (handler req) req
  | Thrown e => mkResult (default_error_handler e) (initial req)
  end.




(** A query value as the JavaScript value it is. *)
Fixpoint qs_value (q : qs) : value :=
  match q with
  | QStr s => VStr s
  | QArr items => VArr (map qs_value items)
  | QObj fields => VObj (map (fun kv : string * qs => let (k, v) := kv in (k, qs_value v)) fields)
  end.

Definition to_value (q : option qs) : value :=
  match q with
  | None => VUndefined
  | Some v => qs_value v
  end.

(** [const [a, b] = q.split(sep)]: only strings have the method. *)
Definition split_method (what : string) (sep : ascii) (q : option qs)
  : error + list string :=
  match q with
  | Some (QStr s) => inr (split sep s)
  | _ =>
      inl (TypeError (what ++ ".split is not a function or its return value"
                      ++ " is not iterable"))
  end.

(** [rows[0].k]: reading a column of the first row; no row, no object. *)
Definition first_row_field (rows : list row) (k : string) : error + value :=
  match rows with
  | [] => inl (TypeError ("Cannot read properties of undefined (reading '" ++ k ++ "')"))
  | r :: _ => inr (field r k)
  end.

End Express.

Declare Scope js_scope.
Delimit Scope js_scope with js.
Notation "x <- m ;; k" := (Express.bind m (fun x => k))
  (at level 61, m at next level, right associativity) : js_scope.

(* ================================================================== *)
(** ** Backend/routes/auth.js *)
(* ================================================================== *)

Module Auth.
Import Js Express.
Local Open Scope js_scope.

Definition message_body (msg : string) : value := VObj [("message", VStr msg)].

(** [req.session.user]. *)
Definition session_user (req : Request) : value := user (session req).

(** The names bound around the body of [checkPermission]: its parameters
    and its local, the module's top-level constants, and the names the
    CommonJS wrapper binds. *)
Definition checkPermission_scope : list string :=
  ["req"; "res"; "next"; "userPermissions";
   "checkPermission"; "checkAdmin"; "checkAdminOrStaff"; "authenticateUser";
   "authRouter";
   "exports"; "require"; "module"; "__filename"; "__dirname"].

(** Evaluating an identifier that no enclosing scope binds: it is a
    property of the global object, and a miss throws. *)
Definition global_identifier (h : Host) (id : string) : error + value :=
  match assoc id (global_object h) with
  | Some v => inr v
  | None => inl (ReferenceError (id ++ " is not defined"))
  end.

Definition checkPermission (h : Host) (req : Request) : outcome :=
  if negb (truthy (session_user req)) then
    Responded (res_status_json 401 (message_body "Unauthorized - Please log in"))
  else if strict_eq (get (session_user req) "role") (VStr "admin") then
    Next
  else
    let userPermissions :=
      if truthy (get (session_user req) "permissions")
      then get (session_user req) "permissions"
      else VArr [] in
    (* userPermissions.includes(permission): the callee is read first, then
       the argument is evaluated, then the call is made *)
    match global_identifier h "permission" with
    | inl e => Thrown e
    | inr permission =>
        match call_includes h userPermissions permission with
        | inl e => Thrown e
        | inr false =>
            Responded (res_status_json 403
                         (message_body "Forbidden - Insufficient permissions"))
        | inr true => Next
        end
    end.

Definition checkAdmin (req : Request) : outcome :=
  if negb (truthy (session_user req)) then
    Responded (res_status_json 401 (message_body "Unauthorized - Please log in"))
  else if negb (strict_eq (get (session_user req) "role") (VStr "admin")) then
    Responded (res_status_json 403 (message_body "Forbidden: Admin access required"))
  else Next.

Definition checkAdminOrStaff (req : Request) : outcome :=
  if negb (truthy (session_user req)) then
    Responded (res_status_json 401 (message_body "Unauthorized - Please log in"))
  else if strict_eq (get (session_user req) "role") (VStr "admin")
          || strict_eq (get (session_user req) "role") (VStr "staff") then
    Next
  else
    Responded (res_status_json 403
                 (message_body "Forbidden: Admin or Staff access required")).

Definition authenticateUser (req : Request) : outcome :=
  if truthy (session_user req) && truthy (get (session_user req) "id") then Next
  else Responded (res_status_json 401 (message_body "Unauthorized - Please log in")).

Definition loginSql : string :=
  "SELECT id, username, password, role FROM users WHERE username = $1".

Definition login_error (err : error) : Response :=
  res_status_json 500
    (VObj [("message", VStr "Server error during login");
           ("error", VStr (message err))]).

(** The object stored as [req.session.user], and sent back, on login. *)
Definition logged_in (user : row) : value :=
  VObj [("id", field user "id");
        ("username", field user "username");
        ("role", field user "role")].

(** POST /login, on [req.body]. *)
Definition login_of_body (h : Host) (body : value) : M Response :=
  try_catch
    (username <- lift (destructure "req.body" body "username") ;;
     password <- lift (destructure "req.body" body "password") ;;
     if negb (truthy username) || negb (truthy password) then
       ret (res_status_json 400 (message_body "Username and password are required"))
     else
       rows <- await_query h loginSql [PVal username] ;;
       match rows with
       | [] => ret (res_status_json 401 (message_body "Invalid credentials"))
       | user :: _ =>
           if negb (strict_eq password (field user "password")) then
             ret (res_status_json 401 (message_body "Invalid credentials"))
           else
             _ <- set_session_user (logged_in user) ;;
             ret (res_json
                    (VObj [("message", VStr "Login successful");
                           ("user", logged_in user)]))
       end)
    (fun err => ret (login_error err)).

Definition login (h : Host) (req : Request) : M Response :=
  login_of_body h (req_body req).

(** The runs of POST /login, branch by branch. *)
Inductive login_run (h : Host) (req : Request) : Result -> Prop :=
| LG_no_body err :
    destructure "req.body" (req_body req) "username" = inl err ->
    login_run h req (mkResult (login_error err) (initial req))
| LG_missing username password :
    destructure "req.body" (req_body req) "username" = inr username ->
    destructure "req.body" (req_body req) "password" = inr password ->
    negb (truthy username) || negb (truthy password) = true ->
    login_run h req
      (mkResult
         (res_status_json 400 (message_body "Username and password are required"))
         (initial req))
| LG_query_fail username password err :
    destructure "req.body" (req_body req) "username" = inr username ->
    destructure "req.body" (req_body req) "password" = inr password ->
    negb (truthy username) || negb (truthy password) = false ->
    pool_query h loginSql [PVal username] = inl err ->
    login_run h req
      (mkResult (login_error err)
         (mkWorld (Some (session req)) [(loginSql, [PVal username])]))
| LG_unknown username password :
    destructure "req.body" (req_body req) "username" = inr username ->
    destructure "req.body" (req_body req) "password" = inr password ->
    negb (truthy username) || negb (truthy password) = false ->
    pool_query h loginSql [PVal username] = inr [] ->
    login_run h req
      (mkResult (res_status_json 401 (message_body "Invalid credentials"))
         (mkWorld (Some (session req)) [(loginSql, [PVal username])]))
| LG_wrong_password username password user rest :
    destructure "req.body" (req_body req) "username" = inr username ->
    destructure "req.body" (req_body req) "password" = inr password ->
    negb (truthy username) || negb (truthy password) = false ->
    pool_query h loginSql [PVal username] = inr (user :: rest) ->
    strict_eq password (field user "password") = false ->
    login_run h req
      (mkResult (res_status_json 401 (message_body "Invalid credentials"))
         (mkWorld (Some (session req)) [(loginSql, [PVal username])]))
| LG_ok username password user rest :
    destructure "req.body" (req_body req) "username" = inr username ->
    destructure "req.body" (req_body req) "password" = inr password ->
    negb (truthy username) || negb (truthy password) = false ->
    pool_query h loginSql [PVal username] = inr (user :: rest) ->
    strict_eq password (field user "password") = true ->
    login_run h req
      (mkResult
         (res_json (VObj [("message", VStr "Login successful");
                          ("user", logged_in user)]))
         (mkWorld (Some (mkSession (logged_in user)))
            [(loginSql, [PVal username])])).

(** GET /logout *)
Definition logout (h : Host) (req : Request) : M Response :=
  err <- session_destroy h ;;
  match err with
  | Some _ =>
      ret (res_status_json 500 (message_body "Could not log out, please try again."))
  | None =>
      ret (mkResponse 200 (Json (message_body "Logout successful")) ["connect.sid"])
  end.

(** GET /status *)
Definition status_route (req : Request) : M Response :=
  if truthy (session_user req) then
    ret (res_json
           (VObj [("isAuthenticated", VBool true);
                  ("user", VObj [("id", get (session_user req) "id");
                                 ("username", get (session_user req) "username");
                                 ("role", get (session_user req) "role")])]))
  else
    ret (res_json (VObj [("isAuthenticated", VBool false); ("user", VNull)])).

(** *** Requests without a session *)









End Auth.

(* ================================================================== *)
(** ** The Date builtin (ECMA-262, Date objects) *)
(* ================================================================== *)

Module JsDate.
Import Js.
Local Open Scope Z_scope.

Definition msPerDay : Z := 86400000.
Definition msPerHour : Z := 3600000.
Definition msPerMinute : Z := 60000.
Definition msPerSecond : Z := 1000.

Definition Day (t : Z) : Z := t / msPerDay.
Definition TimeWithinDay (t : Z) : Z := t mod msPerDay.

Definition DaysInYear (y : Z) : Z :=
  if negb (y mod 4 =? 0) then 365
  else if negb (y mod 100 =? 0) then 366
  else if negb (y mod 400 =? 0) then 365
  else 366.

Definition DayFromYear (y : Z) : Z :=
  365 * (y - 1970) + (y - 1969) / 4 - (y - 1901) / 100 + (y - 1601) / 400.

(** The year a day number falls in: the largest [y] with
    [DayFromYear y <= d] (see [YearFromDay_spec]). *)
Definition YearFromDay (d : Z) : Z :=
  let y0 := 1970 + (d * 400) / 146097 in
  if d <? DayFromYear y0 then y0 - 1
  else if DayFromYear (y0 + 1) <=? d then y0 + 1
  else y0.

Definition YearFromTime (t : Z) : Z := YearFromDay (Day t).

(** 1 for a leap year, 0 otherwise. *)
Definition leap_flag (y : Z) : Z := if DaysInYear y =? 366 then 1 else 0.

Definition InLeapYear (t : Z) : Z := leap_flag (YearFromTime t).

Definition DayWithinYear (t : Z) : Z := Day t - DayFromYear (YearFromTime t).

(** The month (numbered from 0) of day [d] of a year; [l] is 1 in a leap
    year and 0 otherwise. *)
Definition month_of (d l : Z) : Z :=
  if d <? 31 then 0
  else if d <? 59 + l then 1
  else if d <? 90 + l then 2
  else if d <? 120 + l then 3
  else if d <? 151 + l then 4
  else if d <? 181 + l then 5
  else if d <? 212 + l then 6
  else if d <? 243 + l then 7
  else if d <? 273 + l then 8
  else if d <? 304 + l then 9
  else if d <? 334 + l then 10
  else 11.

Definition MonthFromTime (t : Z) : Z := month_of (DayWithinYear t) (InLeapYear t).

(** The day of the month (from 1) of day [d] of a year, in month [mo]. *)
Definition date_of (d l mo : Z) : Z :=
  match mo with
  | 0 => d + 1
  | 1 => d - 30
  | 2 => d - 58 - l
  | 3 => d - 89 - l
  | 4 => d - 119 - l
  | 5 => d - 150 - l
  | 6 => d - 180 - l
  | 7 => d - 211 - l
  | 8 => d - 242 - l
  | 9 => d - 272 - l
  | 10 => d - 303 - l
  | _ => d - 333 - l
  end.

Definition DateFromTime (t : Z) : Z :=
  date_of (DayWithinYear t) (InLeapYear t) (MonthFromTime t).

Definition HourFromTime (t : Z) : Z := (t / msPerHour) mod 24.
Definition MinFromTime (t : Z) : Z := (t / msPerMinute) mod 60.
Definition SecFromTime (t : Z) : Z := (t / msPerSecond) mod 60.
Definition msFromTime (t : Z) : Z := t mod msPerSecond.

Definition MakeTime (hour min sec ms : Z) : Z :=
  hour * msPerHour + min * msPerMinute + sec * msPerSecond + ms.

(** Days from the start of a year to the start of its month [mn]
    (numbered from 0). *)
Definition days_before (l mn : Z) : Z :=
  match mn with
  | 0 => 0
  | 1 => 31
  | 2 => 59 + l
  | 3 => 90 + l
  | 4 => 120 + l
  | 5 => 151 + l
  | 6 => 181 + l
  | 7 => 212 + l
  | 8 => 243 + l
  | 9 => 273 + l
  | 10 => 304 + l
  | _ => 334 + l
  end.

Definition DaysBeforeMonth (y mn : Z) : Z := days_before (leap_flag y) mn.

(** MakeDay: the month may lie outside 0..11 and carries into the year,
    the date may lie outside the month and carries into the days. *)
Definition MakeDay (year month date : Z) : Z :=
  let ym := year + month / 12 in
  let mn := month mod 12 in
  DayFromYear ym + DaysBeforeMonth ym mn + date - 1.

Definition MakeDate (day time : Z) : Z := day * msPerDay + time.

(** TimeClip: [None] is NaN. *)
Definition TimeClip (t : Z) : option Z :=
  if Z.abs t <=? 8640000000000000 then Some t else None.

(** [new Date(year, month, date)] on numbers ([None] is NaN), in local
    time: a year from 0 to 99 means 1900 + year; the result is the UTC time
    value. *)
Definition construct (tza : Z -> Z) (year month : option Z) (date : Z) : option Z :=
  match year, month with
  | Some y, Some m =>
      let yr := if (0 <=? y) && (y <=? 99) then 1900 + y else y in
      let finalDate := MakeDate (MakeDay yr m date) (MakeTime 0 0 0 0) in
      TimeClip (finalDate - tza finalDate)
  | _, _ => None
  end.

Definition year_string (y : Z) : string :=
  if ((0 <=? y) && (y <=? 9999))%Z then pad_digits 4 y
  else ((if (y <? 0)%Z then "-" else "+") ++ pad_digits 6 (Z.abs y))%string.

(** [Date.prototype.toISOString]: throws on an invalid date. *)
Definition toISOString (tv : option Z) : error + string :=
  match tv with
  | None => inl (RangeError "Invalid time value")
  | Some t =>
      inr (year_string (YearFromTime t) ++ "-"
           ++ pad_digits 2 (MonthFromTime t + 1) ++ "-"
           ++ pad_digits 2 (DateFromTime t) ++ "T"
           ++ pad_digits 2 (HourFromTime t) ++ ":"
           ++ pad_digits 2 (MinFromTime t) ++ ":"
           ++ pad_digits 2 (SecFromTime t) ++ "."
           ++ pad_digits 3 (msFromTime t) ++ "Z")%string
  end.

(** *** The calendar, as a reference *)

Definition is_leap_year (y : Z) : bool :=
  (y mod 4 =? 0) && (negb (y mod 100 =? 0) || (y mod 400 =? 0)).

(** The number of days of month [m] (1..12) of year [y] in the Gregorian
    calendar. *)
Definition days_in_month (y m : Z) : Z :=
  match m with
  | 2 => if is_leap_year y then 29 else 28
  | 4 | 6 | 9 | 11 => 30
  | _ => 31
  end.

(** The index within its year (from 0) of the last day of month [m]
    (1..12); [l] is the year's leap flag. *)
Definition last_index (l m : Z) : Z :=
  if m =? 12 then 364 + l else days_before l m - 1.

End JsDate.

(* ================================================================== *)
(** ** Backend/routes/reports.js *)
(* ================================================================== *)

Module Reports.
Import Js Express.
Local Open Scope js_scope.

(** The regular expression [/^\d{4}-\d{2}$/], as [RegExp.prototype.test]
    on a string. *)
Definition month_re (s : string) : bool :=
  match s with
  | String a (String b (String c (String d
      (String sep (String e (String f EmptyString)))))) =>
      is_digit a && is_digit b && is_digit c && is_digit d
      && Ascii.eqb sep "-" && is_digit e && is_digit f
  | _ => false
  end.

(** The year and the month a [YYYY-MM] string denotes. *)
Definition denoted_year (month : string) : Z :=
  digits_value 0 (String.substring 0 4 month).
Definition denoted_month (month : string) : Z :=
  digits_value 0 (String.substring 5 2 month).

Definition invalid_month : Response :=
  res_status_json 400 (Auth.message_body "Invalid month format, use YYYY-MM").

Definition invalid_branch : Response :=
  res_status_json 400 (Auth.message_body "Invalid branch ID").

Definition server_error (err : error) : Response :=
  res_status_json 500
    (VObj [("message", VStr "Server error"); ("error", VStr (message err))]).

Definition collectionsQuery0 : string := "
        SELECT COALESCE(SUM(amount_paid), 0) AS total_collected
        FROM student_membership_history
        WHERE changed_at::date >= $1 AND changed_at::date <= $2
      ".

Definition expensesQuery0 : string := "
        SELECT COALESCE(SUM(amount), 0) AS total_expenses
        FROM expenses
        WHERE date >= $1 AND date <= $2
      ".

(** Local time is less than a day away from UTC. *)
Definition tz_bounded (h : Host) : Prop :=
  forall t, (Z.abs (LocalTZA h t) <= JsDate.msPerDay)%Z.

(** Local time is UTC or behind it, by less than a day. *)
Definition behind_utc (h : Host) : Prop :=
  forall t, (- JsDate.msPerDay < LocalTZA h t <= 0)%Z.

(** The last day of the month a [YYYY-MM] string denotes, as [YYYY-MM-DD]. *)
Definition last_day (s : string) : string :=
  s ++ "-"
  ++ pad_digits 2 (JsDate.days_in_month (denoted_year s) (denoted_month s)).

(** The parameters [$1] and [$2] are the first and the last day of the
    month [s]. *)
Definition covers_month (s : string) (ps : list param) : Prop :=
  firstn 2 ps = [PStr (s ++ "-01"); PStr (last_day s)].

(** [new Date(year, monthNum, 0).toISOString()] on two strings. *)
Definition last_day_iso (h : Host) (year monthNum : string) : error + string :=
  JsDate.toISOString
    (JsDate.construct (LocalTZA h) (toNumber year) (toNumber monthNum) 0).

(** The block [if (branchId) { ... }] on the three variables it updates:
    it returns early on a branch id that is not a number, and otherwise
    leaves the two queries and their parameters, extended or not. *)
Definition branch_filter (branchId : option qs)
    (vars : string * string * list param)
  : Response + (string * string * list param) :=
  let '(collectionsQuery, expensesQuery, params) := vars in
  let paramIndex := "3" in
  if qs_truthy branchId then
    match parseInt10 (toString branchId) with
    | None => inl invalid_branch
    | Some branchIdNum =>
        inr (collectionsQuery ++ " AND branch_id = $" ++ paramIndex,
             expensesQuery ++ " AND branch_id = $" ++ paramIndex,
             (params ++ [PNum branchIdNum])%list)
    end
  else inr vars.

(** The body sent on success. *)
Definition profit_loss_body (month : value) (totalCollected totalExpenses : float)
  : value :=
  let profitLoss := PrimFloat.sub totalCollected totalExpenses in
  VObj [("month", month);
        ("totalCollected", VNum totalCollected);
        ("totalExpenses", VNum totalExpenses);
        ("profitLoss", VNum profitLoss)].

(** GET /profit-loss *)
Definition profit_loss (h : Host) (req : Request) : M Response :=
  try_catch
    (let month := assoc "month" (query req) in
     let branchId := assoc "branchId" (query req) in
     if negb (qs_truthy month) || negb (month_re (toString month)) then
       ret invalid_month
     else
       parts <- lift (split_method "month" "-" month) ;;
       let year := nth 0 parts "undefined" in
       let monthNum := nth 1 parts "undefined" in
       let startDate := year ++ "-" ++ monthNum ++ "-01" in
       iso <- lift (last_day_iso h year monthNum) ;;
       let endDate := nth 0 (split "T" iso) "undefined" in
       match branch_filter branchId
               (collectionsQuery0, expensesQuery0, [PStr startDate; PStr endDate])
       with
       | inl early => ret early
       | inr (collectionsQuery, expensesQuery, params) =>
           collectionsResult <- await_query h collectionsQuery params ;;
           expensesResult <- await_query h expensesQuery params ;;
           c <- lift (first_row_field collectionsResult "total_collected") ;;
           let totalCollected := or_zero (parseFloat h c) in
           e <- lift (first_row_field expensesResult "total_expenses") ;;
           let totalExpenses := or_zero (parseFloat h e) in
           ret (res_json (profit_loss_body (to_value month)
                            totalCollected totalExpenses))
       end)
    (fun err => ret (server_error err)).

Definition monthlySql : string := "
        SELECT s.id AS student_id,
               s.name AS student_name,
               s.email,
               s.phone,
               COALESCE(SUM(CASE WHEN st.type='payment' THEN st.amount END), 0) AS total_collected,
               COALESCE(SUM(CASE WHEN st.type='due' THEN st.amount END), 0) AS total_due,
               s.total_fee,
               s.amount_paid,
               s.due_amount
        FROM student_transactions st
        JOIN students s ON s.id = st.student_id
        WHERE st.date BETWEEN $1 AND $2
        GROUP BY s.id, s.name, s.email, s.phone, s.total_fee, s.amount_paid, s.due_amount
        ORDER BY s.name;
      ".

(** The text of a query is one of the three the routes send, with or
    without the branch condition: each compares the date with [$1] and [$2]
    inclusively ([>=] and [<=], or [BETWEEN]). *)
Definition dated_query (sql : string) : Prop :=
  exists suffix,
    sql = collectionsQuery0 ++ suffix \/ sql = expensesQuery0 ++ suffix
    \/ sql = monthlySql ++ suffix.

(** The record built from a row [r] of the monthly query. *)
Definition record_of_row (h : Host) (r : row) : value :=
  VObj [("studentId", field r "student_id");
        ("studentName", field r "student_name");
        ("email", field r "email");
        ("phone", field r "phone");
        ("totalFee", VNum (or_zero (parseFloat h (field r "total_fee"))));
        ("amountPaid", VNum (or_zero (parseFloat h (field r "amount_paid"))));
        ("dueAmount", VNum (or_zero (parseFloat h (field r "due_amount"))));
        ("collected", VNum (parseFloat h (field r "total_collected")));
        ("due", VNum (parseFloat h (field r "total_due")))].

(** GET /monthly-collections *)
Definition monthly_collections (h : Host) (req : Request) : M Response :=
  try_catch
    (let month := assoc "month" (query req) in
     if negb (qs_truthy month) || negb (month_re (toString month)) then
       ret invalid_month
     else
       parts <- lift (split_method "month" "-" month) ;;
       let y := nth 0 parts "undefined" in
       let m := nth 1 parts "undefined" in
       let start := y ++ "-" ++ m ++ "-01" in
       iso <- lift (last_day_iso h y m) ;;
       let end_ := slice0 10 iso in
       rows <- await_query h monthlySql [PStr start; PStr end_] ;;
       ret (res_json
              (VObj [("month", to_value month);
                     ("records", VArr (map (record_of_row h) rows))])))
    (fun err => ret (server_error err)).

(** *** The runs of the two handlers, branch by branch

    For a request that reached the handler: the response it sends and the
    world it leaves, with the conditions under which each branch is
    taken. *)

Section Runs.
Variables (h : Host) (req : Request).

Let month : option qs := assoc "month" (query req).
Let branchId : option qs := assoc "branchId" (query req).

(** The guard [!month || !/^\d{4}-\d{2}$/.test(month)]. *)
Definition bad_month : bool :=
  negb (qs_truthy month) || negb (month_re (toString month)).

Definition after (qs : list (string * list param)) : World :=
  mkWorld (Some (session req)) qs.

(** The part of a run from the first query on. *)
Inductive profit_loss_queries : string -> string -> list param -> Result -> Prop :=
| PLQ_collections_fail cq eq ps err :
    pool_query h cq ps = inl err ->
    profit_loss_queries cq eq ps (mkResult (server_error err) (after [(cq, ps)]))
| PLQ_expenses_fail cq eq ps rowsC err :
    pool_query h cq ps = inr rowsC ->
    pool_query h eq ps = inl err ->
    profit_loss_queries cq eq ps
      (mkResult (server_error err) (after [(cq, ps); (eq, ps)]))
| PLQ_no_collections_row cq eq ps rowsC rowsE err :
    pool_query h cq ps = inr rowsC ->
    pool_query h eq ps = inr rowsE ->
    first_row_field rowsC "total_collected" = inl err ->
    profit_loss_queries cq eq ps
      (mkResult (server_error err) (after [(cq, ps); (eq, ps)]))
| PLQ_no_expenses_row cq eq ps rowsC rowsE c err :
    pool_query h cq ps = inr rowsC ->
    pool_query h eq ps = inr rowsE ->
    first_row_field rowsC "total_collected" = inr c ->
    first_row_field rowsE "total_expenses" = inl err ->
    profit_loss_queries cq eq ps
      (mkResult (server_error err) (after [(cq, ps); (eq, ps)]))
| PLQ_ok cq eq ps rowsC rowsE c e :
    pool_query h cq ps = inr rowsC ->
    pool_query h eq ps = inr rowsE ->
    first_row_field rowsC "total_collected" = inr c ->
    first_row_field rowsE "total_expenses" = inr e ->
    profit_loss_queries cq eq ps
      (mkResult
         (res_json (profit_loss_body (to_value month)
                      (or_zero (parseFloat h c)) (or_zero (parseFloat h e))))
         (after [(cq, ps); (eq, ps)])).

Inductive profit_loss_run : Result -> Prop :=
| PL_invalid_month :
    bad_month = true ->
    profit_loss_run (mkResult invalid_month (after []))
| PL_month_not_a_string err :
    bad_month = false ->
    split_method "month" "-" month = inl err ->
    profit_loss_run (mkResult (server_error err) (after []))
| PL_invalid_date parts err :
    bad_month = false ->
    split_method "month" "-" month = inr parts ->
    last_day_iso h (nth 0 parts "undefined") (nth 1 parts "undefined") = inl err ->
    profit_loss_run (mkResult (server_error err) (after []))
| PL_invalid_branch parts iso :
    bad_month = false ->
    split_method "month" "-" month = inr parts ->
    last_day_iso h (nth 0 parts "undefined") (nth 1 parts "undefined") = inr iso ->
    branch_filter branchId
      (collectionsQuery0, expensesQuery0,
       [PStr (nth 0 parts "undefined" ++ "-" ++ nth 1 parts "undefined" ++ "-01");
        PStr (nth 0 (split "T" iso) "undefined")])
    = inl invalid_branch ->
    profit_loss_run (mkResult invalid_branch (after []))
| PL_queried parts iso cq eq ps r :
    bad_month = false ->
    split_method "month" "-" month = inr parts ->
    last_day_iso h (nth 0 parts "undefined") (nth 1 parts "undefined") = inr iso ->
    branch_filter branchId
      (collectionsQuery0, expensesQuery0,
       [PStr (nth 0 parts "undefined" ++ "-" ++ nth 1 parts "undefined" ++ "-01");
        PStr (nth 0 (split "T" iso) "undefined")])
    = inr (cq, eq, ps) ->
    profit_loss_queries cq eq ps r ->
    profit_loss_run r.

Inductive monthly_collections_run : Result -> Prop :=
| MC_invalid_month :
    bad_month = true ->
    monthly_collections_run (mkResult invalid_month (after []))
| MC_month_not_a_string err :
    bad_month = false ->
    split_method "month" "-" month = inl err ->
    monthly_collections_run (mkResult (server_error err) (after []))
| MC_invalid_date parts err :
    bad_month = false ->
    split_method "month" "-" month = inr parts ->
    last_day_iso h (nth 0 parts "undefined") (nth 1 parts "undefined") = inl err ->
    monthly_collections_run (mkResult (server_error err) (after []))
| MC_query_fail parts iso err :
    bad_month = false ->
    split_method "month" "-" month = inr parts ->
    last_day_iso h (nth 0 parts "undefined") (nth 1 parts "undefined") = inr iso ->
    pool_query h monthlySql
      [PStr (nth 0 parts "undefined" ++ "-" ++ nth 1 parts "undefined" ++ "-01");
       PStr (slice0 10 iso)] = inl err ->
    monthly_collections_run
      (mkResult (server_error err)
         (after [(monthlySql,
                  [PStr (nth 0 parts "undefined" ++ "-"
                         ++ nth 1 parts "undefined" ++ "-01");
                   PStr (slice0 10 iso)])]))
| MC_ok parts iso rows :
    bad_month = false ->
    split_method "month" "-" month = inr parts ->
    last_day_iso h (nth 0 parts "undefined") (nth 1 parts "undefined") = inr iso ->
    pool_query h monthlySql
      [PStr (nth 0 parts "undefined" ++ "-" ++ nth 1 parts "undefined" ++ "-01");
       PStr (slice0 10 iso)] = inr rows ->
    monthly_collections_run
      (mkResult
         (res_json (VObj [("month", to_value month);
                          ("records", VArr (map (record_of_row h) rows))]))
         (after [(monthlySql,
                  [PStr (nth 0 parts "undefined" ++ "-"
                         ++ nth 1 parts "undefined" ++ "-01");
                   PStr (slice0 10 iso)])])).

End Runs.

(** *** The range queried, for any month string

    What the format check lets through is any four digits and any two. *)

(** Local time is ahead of UTC, by a day at most. *)
Definition ahead_of_utc (h : Host) : Prop :=
  forall t, (0 < LocalTZA h t <= JsDate.msPerDay)%Z.

(** The year [new Date(year, monthNum, 0)] falls in, for the year and the
    month a [YYYY-MM] string denotes: a year up to 99 counts from 1900, and
    a month outside 1..12 carries into the year. *)
Definition range_year (s : string) : Z :=
  ((if denoted_year s <=? 99 then 1900 + denoted_year s else denoted_year s)
   + (denoted_month s - 1) / 12)%Z.

(** The calendar month (1..12) it falls in. *)
Definition range_month (s : string) : Z := ((denoted_month s - 1) mod 12 + 1)%Z.

(** [YYYY-MM-DD]. *)
Definition iso_day (y m d : Z) : string :=
  pad_digits 4 y ++ "-" ++ pad_digits 2 m ++ "-" ++ pad_digits 2 d.

(** The string is empty or starts with something other than a digit. *)
Definition no_leading_digit (s : string) : bool :=
  match s with
  | EmptyString => true
  | String c _ => negb (is_digit c)
  end.

End Reports.

(* ================================================================== *)
(** ** The routes of the two routers *)
(* ================================================================== *)

Module App.
Import Js Express.

Inductive route : Type :=
| GET_reports_profit_loss
| GET_reports_monthly_collections
| POST_auth_login
| GET_auth_logout
| GET_auth_status.

Definition serve (h : Host) (rt : route) (req : Request) : Result :=
  match rt with
  | GET_reports_profit_loss =>
      guarded Auth.checkAdminOrStaff (Reports.profit_loss h) req
  | GET_reports_monthly_collections =>
      guarded Auth.checkAdminOrStaff (Reports.monthly_collections h) req
  | POST_auth_login => run_handler (Auth.login h req) req
  | GET_auth_logout => run_handler (Auth.logout h req) req
  | GET_auth_status => run_handler (Auth.status_route req) req
  end.


Definition is_report (rt : route) : Prop :=
  rt = GET_reports_profit_loss \/ rt = GET_reports_monthly_collections.

(** A response with one of the four error codes and a JSON body that
    has a string [message]. *)
Definition is_failure (r : Response) : Prop :=
  In (status r) [400; 401; 403; 500]%Z
  /\ exists v msg, body r = Json v /\ get v "message" = VStr msg.

(** The two 400 responses of GET /profit-loss, with "present" read as
    "the parameter is in the query string". *)
Definition bad_request_when_present (h : Host) (req : Request) : Prop :=
  let month := assoc "month" (query req) in
  let branchId := assoc "branchId" (query req) in
  let r := response (serve h GET_reports_profit_loss req) in
  (r = Reports.invalid_month
   <-> month = None \/ Reports.month_re (toString month) = false)
  /\ (r = Reports.invalid_branch
      <-> (month <> None /\ Reports.month_re (toString month) = true)
          /\ branchId <> None
          /\ parseInt10 (toString branchId) = None)
  /\ (status r = 400%Z
      -> r = Reports.invalid_month \/ r = Reports.invalid_branch).

(** Every query of a report covers the month asked for, whatever string
    passed the format check. *)
Definition range_is_the_month (h : Host) (rt : route) (req : Request) : Prop :=
  forall s,
    assoc "month" (query req) = Some (QStr s) ->
    Reports.month_re s = true ->
    forall sql ps,
      In (sql, ps) (queries (world (serve h rt req))) ->
      Reports.covers_month s ps.


End App.

(* ================================================================== *)
(** ** Sample hosts and requests *)
(* ================================================================== *)

Module Examples.
Import Js Express.

(** A host in UTC whose database is empty. *)
Definition quiet_host : Host :=
  mkHost (fun _ _ => inr []) (fun _ => nan) (fun _ => 0%Z) None []
         (fun _ _ => inr false).

(** A host in UTC whose database answers every query with one row: a user
    and a pair of totals. *)
Definition demo_host : Host :=
  mkHost
    (fun _ _ =>
       inr [[("id", VNum 1); ("username", VStr "asha"); ("password", VStr "s3cret");
             ("role", VStr "admin");
             ("total_collected", VStr "100.5"); ("total_expenses", VStr "40")]])
    (fun v => match v with
              | VStr "100.5" => 100.5%float
              | VStr "40" => 40%float
              | _ => nan
              end)
    (fun _ => 0%Z) None [] (fun _ _ => inr false).

(** The same host in India (UTC+05:30). *)
Definition kolkata_host : Host :=
  mkHost (pool_query demo_host) (parseFloat demo_host) (fun _ => 19800000%Z)
         None [] (fun _ _ => inr false).

Definition admin_session : Session :=
  mkSession (VObj [("id", VNum 1); ("username", VStr "asha"); ("role", VStr "admin")]).

Definition staff_session : Session :=
  mkSession (VObj [("id", VNum 2); ("username", VStr "bina"); ("role", VStr "staff")]).

Definition anonymous : Request := mkRequest (mkSession VUndefined) [] VUndefined.

Definition login_request : Request :=
  mkRequest (mkSession VUndefined) []
    (VObj [("username", VStr "asha"); ("password", VStr "s3cret")]).

(** [?month=2024-02] *)
Definition february : Request :=
  mkRequest admin_session [("month", QStr "2024-02")] VUndefined.

(** [?month=2024-01] *)
Definition january : Request :=
  mkRequest admin_session [("month", QStr "2024-01")] VUndefined.

(** [?month=2024-13] *)
Definition month_thirteen : Request :=
  mkRequest admin_session [("month", QStr "2024-13")] VUndefined.

(** [?month=2024-02&branchId=] *)
Definition empty_branch : Request :=
  mkRequest admin_session [("month", QStr "2024-02"); ("branchId", QStr "")]
    VUndefined.

(** [?month=2024-02&branchId=x] *)
Definition letter_branch : Request :=
  mkRequest admin_session [("month", QStr "2024-02"); ("branchId", QStr "x")]
    VUndefined.

(** A request from a logged-in member of staff. *)
Definition staff_request : Request := mkRequest staff_session [] VUndefined.

(** A host whose database refuses every query. *)
Definition down_host : Host :=
  mkHost (fun _ _ => inl (mkError "Error" "connection refused"))
         (fun _ => nan) (fun _ => 0%Z) None [] (fun _ _ => inr false).

(** The request that follows [login_request] on [demo_host]: it carries
    the session the login stored. *)
Definition after_login : Request :=
  mkRequest (mkSession (Auth.logged_in
                          [("id", VNum 1); ("username", VStr "asha");
                           ("password", VStr "s3cret"); ("role", VStr "admin")]))
            [] VUndefined.

(** [?month=0024-02] *)
Definition year_twenty_four : Request :=
  mkRequest admin_session [("month", QStr "0024-02")] VUndefined.

(** [?month=2024-02&branchId=12abc] *)
Definition trailing_branch : Request :=
  mkRequest admin_session [("month", QStr "2024-02"); ("branchId", QStr "12abc")]
    VUndefined.


End Examples.

(* ================================================================== *)
(** ** components/Sidebar.tsx *)
(* ================================================================== *)

Module Sidebar.

(** An entry of [menuItems]; the icon is left out, and a [hasDropdown]
    that is not given is [false]. *)
Record MenuItem : Type := mkMenuItem {
  path : string;
  label : string;
  hasDropdown : bool
}.

Definition menuItems : list MenuItem :=
  [mkMenuItem "/" "Home" false;
   mkMenuItem "/students" "Students" true;
   mkMenuItem "/schedule" "Schedule" false;
   mkMenuItem "/shifts" "Shifts" false;
   mkMenuItem "/seats" "Seats" false;
   mkMenuItem "/branches" "Manage Branches" false;
   mkMenuItem "/products" "Products" false;
   mkMenuItem "/transactions" "Transactions" false;
   mkMenuItem "/collections" "Collection & Due" false;
   mkMenuItem "/expenses" "Expenses" false;
   mkMenuItem "/profit-loss" "Profit & Loss" false;
   mkMenuItem "/settings" "Settings" false].

(** The state of the component. *)
Record SidebarState : Type := mkSidebarState {
  showStudentDropdown : bool;
  showHostelDropdown : bool;
  isSidebarOpen : bool
}.

Definition effectiveIsCollapsed (isMobile isCollapsed : bool) : bool :=
  if isMobile then false else isCollapsed.

(** [isActive]: [pathname] is [location.pathname]. *)
Definition isActive (pathname path : string) : bool := String.eqb pathname path.

(** What a click on the link of a menu item does. *)
Record Click : Type := mkClick {
  (** [e.preventDefault()] was called: the link is not followed. *)
  defaultPrevented : bool;
  state_after : SidebarState
}.

(** The [onClick] of the link of [item]. *)
Definition onClick (isMobile isCollapsed : bool) (item : MenuItem) (st : SidebarState)
  : Click :=
  let collapsed := effectiveIsCollapsed isMobile isCollapsed in
  if hasDropdown item && String.eqb (label item) "Students" && negb collapsed then
    mkClick true
      (mkSidebarState (negb (showStudentDropdown st)) (showHostelDropdown st)
         (isSidebarOpen st))
  else if hasDropdown item && String.eqb (label item) "Hostel" && negb collapsed then
    mkClick true
      (mkSidebarState (showStudentDropdown st) (negb (showHostelDropdown st))
         (isSidebarOpen st))
  else if isMobile then
    mkClick false (mkSidebarState (showStudentDropdown st) (showHostelDropdown st) false)
  else mkClick false st.

(** The items the sidebar marks as active at a location. *)
Definition activeItems (pathname : string) : list MenuItem :=
  filter (fun item => isActive pathname (path item)) menuItems.

End Sidebar.

(* ================================================================== *)
(** ** pages/AllStudents.tsx *)
(* ================================================================== *)

Module AllStudents.

(** [interface Student]; an optional or nullable string is an [option]
    ([None] for [null] and [undefined]). *)
Record Student : Type := mkStudent {
  id : float;
  name : string;
  phone : string;
  registrationNumber : option string;
  membershipEnd : string;
  createdAt : string;
  status : string;
  seatNumber : option string
}.

(** Two strings that differ at most in the case of their letters. *)
Definition same_letters (a b : string) : Prop :=
  Js.toLowerCase a = Js.toLowerCase b.

(** [hay] contains [needle] case-insensitively: some substring of [hay]
    is [needle] up to the case of its letters. *)
Definition contains_ci (hay needle : string) : Prop :=
  exists pre mid post,
    hay = pre ++ mid ++ post /\ same_letters mid needle.

(** [l1] is [l2] with some elements left out: nothing added, repeated or
    moved. *)
Inductive Subseq {A : Type} : list A -> list A -> Prop :=
| Subseq_nil : Subseq [] []
| Subseq_keep x l1 l2 : Subseq l1 l2 -> Subseq (x :: l1) (x :: l2)
| Subseq_drop x l1 l2 : Subseq l1 l2 -> Subseq l1 (x :: l2).

(** The predicate handed to [sortedStudents.filter]. *)
Definition matches (searchTerm : string) (student : Student) : bool :=
  Js.includes (Js.toLowerCase (name student)) (Js.toLowerCase searchTerm)
  || Js.includes (Js.toLowerCase (phone student)) (Js.toLowerCase searchTerm)
  || match registrationNumber student with
     | Some r =>
         (* student.registrationNumber && ... : the empty string is falsy *)
         negb (String.eqb r "")
         && Js.includes (Js.toLowerCase r) (Js.toLowerCase searchTerm)
     | None => false
     end.

Definition filteredStudents (sortedStudents : list Student) (searchTerm : string)
  : list Student :=
  filter (matches searchTerm) sortedStudents.

(** *** The search on any text

    [matches] and [filteredStudents] above lower-case with the ASCII
    mapping.  On text beyond ASCII [String.prototype.toLowerCase] is the
    engine's: a parameter of the page here, as [Date.parse] is below. *)

Definition matches_with (toLowerCase : string -> string) (searchTerm : string)
    (student : Student) : bool :=
  Js.includes (toLowerCase (name student)) (toLowerCase searchTerm)
  || Js.includes (toLowerCase (phone student)) (toLowerCase searchTerm)
  || match registrationNumber student with
     | Some r =>
         negb (String.eqb r "")
         && Js.includes (toLowerCase r) (toLowerCase searchTerm)
     | None => false
     end.

Definition filteredStudents_with (toLowerCase : string -> string)
    (sortedStudents : list Student) (searchTerm : string) : list Student :=
  filter (matches_with toLowerCase searchTerm) sortedStudents.

(** Text in ASCII: every byte is below 128. *)
Fixpoint ascii_text (s : string) : bool :=
  match s with
  | EmptyString => true
  | String c rest => (nat_of_ascii c <? 128)%nat && ascii_text rest
  end.

(** What holds of every engine: on ASCII text [toLowerCase] turns [A] to
    [Z] into [a] to [z] and keeps the rest. *)
Definition lowers_ascii (toLowerCase : string -> string) : Prop :=
  forall s, ascii_text s = true -> toLowerCase s = Js.toLowerCase s.

(** [c] is one of the capitals [A] to [Z] and [d] is its small letter. *)
Definition capital_of (c d : ascii) : Prop :=
  (65 <= nat_of_ascii c <= 90)%nat /\ nat_of_ascii d = (nat_of_ascii c + 32)%nat.

(** The same character, or the same letter in its two cases. *)
Definition same_char_up_to_case (c d : ascii) : Prop :=
  c = d \/ capital_of c d \/ capital_of d c.

(** Two strings of the same length that agree character by character up
    to the case of the letters [A] to [Z]. *)
Fixpoint same_up_to_case (a b : string) : Prop :=
  match a, b with
  | EmptyString, EmptyString => True
  | String c a', String d b' => same_char_up_to_case c d /\ same_up_to_case a' b'
  | _, _ => False
  end.

(** [needle] occurs in [hay] up to the case of its letters. *)
Definition occurs_up_to_case (hay needle : string) : Prop :=
  exists pre mid post,
    hay = pre ++ mid ++ post /\ same_up_to_case mid needle.

(** The list shown is made of the students whose name, phone or
    registration number contains the search term, whatever the case of the
    letters. *)
Definition shows_what_contains (toLowerCase : string -> string)
    (sortedStudents : list Student) (searchTerm : string) : Prop :=
  forall student,
    In student (filteredStudents_with toLowerCase sortedStudents searchTerm)
    <-> In student sortedStudents
        /\ (occurs_up_to_case (name student) searchTerm
            \/ occurs_up_to_case (phone student) searchTerm
            \/ exists r, registrationNumber student = Some r
                         /\ occurs_up_to_case r searchTerm).

(** *** Dates *)

(** [new Date(dateString)]: [parse] is [Date.parse], [None] its NaN. *)
Definition newDate (parse : string -> option Z) (dateString : string) : option Z :=
  match parse dateString with
  | Some t => JsDate.TimeClip t
  | None => None
  end.

(** [formatDate]; [None] is [undefined]. *)
Definition formatDate (parse : string -> option Z) (dateString : option string)
  : Js.error + string :=
  match dateString with
  | None => inr "N/A"
  | Some s =>
      if String.eqb s "" then inr "N/A"
      else match JsDate.toISOString (newDate parse s) with
           | inl e => inl e
           | inr iso => inr (nth 0 (Js.split "T" iso) "undefined")
           end
  end.

(** *** Fetching *)

(** A student as [api.getStudents] returns one: the fields the page reads,
    of which the registration number and the creation date may be
    missing. *)
Record StudentSummary : Type := mkStudentSummary {
  summary_id : float;
  summary_name : string;
  summary_phone : string;
  summary_registrationNumber : option string;
  summary_membershipEnd : string;
  summary_createdAt : option string;
  summary_status : string;
  summary_seatNumber : option string
}.

(** [s || d] on an optional string. *)
Definition or_default (s : option string) (d : string) : string :=
  match s with
  | Some x => if String.eqb x "" then d else x
  | None => d
  end.

(** The callback of [response.students.map]; [now] is the time value of
    [new Date()]. *)
Definition updatedStudent (parse : string -> option Z) (now : Z)
    (student : StudentSummary) : Student :=
  let membershipEndDate := newDate parse (summary_membershipEnd student) in
  let currentDate := now in
  let isExpired :=
    match membershipEndDate with
    | Some t => (t <? currentDate)%Z
    | None => false
    end in
  mkStudent (summary_id student) (summary_name student) (summary_phone student)
    (Some (or_default (summary_registrationNumber student) "N/A"))
    (summary_membershipEnd student)
    (or_default (summary_createdAt student) "N/A")
    (if isExpired then "expired" else summary_status student)
    (summary_seatNumber student).

(** What [toast.error] and [toast.success] show. *)
Inductive notification : Type :=
| error_toast (msg : string)
| success_toast (msg : string).

(** What fetching runs against: [api.getStudents(fromDate, toDate,
    branchId)], which rejects with an error or resolves with the students
    of the response, [Date.parse], and the time value of [new Date()]. *)
Record StudentsApi : Type := mkStudentsApi {
  getStudents : option string -> option string -> option float
                -> Js.error + list StudentSummary;
  parse : string -> option Z;
  now : Z
}.

(** [s || undefined]. *)
Definition or_undefined (s : string) : option string :=
  if String.eqb s "" then None else Some s.

(** What [fetchStudents] leaves: [students], [loading], and the toasts
    raised. *)
Record Fetched : Type := mkFetched {
  fetched : list Student;
  fetched_loading : bool;
  fetched_toasts : list notification
}.

Definition fetchStudents (api : StudentsApi) (students : list Student)
    (fromDate toDate : string) (selectedBranchId : option float) : Fetched :=
  (* setLoading(true) *)
  match getStudents api (or_undefined fromDate) (or_undefined toDate)
          selectedBranchId with
  | inr response_students =>
      let updatedStudents :=
        map (updatedStudent (parse api) (now api)) response_students in
      mkFetched updatedStudents false []
  | inl _ => mkFetched students false [error_toast "Failed to fetch students"]
  end.

(** *** Sorting state *)

(** ['createdAt' | 'seatNumber']. *)
Inductive column : Type := createdAtColumn | seatNumberColumn.

(** ['asc' | 'desc']. *)
Inductive direction : Type := asc | desc.

Record Sorting : Type := mkSorting {
  sortColumn : option column;
  createdAtSortDirection : direction;
  seatSortDirection : direction
}.

(** [prev => (prev === 'asc' ? 'desc' : 'asc')]. *)
Definition toggled (prev : direction) : direction :=
  match prev with asc => desc | desc => asc end.

Definition handleSort (col : column) (st : Sorting) : Sorting :=
  match col with
  | createdAtColumn =>
      mkSorting (Some col) (toggled (createdAtSortDirection st)) (seatSortDirection st)
  | seatNumberColumn =>
      mkSorting (Some col) (createdAtSortDirection st) (toggled (seatSortDirection st))
  end.

(** *** Pagination *)

(** [xs.slice(start, end)] on integers: a negative bound counts from the
    end of the array. *)
Definition slice {A : Type} (xs : list A) (start end_ : Z) : list A :=
  let len := Z.of_nat (List.length xs) in
  let k := if (start <? 0)%Z then Z.max (len + start) 0 else Z.min start len in
  let final := if (end_ <? 0)%Z then Z.max (len + end_) 0 else Z.min end_ len in
  firstn (Z.to_nat (final - k)) (skipn (Z.to_nat k) xs).

(** [Math.ceil(n / d)] on integers, for a divisor other than 0. *)
Definition ceil_div (n d : Z) : Z := (- ((- n) / d))%Z.

Definition indexOfLastStudent (currentPage studentsPerPage : Z) : Z :=
  (currentPage * studentsPerPage)%Z.

Definition indexOfFirstStudent (currentPage studentsPerPage : Z) : Z :=
  (indexOfLastStudent currentPage studentsPerPage - studentsPerPage)%Z.

Definition currentStudents (filteredStudents : list Student)
    (currentPage studentsPerPage : Z) : list Student :=
  slice filteredStudents
    (indexOfFirstStudent currentPage studentsPerPage)
    (indexOfLastStudent currentPage studentsPerPage).

Definition totalPages (filteredStudents : list Student) (studentsPerPage : Z) : Z :=
  ceil_div (Z.of_nat (List.length filteredStudents)) studentsPerPage.

(** The two buttons of the pager:
    [setCurrentPage(prev => Math.max(prev - 1, 1))] and
    [setCurrentPage(prev => Math.min(prev + 1, totalPages))]. *)
Definition previousPage (prev : Z) : Z := Z.max (prev - 1) 1.
Definition nextPage (totalPages prev : Z) : Z := Z.min (prev + 1) totalPages.

(** All pages, first to last. *)
Definition pages (filteredStudents : list Student) (studentsPerPage : Z)
  : list (list Student) :=
  map (fun p => currentStudents filteredStudents (Z.of_nat p + 1) studentsPerPage)
      (seq 0 (Z.to_nat (totalPages filteredStudents studentsPerPage))).

(** *** Deleting *)

(** What the page runs against when deleting: the answer to
    [window.confirm] and [api.deleteStudent] ([Some err] when the promise
    rejects). *)
Record DeleteEnv : Type := mkDeleteEnv {
  confirm : string -> bool;
  deleteStudent : float -> option Js.error
}.

(** [handleDelete]: the new [students] and the toasts raised. *)
Definition handleDelete (env : DeleteEnv) (students : list Student) (id : float)
  : list Student * list notification :=
  if confirm env "Are you sure you want to delete this student?" then
    match deleteStudent env id with
    | None =>
        (filter (fun student => negb (PrimFloat.eqb (AllStudents.id student) id))
                students,
         [success_toast "Student deleted successfully"])
    | Some _ => (students, [error_toast "Failed to delete student"])
    end
  else (students, []).

(** *** WhatsApp *)

(** [phone.replace(/[^\d]/g, '')]. *)
Fixpoint cleanedPhone (phone : string) : string :=
  match phone with
  | EmptyString => EmptyString
  | String c rest =>
      if Js.is_digit c then String c (cleanedPhone rest) else cleanedPhone rest
  end.

(** The address [handleWhatsApp] opens. *)
Definition whatsappUrl (phone : string) : string :=
  "https://wa.me/" ++ cleanedPhone phone.

(** A student as the server sends one with no registration number and no
    creation date. *)
Definition bare_summary : StudentSummary :=
  mkStudentSummary 5 "Meera" "98-7654 3210" None "2030-01-01" None "active" None.

(** Three students, one of them without a registration number. *)
Definition asha : Student :=
  mkStudent 1 "Asha" "9000000001" (Some "R-101") "2030-01-01" "2024-01-05" "active"
    (Some "12").
Definition bina : Student :=
  mkStudent 2 "Bina" "9000000002" (Some "R-102") "2030-02-01" "2024-02-05" "active"
    None.
Definition chitra : Student :=
  mkStudent 3 "Chitra" "9000000003" (Some "N/A") "2030-03-01" "N/A" "active" None.
Definition class : list Student := [asha; bina; chitra].

(** An engine's [toLowerCase] on the two strings of the example below,
    and the ASCII mapping on every other string.  A capital sigma that ends
    a word becomes the final small sigma, any other the plain small sigma
    (the Final_Sigma rule of Unicode's SpecialCasing.txt, which
    [String.prototype.toLowerCase] applies). *)
Definition greek_lower (s : string) : string :=
  if String.eqb s "ΝΙΚΟΣ" then "νικος"
  else if String.eqb s "Σ" then "σ"
  else Js.toLowerCase s.

(** A student with a name in Greek capitals. *)
Definition nikos : Student :=
  mkStudent 4 "ΝΙΚΟΣ" "9000000004" (Some "R-104") "2030-04-01" "2024-04-05" "active"
    None.

(** A page on which the user confirms and the server deletes. *)
Definition willing : DeleteEnv := mkDeleteEnv (fun _ => true) (fun _ => None).

(** A [Date.parse] that reads nothing. *)
Definition no_parse : string -> option Z := fun _ => None.

End AllStudents.

(* ================================================================== *)
(** ** pages/CollectionDue.tsx *)
(* ================================================================== *)

Module CollectionDue.

(** [interface Collection]. *)
Record Collection : Type := mkCollection {
  historyId : float;
  studentId : float;
  name : string;
  shiftTitle : option string;
  totalFee : float;
  amountPaid : float;
  dueAmount : float;
  cash : float;
  online : float;
  securityMoney : float;
  remark : string;
  createdAt : option string;
  branchId : option float;
  branchName : option string;
  phone : string
}.

(** ['cash' | 'online']. *)
Inductive method : Type := Cash | Online.

(** The component state [handlePaymentSubmit] reads and sets. *)
Record State : Type := mkState {
  collections : list Collection;
  isSubmitting : bool;
  isPayModalOpen : bool;
  selectedCollection : option Collection;
  paymentAmount : string;
  paymentMethod : option method
}.

Inductive toast : Type :=
| toast_error (msg : string)
| toast_success (msg : string).

(** What the page runs against: two builtins and the REST client. *)
Record Env : Type := mkEnv {
  parseFloat : string -> float;
  toFixed2 : float -> string;
  (** [api.updateCollectionPayment(historyId, {amount, method})]: [Some err]
      when the promise rejects. *)
  updateCollectionPayment : float -> float -> method -> option Js.error
}.

(** The object built for an entry [c] whose [historyId] matches: a copy of
    [c] with four fields overwritten; the spread of [false] adds nothing. *)
Definition paid (paymentMethod : method) (payment : float) (c : Collection)
  : Collection :=
  mkCollection
    (historyId c) (studentId c) (name c) (shiftTitle c) (totalFee c)
    (amountPaid c + payment)%float
    (dueAmount c - payment)%float
    (match paymentMethod with Cash => (cash c + payment)%float | Online => cash c end)
    (match paymentMethod with Online => (online c + payment)%float | Cash => online c end)
    (securityMoney c) (remark c) (createdAt c) (branchId c) (branchName c)
    (phone c).

(** [updatedCollections]. *)
Definition updatedCollections (collections : list Collection)
    (selectedCollection : Collection) (paymentMethod : method) (payment : float)
  : list Collection :=
  map (fun c =>
         if PrimFloat.eqb (historyId c) (historyId selectedCollection)
         then paid paymentMethod payment c
         else c)
      collections.

(** One run of the handler: the state shown while the request is in
    flight (if one is sent), the state when the handler is done, and the
    toasts raised. *)
Record Run : Type := mkRun {
  pending : option State;
  final : State;
  toasts : list toast
}.

Definition handlePaymentSubmit (env : Env) (st : State) : Run :=
  match selectedCollection st, paymentMethod st,
        negb (String.eqb (paymentAmount st) "") with
  | Some selected, Some meth, true =>
      let payment := parseFloat env (paymentAmount st) in
      if PrimFloat.is_nan payment
         || PrimFloat.leb payment 0
         || PrimFloat.ltb (dueAmount selected) payment
      then
        mkRun None st
          [toast_error ("Invalid amount. Must be between ₹0.01 and ₹"
                        ++ toFixed2 env (dueAmount selected) ++ ".")]
      else
        (* setIsSubmitting(true) *)
        let originalCollections := collections st in
        let updated := updatedCollections (collections st) selected meth payment in
        (* setCollections(updatedCollections); setIsPayModalOpen(false) *)
        let shown :=
          mkState updated true false
            (selectedCollection st) (paymentAmount st) (paymentMethod st) in
        match updateCollectionPayment env (historyId selected) payment meth with
        | None =>
            mkRun (Some shown)
              (mkState updated false false
                 (selectedCollection st) (paymentAmount st) (paymentMethod st))
              [toast_success "Payment updated successfully!"]
        | Some err =>
            (* setCollections(originalCollections); finally setIsSubmitting(false) *)
            mkRun (Some shown)
              (mkState originalCollections false false
                 (selectedCollection st) (paymentAmount st) (paymentMethod st))
              [toast_error
                 (if String.eqb (Js.message err) ""
                  then "Failed to update payment. Please try again."
                  else Js.message err)]
        end
  | _, _, _ =>
      mkRun None st
        [toast_error "Please select a payment method and enter an amount."]
  end.

(** An entry after the update, against the entry [c] before it. *)
Definition entry_updated (selected : Collection) (meth : method) (p : float)
    (c c' : Collection) : Prop :=
  if PrimFloat.eqb (historyId c) (historyId selected) then
    amountPaid c' = (amountPaid c + p)%float
    /\ dueAmount c' = (dueAmount c - p)%float
    /\ match meth with
       | Cash => cash c' = (cash c + p)%float /\ online c' = online c
       | Online => online c' = (online c + p)%float /\ cash c' = cash c
       end
    /\ historyId c' = historyId c /\ studentId c' = studentId c
    /\ name c' = name c /\ shiftTitle c' = shiftTitle c
    /\ totalFee c' = totalFee c /\ securityMoney c' = securityMoney c
    /\ remark c' = remark c /\ createdAt c' = createdAt c
    /\ branchId c' = branchId c /\ branchName c' = branchName c
    /\ phone c' = phone c
  else c' = c.

(** The sum [amountPaid + dueAmount] of every updated entry is what it was. *)
Definition sum_preserved (collections : list Collection) (selected : Collection)
    (meth : method) (p : float) : Prop :=
  forall i c c',
    nth_error collections i = Some c ->
    nth_error (updatedCollections collections selected meth p) i = Some c' ->
    PrimFloat.eqb (historyId c) (historyId selected) = true ->
    (amountPaid c' + dueAmount c')%float = (amountPaid c + dueAmount c)%float.

(** The amounts of entry [c] and the payment [p] are whole numbers: [a]
    paid, [d] due and [n] to pay, with [0 < n <= d] and [a + d] below 2^53. *)
Definition whole_amounts (c : Collection) (p : float) (a d n : Z) : Prop :=
  amountPaid c = JsNumber.int_float a
  /\ dueAmount c = JsNumber.int_float d
  /\ p = JsNumber.int_float n
  /\ (0 <= a /\ 0 < n <= d /\ a + d < 2 ^ 53)%Z.

(** A collection with 100 paid and 700 due. *)
Definition whole_sample : Collection :=
  mkCollection 8 43 "Sita" None 800 100 700 100 0 0 "" None None None "N/A".

(** A collection with 0.1 paid and 0.7 due. *)
Definition sample : Collection :=
  mkCollection 7 42 "Ravi" None 0.8 0.1 0.7 0.1 0 0 "" None None None "N/A".

(** A page whose REST client fails. *)
Definition offline : Env :=
  mkEnv (fun _ => 0.1%float) (fun _ => "0.70")
        (fun _ _ _ => Some (Js.mkError "Error" "Network Error")).

(** The pay modal open on [sample], 0.1 entered, cash chosen. *)
Definition paying : State :=
  mkState [sample] false true (Some sample) "0.1" (Some Cash).

(** *** The month shown first *)

(** [currentMonth]: [now] is the time value of [new Date()]. *)
Definition currentMonth (now : Z) : Js.error + string :=
  match JsDate.toISOString (JsDate.TimeClip now) with
  | inl e => inl e
  | inr iso => inr (Js.slice0 7 iso)
  end.

(** *** Loading *)

(** What [loadCollections] runs against: the REST client
    ([api.getCollections(params)] rejects with an error or resolves with
    the parsed body) and the builtin [Number]. *)
Record CollectionsApi : Type := mkCollectionsApi {
  getCollections : Js.value -> Js.error + Js.value;
  Number : Js.value -> float
}.

(** [params]: [month] and [branchId] are set only when truthy. *)
Definition load_params (selectedMonth : string) (selectedBranchId : option float)
  : Js.value :=
  Js.VObj
    ((if String.eqb selectedMonth "" then []
      else [("month", Js.VStr selectedMonth)])
     ++ match selectedBranchId with
        | Some b => if Js.truthy_num b then [("branchId", Js.VNum b)] else []
        | None => []
        end)%list.

(** [Number(v) || 0]. *)
Definition number_or_zero (api : CollectionsApi) (v : Js.value) : Js.value :=
  Js.VNum (Js.or_zero (Number api v)).

(** [v || d]. *)
Definition or_else (v d : Js.value) : Js.value := if Js.truthy v then v else d.

(** The callback of [data.collections.map]: the first property read
    throws when [c] is [null] or [undefined]. *)
Definition mappedCollection (api : CollectionsApi) (c : Js.value) : Js.error + Js.value :=
  match Js.prop c "historyId" with
  | inl e => inl e
  | inr historyId =>
      inr (Js.VObj
             [("historyId", historyId);
              ("studentId", Js.get c "studentId");
              ("name", Js.get c "name");
              ("shiftTitle", Js.get c "shiftTitle");
              ("totalFee", number_or_zero api (Js.get c "totalFee"));
              ("amountPaid", number_or_zero api (Js.get c "amountPaid"));
              ("dueAmount", number_or_zero api (Js.get c "dueAmount"));
              ("cash", number_or_zero api (Js.get c "cash"));
              ("online", number_or_zero api (Js.get c "online"));
              ("securityMoney", number_or_zero api (Js.get c "securityMoney"));
              ("remark", or_else (Js.get c "remark") (Js.VStr ""));
              ("createdAt", Js.get c "createdAt");
              ("branchId", Js.get c "branchId");
              ("branchName", Js.get c "branchName");
              ("phone", or_else (Js.get c "phone") (Js.VStr "N/A"))])
  end.

(** [xs.map(f)] for a callback that may throw: the first exception ends
    the loop. *)
Fixpoint map_throwing (f : Js.value -> Js.error + Js.value) (xs : list Js.value)
  : Js.error + list Js.value :=
  match xs with
  | [] => inr []
  | x :: rest =>
      match f x with
      | inl e => inl e
      | inr y =>
          match map_throwing f rest with
          | inl e => inl e
          | inr ys => inr (y :: ys)
          end
      end
  end.

(** The state [loadCollections] leaves: [collections] (the objects built,
    as JavaScript values), [loading], and the toasts raised. *)
Record Loaded : Type := mkLoaded {
  loaded : list Js.value;
  loading : bool;
  load_toasts : list toast
}.

Definition invalid_data : Js.error :=
  Js.mkError "Error" "Invalid data structure received from server".

Definition loadCollections (api : CollectionsApi) (selectedMonth : string)
    (selectedBranchId : option float) : Loaded :=
  let attempt :=
    match getCollections api (load_params selectedMonth selectedBranchId) with
    | inl err => inl err
    | inr data =>
        if negb (Js.truthy data) then inl invalid_data
        else match Js.get data "collections" with
             | Js.VArr items => map_throwing (mappedCollection api) items
             | _ => inl invalid_data
             end
    end in
  match attempt with
  | inr mappedData => mkLoaded mappedData false []
  | inl err =>
      mkLoaded [] false
        [toast_error (if String.eqb (Js.message err) ""
                      then "Failed to load collection data."
                      else Js.message err)]
  end.

(** *** The table and its totals *)

(** The predicate of the search; [toLowerCase] is the engine's
    [String.prototype.toLowerCase] and [toString] its
    [Number.prototype.toString]. *)
Definition searched (toLowerCase : string -> string) (toString : float -> string)
    (searchTerm : string) (col : Collection) : bool :=
  let searchTermLower := toLowerCase searchTerm in
  Js.includes (toLowerCase (name col)) searchTermLower
  || Js.includes (toString (studentId col)) searchTermLower
  || Js.includes (toLowerCase (phone col)) searchTermLower.

Definition filteredCollections (toLowerCase : string -> string)
    (toString : float -> string)
    (collections : list Collection) (searchTerm : string) (showOnlyDue : bool)
  : list Collection :=
  let filtered := filter (searched toLowerCase toString searchTerm) collections in
  if showOnlyDue then filter (fun col => PrimFloat.ltb 0 (dueAmount col)) filtered
  else filtered.

(** [xs.reduce((sum, c) => sum + f(c), 0)]. *)
Definition reduce_sum (f : Collection -> float) (xs : list Collection) : float :=
  fold_left (fun sum c => (sum + f c)%float) xs 0%float.

Record Stats : Type := mkStats {
  totalStudents : nat;
  totalCollected : float;
  totalDue : float;
  totalCash : float;
  totalOnline : float;
  totalSecurityMoney : float
}.

Definition summaryStats (filteredCollections : list Collection) : Stats :=
  mkStats (List.length filteredCollections)
          (reduce_sum amountPaid filteredCollections)
          (reduce_sum dueAmount filteredCollections)
          (reduce_sum cash filteredCollections)
          (reduce_sum online filteredCollections)
          (reduce_sum securityMoney filteredCollections).

(** *** The pay-due dialogue *)

(** [handlePayDueClick]: the amount is filled in with the whole due. *)
Definition handlePayDueClick (toString : float -> string) (st : State)
    (collection : Collection) : State :=
  mkState (collections st) (isSubmitting st) true (Some collection)
          (toString (dueAmount collection)) None.

(** [setPaymentMethod(method)], from the two buttons of the dialogue. *)
Definition setPaymentMethod (meth : method) (st : State) : State :=
  mkState (collections st) (isSubmitting st) (isPayModalOpen st)
          (selectedCollection st) (paymentAmount st) (Some meth).

(** The amounts of the entries of a list are whole numbers, not negative:
    [rows] holds what is paid and what is due, entry by entry. *)
Definition whole_rows (l : list Collection) (rows : list (Z * Z)) : Prop :=
  Forall2 (fun c r =>
             amountPaid c = JsNumber.int_float (fst r)
             /\ dueAmount c = JsNumber.int_float (snd r)
             /\ (0 <= fst r)%Z /\ (0 <= snd r)%Z)
          l rows.

Definition sum_paid (rows : list (Z * Z)) : Z :=
  fold_right (fun r acc => (fst r + acc)%Z) 0%Z rows.
Definition sum_due (rows : list (Z * Z)) : Z :=
  fold_right (fun r acc => (snd r + acc)%Z) 0%Z rows.

(** The entries that a payment of [n] updates have at least [n] due. *)
Definition payable (selected : Collection) (n : Z) (l : list Collection)
    (rows : list (Z * Z)) : Prop :=
  Forall2 (fun c r =>
             PrimFloat.eqb (historyId c) (historyId selected) = true -> (n <= snd r)%Z)
          l rows.

(** The number of entries with the [historyId] of [selected]. *)
Definition matching (selected : Collection) (l : list Collection) : Z :=
  Z.of_nat (List.length
              (filter (fun c => PrimFloat.eqb (historyId c) (historyId selected)) l)).

(** A page whose REST client answers and whose builtins do what the
    examples need. *)
Definition online_env : Env :=
  mkEnv (fun s => if String.eqb s "700" then 700%float else nan)
        (fun _ => "700.00") (fun _ _ _ => None).

Definition seven_hundred (x : float) : string :=
  if PrimFloat.eqb x 700 then "700" else "?".

(** A page showing [whole_sample], nothing selected. *)
Definition idle : State := mkState [whole_sample] false false None "" None.

(** A server that sends one good record and one [null]. *)
Definition careless_api : CollectionsApi :=
  mkCollectionsApi (fun _ =>
           inr (Js.VObj [("collections",
                          Js.VArr [Js.VObj [("historyId", Js.VNum 1)]; Js.VNull])]))
        (fun _ => nan).

End CollectionDue.
(* ================================================================== *)
(** * Properties *)
(* ================================================================== *)

(** ** Strings and digits *)

Module JsFacts.
Import Js.

Lemma strict_eq_str (v : value) (s : string) :
  strict_eq v (VStr s) = true <-> v = VStr s.
Proof.
  split.
  - destruct v; simpl; try discriminate.
    intros H. apply String.eqb_eq in H. now subst.
  - intros ->. simpl. apply String.eqb_refl.
Qed.

Lemma is_digit_spec c :
  is_digit c = true ->
  (0 <= digit_val c <= 9)%Z /\ digit_char (digit_val c) = c
  /\ Ascii.eqb c "-" = false /\ Ascii.eqb c "T" = false.
Proof.
  destruct c as [[] [] [] [] [] [] [] []]; vm_compute; intros H;
    try discriminate H; repeat split; congruence.
Qed.

Lemma digit_char_is_digit d : (0 <= d <= 9)%Z -> is_digit (digit_char d) = true.
Proof.
  intros H.
  assert (C : (d = 0 \/ d = 1 \/ d = 2 \/ d = 3 \/ d = 4 \/ d = 5 \/ d = 6
               \/ d = 7 \/ d = 8 \/ d = 9)%Z) by lia.
  destruct C as [-> | [-> | [-> | [-> | [-> | [-> | [-> | [-> | [-> | ->]]]]]]]]];
    reflexivity.
Qed.

Lemma pad_digits_snoc w q d :
  (0 <= d <= 9)%Z ->
  pad_digits (S w) (10 * q + d) = pad_digits w q ++ String (digit_char d) "".
Proof.
  intros H. cbn [pad_digits].
  replace ((10 * q + d) / 10)%Z with q by (Z.div_mod_to_equations; lia).
  replace ((10 * q + d) mod 10)%Z with d by (Z.div_mod_to_equations; lia).
  reflexivity.
Qed.

Lemma append_assoc (a b c : string) : (a ++ b) ++ c = a ++ (b ++ c).
Proof. induction a; simpl; congruence. Qed.

Lemma append_nil_r (a : string) : a ++ "" = a.
Proof. induction a; simpl; congruence. Qed.

(** Printing the value of a digit string at its own width gives it back. *)
Lemma pad_digits_value s : forall w acc,
  all_digits s = true ->
  pad_digits (String.length s + w) (digits_value acc s) = pad_digits w acc ++ s.
Proof.
  induction s as [| c r IH]; intros w acc H.
  - simpl. now rewrite append_nil_r.
  - simpl in H. apply andb_true_iff in H. destruct H as [Hc Hr].
    destruct (is_digit_spec c Hc) as (Hv & Hch & _).
    cbn [digits_value String.length].
    replace (S (String.length r) + w)%nat with (String.length r + S w)%nat by lia.
    rewrite IH by exact Hr. rewrite pad_digits_snoc by exact Hv.
    rewrite Hch, append_assoc. reflexivity.
Qed.

Lemma digits_value_bounds s : forall acc,
  all_digits s = true -> (0 <= acc)%Z ->
  (acc * 10 ^ Z.of_nat (String.length s) <= digits_value acc s
   < (acc + 1) * 10 ^ Z.of_nat (String.length s))%Z.
Proof.
  induction s as [| c r IH]; intros acc H Hacc.
  - simpl. lia.
  - simpl in H. apply andb_true_iff in H. destruct H as [Hc Hr].
    destruct (is_digit_spec c Hc) as (Hv & _).
    cbn [digits_value String.length].
    specialize (IH (10 * acc + digit_val c)%Z Hr ltac:(lia)).
    rewrite Nat2Z.inj_succ, Z.pow_succ_r by lia.
    assert (P : (0 < 10 ^ Z.of_nat (String.length r))%Z) by (apply Z.pow_pos_nonneg; lia).
    nia.
Qed.

Lemma pad_digits_length w : forall n, String.length (pad_digits w n) = w.
Proof.
  induction w as [| w IH]; intros n; [reflexivity|].
  cbn [pad_digits].
  assert (L : forall a b, String.length (a ++ b) = (String.length a + String.length b)%nat).
  { intros a b. induction a; simpl; auto. }
  rewrite L, IH. simpl. lia.
Qed.

Lemma free_of_app c a b : free_of c (a ++ b) = free_of c a && free_of c b.
Proof. induction a; simpl; [reflexivity|]. rewrite IHa. now rewrite andb_assoc. Qed.

Lemma pad_digits_free_T w : forall n, free_of "T" (pad_digits w n) = true.
Proof.
  induction w as [| w IH]; intros n; [reflexivity|].
  cbn [pad_digits]. rewrite free_of_app, IH. cbn [free_of andb].
  assert (D : is_digit (digit_char (n mod 10)) = true).
  { apply digit_char_is_digit. Z.div_mod_to_equations. lia. }
  destruct (is_digit_spec _ D) as (_ & _ & _ & T). now rewrite T.
Qed.

Lemma split_free c a rest :
  free_of c a = true ->
  split c (a ++ String c rest) = a :: split c rest.
Proof.
  induction a as [| x r IH]; intros H.
  - simpl. now rewrite Ascii.eqb_refl.
  - simpl in H. apply andb_true_iff in H. destruct H as [Hx Hr].
    apply negb_true_iff in Hx. simpl. rewrite Hx, IH by exact Hr. reflexivity.
Qed.

Lemma slice0_app a b : slice0 (String.length a) (a ++ b) = a.
Proof.
  unfold slice0. induction a as [| x r IH]; simpl.
  - destruct b; reflexivity.
  - now rewrite IH.
Qed.

Lemma all_digits_free_T s : all_digits s = true -> free_of "T" s = true.
Proof.
  induction s as [| c r IH]; [reflexivity|]. simpl. intros H.
  apply andb_true_iff in H. destruct H as [Hc Hr].
  destruct (is_digit_spec c Hc) as (_ & _ & _ & T). now rewrite T, IH.
Qed.

Lemma toNumber_digits s :
  all_digits s = true -> s <> ""%string -> toNumber s = Some (digits_value 0 s).
Proof. intros H N. destruct s; [congruence|]. unfold toNumber. now rewrite H. Qed.

Lemma pad_digits_own_width s n :
  all_digits s = true -> String.length s = n ->
  pad_digits n (digits_value 0 s) = s.
Proof.
  intros H <-. pose proof (pad_digits_value s 0 0 H) as P.
  rewrite Nat.add_0_r in P. exact P.
Qed.

Lemma length_app (a b : string) :
  String.length (a ++ b) = (String.length a + String.length b)%nat.
Proof. induction a; simpl; auto. Qed.

End JsFacts.

(** ** The calendar behind [Date] *)

Module DateFacts.
Import Js JsDate JsFacts.
Local Open Scope Z_scope.

Ltac split_ifs :=
  repeat match goal with
         | |- context [if ?b then _ else _] => destruct b eqn:?
         end.

(** [YearFromDay d] is a year that day [d] falls in ... *)
Lemma YearFromDay_spec d :
  DayFromYear (YearFromDay d) <= d < DayFromYear (YearFromDay d + 1).
Proof.
  unfold YearFromDay, DayFromYear. split_ifs; Z.div_mod_to_equations; lia.
Qed.

Lemma DayFromYear_succ y : DayFromYear (y + 1) = DayFromYear y + DaysInYear y.
Proof.
  unfold DayFromYear, DaysInYear. split_ifs; cbn [negb] in *;
    repeat match goal with
           | H : (_ =? _) = true |- _ => apply Z.eqb_eq in H
           | H : (_ =? _) = false |- _ => apply Z.eqb_neq in H
           | H : negb _ = true |- _ => apply negb_true_iff in H
           | H : negb _ = false |- _ => apply negb_false_iff in H
           end;
    repeat match goal with
           | H : (_ =? _) = true |- _ => apply Z.eqb_eq in H
           | H : (_ =? _) = false |- _ => apply Z.eqb_neq in H
           end; Z.div_mod_to_equations; lia.
Qed.

Lemma DayFromYear_mono y1 y2 : y1 <= y2 -> DayFromYear y1 <= DayFromYear y2.
Proof.
  unfold DayFromYear. intros. Z.div_mod_to_equations. lia.
Qed.

(** ... and the only one: the largest [y] with [DayFromYear y <= d]. *)
Lemma YearFromDay_unique d y :
  DayFromYear y <= d < DayFromYear (y + 1) -> YearFromDay d = y.
Proof.
  intros H. pose proof (YearFromDay_spec d) as S.
  destruct (Z.lt_trichotomy (YearFromDay d) y) as [L | [E | G]]; [ | exact E | ].
  - pose proof (DayFromYear_mono (YearFromDay d + 1) y ltac:(lia)). lia.
  - pose proof (DayFromYear_mono (y + 1) (YearFromDay d) ltac:(lia)). lia.
Qed.

Lemma DaysInYear_cases y : DaysInYear y = 365 \/ DaysInYear y = 366.
Proof. unfold DaysInYear. split_ifs; auto. Qed.

Lemma is_leap_year_DaysInYear y : is_leap_year y = (DaysInYear y =? 366).
Proof.
  unfold is_leap_year, DaysInYear.
  destruct (y mod 4 =? 0), (y mod 100 =? 0), (y mod 400 =? 0); reflexivity.
Qed.

(** The month and the date the tables give for the last day of each
    month, in leap years and others. *)
Lemma last_index_fields l m :
  0 <= l <= 1 -> 1 <= m <= 12 ->
  month_of (last_index l m) l = m - 1
  /\ date_of (last_index l m) l (m - 1)
     = match m with
       | 2 => 28 + l
       | 4 | 6 | 9 | 11 => 30
       | _ => 31
       end.
Proof.
  intros Hl Hm.
  assert (L : l = 0 \/ l = 1) by lia.
  assert (C : m = 1 \/ m = 2 \/ m = 3 \/ m = 4 \/ m = 5 \/ m = 6 \/ m = 7
              \/ m = 8 \/ m = 9 \/ m = 10 \/ m = 11 \/ m = 12) by lia.
  destruct L as [-> | ->];
    destruct C as [-> | [-> | [-> | [-> | [-> | [-> | [-> | [-> | [-> | [-> | [-> | ->]]]]]]]]]]];
    vm_compute; split; reflexivity.
Qed.

Lemma MakeDay_last y m :
  1 <= m <= 12 ->
  MakeDay y m 0 = DayFromYear y + last_index (leap_flag y) m.
Proof.
  intros Hm. unfold MakeDay, last_index, DaysBeforeMonth.
  destruct (m =? 12) eqn:E.
  - apply Z.eqb_eq in E. subst m.
    change (12 / 12) with 1. change (12 mod 12) with 0.
    rewrite DayFromYear_succ. unfold leap_flag, days_before.
    destruct (DaysInYear_cases y) as [D | D]; rewrite D; cbn; lia.
  - apply Z.eqb_neq in E.
    rewrite (Z.div_small m 12), (Z.mod_small m 12) by lia.
    replace (y + 0) with y by lia. unfold leap_flag. lia.
Qed.

Lemma last_index_range y m :
  1 <= m <= 12 -> 0 <= last_index (leap_flag y) m < DaysInYear y.
Proof.
  intros Hm. unfold leap_flag.
  assert (C : m = 1 \/ m = 2 \/ m = 3 \/ m = 4 \/ m = 5 \/ m = 6 \/ m = 7
              \/ m = 8 \/ m = 9 \/ m = 10 \/ m = 11 \/ m = 12) by lia.
  destruct (DaysInYear_cases y) as [D | D]; rewrite D;
    destruct C as [-> | [-> | [-> | [-> | [-> | [-> | [-> | [-> | [-> | [-> | [-> | ->]]]]]]]]]]];
    vm_compute; split; congruence.
Qed.

(** Day [0] of month [m] (counted from 0) is the last day of calendar
    month [m] (counted from 1). *)
Lemma last_day_fields y m t :
  1 <= m <= 12 ->
  Day t = MakeDay y m 0 ->
  YearFromTime t = y /\ MonthFromTime t + 1 = m /\ DateFromTime t = days_in_month y m.
Proof.
  intros Hm Ht.
  rewrite MakeDay_last in Ht by exact Hm.
  pose proof (last_index_range y m Hm) as R.
  assert (Hy : YearFromTime t = y).
  { unfold YearFromTime. apply YearFromDay_unique.
    rewrite DayFromYear_succ. lia. }
  assert (Hl : InLeapYear t = leap_flag y).
  { unfold InLeapYear, leap_flag. now rewrite Hy. }
  assert (Hd : DayWithinYear t = last_index (leap_flag y) m).
  { unfold DayWithinYear. rewrite Hy. lia. }
  assert (B : 0 <= leap_flag y <= 1).
  { unfold leap_flag. destruct (DaysInYear y =? 366); lia. }
  destruct (last_index_fields (leap_flag y) m B Hm) as [M Dt].
  split; [exact Hy|].
  unfold DateFromTime, MonthFromTime. rewrite Hl, Hd, M.
  split; [lia|]. rewrite Dt.
  unfold days_in_month. rewrite is_leap_year_DaysInYear. unfold leap_flag.
  destruct (DaysInYear y =? 366); reflexivity.
Qed.

Lemma days_before_bound l mn : 0 <= l <= 1 -> 0 <= days_before l mn <= 335.
Proof.
  intros H. unfold days_before.
  destruct mn as [| p | p]; try lia;
    do 4 (try destruct p as [p | p |]); lia.
Qed.

Lemma leap_flag_range y : 0 <= leap_flag y <= 1.
Proof. unfold leap_flag. destruct (DaysInYear y =? 366); lia. Qed.

Lemma DayFromYear_bound y : 0 <= y <= 10100 -> -720000 <= DayFromYear y <= 2970000.
Proof. intros H. unfold DayFromYear. Z.div_mod_to_equations. lia. Qed.

(** [new Date(y, m, 0)] is a valid date for every year and month two
    strings of four and two digits can denote. *)
Lemma construct_valid tza y m :
  (forall t, Z.abs (tza t) <= msPerDay) ->
  0 <= y <= 9999 -> 0 <= m <= 99 ->
  exists t, construct tza (Some y) (Some m) 0 = Some t.
Proof.
  intros Htz Hy Hm. unfold construct.
  set (yr := if (0 <=? y) && (y <=? 99) then 1900 + y else y).
  assert (Hyr : 0 <= yr <= 9999).
  { subst yr. destruct ((0 <=? y) && (y <=? 99)) eqn:E; [|lia].
    apply andb_true_iff in E. lia. }
  set (fd := MakeDate (MakeDay yr m 0) (MakeTime 0 0 0 0)).
  exists (fd - tza fd). unfold TimeClip.
  assert (B : Z.abs (fd - tza fd) <= 8640000000000000).
  { specialize (Htz fd). generalize dependent (tza fd). intros off Htz.
    subst fd. unfold MakeDate, MakeTime, MakeDay, DaysBeforeMonth.
    pose proof (days_before_bound (leap_flag (yr + m / 12)) (m mod 12)
                  (leap_flag_range _)) as Db.
    assert (Hq : 0 <= m / 12 <= 8) by (Z.div_mod_to_equations; lia).
    pose proof (DayFromYear_bound (yr + m / 12) ltac:(lia)) as Dy.
    unfold msPerDay in *. lia. }
  apply Z.leb_le in B. now rewrite B.
Qed.

(** The text before the [T] of an ISO date-time, read either way the two
    routes read it. *)
Lemma iso_date_part d rest :
  free_of "T" d = true -> String.length d = 10%nat ->
  nth 0 (split "T" (d ++ String "T" rest)) "undefined"%string = d
  /\ slice0 10 (d ++ String "T" rest) = d.
Proof.
  intros F L. split.
  - now rewrite split_free.
  - rewrite <- L. apply slice0_app.
Qed.

(** For a month of the calendar, a year from 100 on and a host at or
    behind UTC, [new Date(y, m, 0).toISOString()] starts with the last day
    of that month. *)
Lemma iso_of_last_day tza y4 m2 :
  all_digits y4 = true -> String.length y4 = 4%nat ->
  all_digits m2 = true -> String.length m2 = 2%nat ->
  100 <= digits_value 0 y4 -> 1 <= digits_value 0 m2 <= 12 ->
  (forall t, - msPerDay < tza t <= 0) ->
  exists rest,
    toISOString (construct tza (toNumber y4) (toNumber m2) 0)
    = inr ((y4 ++ "-" ++ m2 ++ "-"
            ++ pad_digits 2 (days_in_month (digits_value 0 y4) (digits_value 0 m2)))
           ++ String "T" rest)%string.
Proof.
  intros Dy Ly Dm Lm Hy Hm Htz.
  rewrite !toNumber_digits by (try assumption; intros ->; discriminate).
  set (y := digits_value 0 y4) in *. set (m := digits_value 0 m2) in *.
  assert (Yb : y < 10000).
  { pose proof (digits_value_bounds y4 0 Dy ltac:(lia)) as B.
    rewrite Ly in B. change (10 ^ Z.of_nat 4) with 10000 in B. subst y. lia. }
  unfold construct.
  replace ((0 <=? y) && (y <=? 99))%bool with false
    by (symmetry; apply andb_false_iff; right; apply Z.leb_gt; lia).
  set (fd := MakeDate (MakeDay y m 0) (MakeTime 0 0 0 0)).
  specialize (Htz fd). generalize dependent (tza fd). intros off Htz.
  assert (Hd : Day (fd - off) = MakeDay y m 0).
  { subst fd. unfold Day, MakeDate, MakeTime. unfold msPerDay in *.
    Z.div_mod_to_equations. lia. }
  destruct (last_day_fields y m (fd - off) Hm Hd) as (Fy & Fm & Fd).
  assert (Hc : TimeClip (fd - off) = Some (fd - off)).
  { unfold TimeClip.
    assert (B : Z.abs (fd - off) <= 8640000000000000).
    { subst fd. unfold MakeDate, MakeTime.
      rewrite MakeDay_last by exact Hm.
      pose proof (last_index_range y m Hm) as R.
      pose proof (DaysInYear_cases y) as C.
      pose proof (DayFromYear_bound y ltac:(lia)) as Db.
      unfold msPerDay in *. lia. }
    apply Z.leb_le in B. now rewrite B. }
  rewrite Hc. unfold toISOString. rewrite Fy, Fm, Fd.
  unfold year_string.
  replace ((0 <=? y) && (y <=? 9999))%bool with true
    by (symmetry; apply andb_true_iff; split; apply Z.leb_le; lia).
  subst y m.
  rewrite (pad_digits_own_width y4 4 Dy Ly), (pad_digits_own_width m2 2 Dm Lm).
  eexists. rewrite !append_assoc. reflexivity.
Qed.

End DateFacts.

(** ** Tactics for running handler code *)

(** Unfold the handler monad on a concrete initial world. *)
Ltac reduce_run :=
  cbv beta iota zeta
    delta [Express.run_handler Express.try_catch Express.bind Express.lift
           Express.ret Express.throw Express.await_query Express.initial
           Express.stored Express.queries app].

(** ** The middlewares and the auth router *)

Module AuthFacts.
Import Js Express JsFacts Auth Examples.

Lemma checkAdminOrStaff_cases req :
  let u := session_user req in
  (truthy u = false
   /\ checkAdminOrStaff req
      = Responded (res_status_json 401 (message_body "Unauthorized - Please log in")))
  \/ (truthy u = true
      /\ (get u "role" = VStr "admin" \/ get u "role" = VStr "staff")
      /\ checkAdminOrStaff req = Next)
  \/ (truthy u = true
      /\ get u "role" <> VStr "admin" /\ get u "role" <> VStr "staff"
      /\ checkAdminOrStaff req
         = Responded (res_status_json 403
                        (message_body "Forbidden: Admin or Staff access required"))).
Proof.
  intros u. unfold checkAdminOrStaff. fold u.
  destruct (truthy u) eqn:T; cbn [negb]; [|left; auto].
  right.
  destruct (strict_eq (get u "role") (VStr "admin")) eqn:A.
  - left. apply strict_eq_str in A. auto.
  - destruct (strict_eq (get u "role") (VStr "staff")) eqn:S; cbn [orb].
    + left. apply strict_eq_str in S. auto.
    + right. repeat split; trivial; intros E; apply strict_eq_str in E; congruence.
Qed.

Lemma permission_is_free :
  existsb (String.eqb "permission") checkPermission_scope = false.
Proof. reflexivity. Qed.

(** C8: for a session user whose role is not ['admin'], [checkPermission]
    gets as far as evaluating the identifier [permission], which nothing
    binds, and throws a ReferenceError: it neither calls [next()] nor sends
    the 403 "Forbidden - Insufficient permissions". *)
Theorem checkPermission_throws_for_non_admin h req :
  assoc "permission" (global_object h) = None ->
  truthy (session_user req) = true ->
  get (session_user req) "role" <> VStr "admin" ->
  checkPermission h req = Thrown (ReferenceError "permission is not defined")
  /\ checkPermission h req <> Next
  /\ checkPermission h req
     <> Responded (res_status_json 403
                     (message_body "Forbidden - Insufficient permissions")).
Proof.
  intros G T NA.
  assert (E : checkPermission h req
              = Thrown (ReferenceError "permission is not defined")).
  { unfold checkPermission. rewrite T. cbn [negb].
    destruct (strict_eq (get (session_user req) "role") (VStr "admin")) eqn:A.
    - apply strict_eq_str in A. contradiction.
    - unfold global_identifier. now rewrite G. }
  rewrite E. repeat split; discriminate.
Qed.

Lemma checkPermission_throws_for_non_admin_witness :
  checkPermission demo_host staff_request
  = Thrown (ReferenceError "permission is not defined").
Proof.
  refine (proj1 (checkPermission_throws_for_non_admin demo_host staff_request
                   eq_refl eq_refl _)).
  intros D. vm_compute in D. discriminate D.
Defined.

Lemma destructure_same what v k k' a :
  destructure what v k = inr a -> exists b, destructure what v k' = inr b.
Proof. destruct v; simpl; intros H; try discriminate H; eauto. Qed.

Lemma login_total h req : login_run h req (run_handler (login h req) req).
Proof.
  unfold login, login_of_body. reduce_run.
  destruct (destructure "req.body" (req_body req) "username") as [e | username] eqn:U.
  - now apply LG_no_body.
  - destruct (destructure_same _ _ _ "password" _ U) as (password & P). rewrite P.
    destruct (negb (truthy username) || negb (truthy password)) eqn:G.
    + eapply LG_missing; eassumption.
    + destruct (pool_query h loginSql [PVal username]) as [e | [| user rest]] eqn:Q.
      * eapply LG_query_fail; eassumption.
      * eapply LG_unknown; eassumption.
      * destruct (strict_eq password (field user "password")) eqn:E; cbn [negb].
        -- cbv beta iota zeta delta [set_session_user stored queries].
           eapply LG_ok; eassumption.
        -- eapply LG_wrong_password; eassumption.
Qed.

End AuthFacts.

(** ** The report handlers *)

Module ReportsFacts.
Import Js Express JsFacts JsDate DateFacts Reports.

Lemma profit_loss_total h req :
  profit_loss_run h req (run_handler (profit_loss h req) req).
Proof.
  unfold profit_loss. fold (bad_month req).
  reduce_run.
  destruct (bad_month req) eqn:G.
  - apply PL_invalid_month. exact G.
  - destruct (split_method "month" "-" (assoc "month" (query req))) as [e | parts] eqn:S.
    + eapply PL_month_not_a_string; eassumption.
    + destruct (last_day_iso h (nth 0 parts "undefined") (nth 1 parts "undefined"))
        as [e | iso] eqn:I.
      * eapply PL_invalid_date; eassumption.
      * match goal with |- context [branch_filter ?b ?v] =>
          destruct (branch_filter b v) as [early | [[cq eq] ps]] eqn:B end.
        -- assert (early = invalid_branch) as ->.
           { unfold branch_filter in B.
             destruct (qs_truthy _); [|discriminate].
             destruct (parseInt10 _); [discriminate|]. now inversion B. }
           eapply PL_invalid_branch; eassumption.
        -- eapply PL_queried; try eassumption.
           destruct (pool_query h cq ps) as [e | rowsC] eqn:Q1.
           { now apply PLQ_collections_fail. }
           destruct (pool_query h eq ps) as [e | rowsE] eqn:Q2.
           { eapply PLQ_expenses_fail; eassumption. }
           destruct (first_row_field rowsC "total_collected") as [e | c] eqn:R1.
           { eapply PLQ_no_collections_row; eassumption. }
           destruct (first_row_field rowsE "total_expenses") as [e | x] eqn:R2.
           { eapply PLQ_no_expenses_row; eassumption. }
           eapply PLQ_ok; eassumption.
Qed.

Lemma monthly_collections_total h req :
  monthly_collections_run h req (run_handler (monthly_collections h req) req).
Proof.
  unfold monthly_collections. fold (bad_month req).
  reduce_run.
  destruct (bad_month req) eqn:G.
  - apply MC_invalid_month. exact G.
  - destruct (split_method "month" "-" (assoc "month" (query req))) as [e | parts] eqn:S.
    + eapply MC_month_not_a_string; eassumption.
    + destruct (last_day_iso h (nth 0 parts "undefined") (nth 1 parts "undefined"))
        as [e | iso] eqn:I.
      * eapply MC_invalid_date; eassumption.
      * match goal with |- context [pool_query h ?q ?p] =>
          destruct (pool_query h q p) as [e | rows] eqn:Q end.
        -- eapply MC_query_fail; eassumption.
        -- eapply MC_ok; eassumption.
Qed.

Lemma split_method_inr what sep q parts :
  split_method what sep q = inr parts ->
  exists s, q = Some (QStr s) /\ parts = split sep s.
Proof.
  destruct q as [[s | |] |]; simpl; try discriminate.
  intros H. inversion H. eauto.
Qed.



Lemma month_re_inv s :
  month_re s = true ->
  exists y4 m2,
    s = (y4 ++ "-" ++ m2)%string
    /\ String.length y4 = 4%nat /\ String.length m2 = 2%nat
    /\ all_digits y4 = true /\ all_digits m2 = true
    /\ String.substring 0 4 s = y4 /\ String.substring 5 2 s = m2
    /\ split "-" s = [y4; m2].
Proof.
  destruct s as [| a [| b [| c [| d [| sep [| e [| f [| ? ?]]]]]]]];
    simpl; try discriminate.
  intros H.
  repeat match type of H with
         | (_ && _)%bool = true =>
             let H' := fresh "D" in
             apply andb_true_iff in H; destruct H as [H H']
         end.
  apply Ascii.eqb_eq in D1. subst sep.
  destruct (is_digit_spec a H) as (_ & _ & Ea & _).
  destruct (is_digit_spec b D4) as (_ & _ & Eb & _).
  destruct (is_digit_spec c D3) as (_ & _ & Ec & _).
  destruct (is_digit_spec d D2) as (_ & _ & Ed & _).
  destruct (is_digit_spec e D0) as (_ & _ & Ee & _).
  destruct (is_digit_spec f D) as (_ & _ & Ef & _).
  exists (String a (String b (String c (String d "")))), (String e (String f "")).
  simpl. rewrite H, D4, D3, D2, D0, D, Ea, Eb, Ec, Ed, Ee, Ef.
  repeat split; reflexivity.
Qed.

Lemma bad_month_iff req :
  bad_month req = true
  <-> assoc "month" (query req) = None
      \/ month_re (toString (assoc "month" (query req))) = false.
Proof.
  unfold bad_month. destruct (assoc "month" (query req)) as [[s | items | fields] |];
    cbn [qs_truthy negb orb toString].
  - destruct s as [| c r]; cbn.
    + split; auto.
    + rewrite negb_true_iff. split; [auto | intros [D | E]; [discriminate D | exact E]].
  - rewrite negb_true_iff. split; [auto | intros [D | E]; [discriminate D | exact E]].
  - rewrite negb_true_iff. split; [auto | intros [D | E]; [discriminate D | exact E]].
  - split; auto.
Qed.

Lemma good_month_string req s :
  assoc "month" (query req) = Some (QStr s) -> month_re s = true ->
  bad_month req = false.
Proof.
  intros M R. destruct (bad_month req) eqn:B; [|reflexivity].
  apply bad_month_iff in B. rewrite M in B. cbn [toString qs_toString] in B.
  destruct B; congruence.
Qed.

Lemma branch_filter_early b vars r :
  branch_filter b vars = inl r <->
  r = invalid_branch /\ qs_truthy b = true /\ parseInt10 (toString b) = None.
Proof.
  unfold branch_filter. destruct vars as [[cq eq] ps].
  destruct (qs_truthy b); [|split; [discriminate | intros (_ & D & _); discriminate D]].
  destruct (parseInt10 (toString b)).
  - split; [discriminate | intros (_ & _ & D); discriminate D].
  - split; [intros H; inversion H; auto | intros (-> & _); reflexivity].
Qed.

Lemma last_day_iso_defined h s :
  tz_bounded h -> month_re s = true ->
  exists y4 m2 iso,
    split "-" s = [y4; m2] /\ last_day_iso h y4 m2 = inr iso.
Proof.
  intros Tz R.
  destruct (month_re_inv s R) as (y4 & m2 & _ & Ly & Lm & Dy & Dm & _ & _ & Sp).
  exists y4, m2. unfold last_day_iso.
  rewrite !toNumber_digits by (try assumption; intros ->; discriminate).
  pose proof (digits_value_bounds y4 0 Dy ltac:(lia)) as By.
  pose proof (digits_value_bounds m2 0 Dm ltac:(lia)) as Bm.
  rewrite Ly in By. rewrite Lm in Bm.
  change (10 ^ Z.of_nat 4)%Z with 10000%Z in By.
  change (10 ^ Z.of_nat 2)%Z with 100%Z in Bm.
  destruct (construct_valid (LocalTZA h) (digits_value 0 y4) (digits_value 0 m2)
              Tz ltac:(lia) ltac:(lia)) as (t & C).
  rewrite C. cbn [toISOString]. eauto.
Qed.

Lemma month_range h s :
  behind_utc h -> month_re s = true ->
  (100 <= denoted_year s)%Z -> (1 <= denoted_month s <= 12)%Z ->
  exists y4 m2 iso,
    split "-" s = [y4; m2]
    /\ last_day_iso h y4 m2 = inr iso
    /\ y4 ++ "-" ++ m2 ++ "-01" = s ++ "-01"
    /\ nth 0 (split "T" iso) "undefined" = last_day s
    /\ slice0 10 iso = last_day s.
Proof.
  intros Tz R Hy Hm.
  destruct (month_re_inv s R) as (y4 & m2 & E & Ly & Lm & Dy & Dm & Sy & Sm & Sp).
  assert (Ey : denoted_year s = digits_value 0 y4) by (unfold denoted_year; now rewrite Sy).
  assert (Em : denoted_month s = digits_value 0 m2) by (unfold denoted_month; now rewrite Sm).
  rewrite Ey in Hy. rewrite Em in Hm.
  destruct (iso_of_last_day (LocalTZA h) y4 m2 Dy Ly Dm Lm Hy Hm Tz) as (rest & I).
  unfold last_day. rewrite Ey, Em.
  set (dd := pad_digits 2 (days_in_month (digits_value 0 y4) (digits_value 0 m2))) in *.
  assert (A : y4 ++ "-" ++ m2 ++ "-" ++ dd = s ++ "-" ++ dd).
  { rewrite E. now rewrite !append_assoc. }
  rewrite A in I.
  exists y4, m2, ((s ++ "-" ++ dd) ++ String "T" rest).
  split; [exact Sp|]. split; [exact I|].
  split; [rewrite E; now rewrite !append_assoc|].
  apply iso_date_part.
  - rewrite E, !free_of_app. subst dd.
    rewrite (all_digits_free_T y4 Dy), (all_digits_free_T m2 Dm), pad_digits_free_T.
    reflexivity.
  - rewrite E, !length_app. subst dd. rewrite pad_digits_length, Ly, Lm. reflexivity.
Qed.

Lemma branch_filter_extends b cq0 eq0 ps0 cq eq ps :
  branch_filter b (cq0, eq0, ps0) = inr (cq, eq, ps) ->
  (exists suffix, cq = cq0 ++ suffix /\ eq = eq0 ++ suffix)
  /\ exists extra, ps = (ps0 ++ extra)%list.
Proof.
  unfold branch_filter. destruct (qs_truthy b).
  - destruct (parseInt10 (toString b)); [|discriminate].
    intros H. inversion H. split; eauto.
  - intros H. inversion H. subst. split.
    + exists "". now rewrite !append_nil_r.
    + exists []. now rewrite app_nil_r.
Qed.

End ReportsFacts.

(** ** The routes *)

Module AppFacts.
Import Js Express JsFacts JsDate DateFacts Auth AuthFacts Reports ReportsFacts.
Import App Examples.

(** What a report route does, given what its middleware does. *)
Lemma report_served h rt req :
  is_report rt ->
  (exists r, checkAdminOrStaff req = Responded r
             /\ serve h rt req = mkResult r (initial req))
  \/ (checkAdminOrStaff req = Next
      /\ ((rt = GET_reports_profit_loss
           /\ profit_loss_run h req (serve h rt req))
          \/ (rt = GET_reports_monthly_collections
              /\ monthly_collections_run h req (serve h rt req)))).
Proof.
  intros R.
  destruct (checkAdminOrStaff_cases req) as [(_ & E) | [(_ & _ & E) | (_ & _ & _ & E)]].
  - left. eexists. split; [exact E|].
    destruct R as [-> | ->]; unfold serve, guarded; now rewrite E.
  - right. split; [exact E|].
    destruct R as [-> | ->]; unfold serve, guarded; rewrite E.
    + left. split; [reflexivity | apply profit_loss_total].
    + right. split; [reflexivity | apply monthly_collections_total].
  - left. eexists. split; [exact E|].
    destruct R as [-> | ->]; unfold serve, guarded; now rewrite E.
Qed.

(** *** Who may run a report *)

(** C2: GET /reports/profit-loss and GET /reports/monthly-collections
    answer 401 when the session has no user and 403 when the user's role is
    neither ['admin'] nor ['staff'], without sending any query; a query is
    sent only for a user whose role is ['admin'] or ['staff']. *)
Theorem reports_require_admin_or_staff h rt req :
  is_report rt ->
  let u := session_user req in
  let r := serve h rt req in
  (truthy u = false ->
   response r = res_status_json 401 (message_body "Unauthorized - Please log in")
   /\ queries (world r) = [])
  /\ (truthy u = true ->
      get u "role" <> VStr "admin" -> get u "role" <> VStr "staff" ->
      response r = res_status_json 403
                     (message_body "Forbidden: Admin or Staff access required")
      /\ queries (world r) = [])
  /\ (queries (world r) <> [] ->
      truthy u = true /\ (get u "role" = VStr "admin" \/ get u "role" = VStr "staff")).
Proof.
  intros R u r.
  destruct (checkAdminOrStaff_cases req) as [(T & E) | [(T & A & E) | (T & NA & NS & E)]];
    fold u in T.
  - assert (S : r = mkResult (res_status_json 401
                     (message_body "Unauthorized - Please log in")) (initial req)).
    { subst r. destruct R as [-> | ->]; unfold serve, guarded; now rewrite E. }
    rewrite S. cbn [response world queries initial].
    repeat split; trivial; try congruence.
  - fold u in A. split; [congruence|]. split; [|auto].
    intros _ NA NS. destruct A; contradiction.
  - fold u in NA, NS.
    assert (S : r = mkResult (res_status_json 403
                     (message_body "Forbidden: Admin or Staff access required"))
                     (initial req)).
    { subst r. destruct R as [-> | ->]; unfold serve, guarded; now rewrite E. }
    rewrite S. cbn [response world queries initial].
    repeat split; trivial; try congruence.
Qed.

Lemma reports_require_admin_or_staff_witness :
  status (response (serve quiet_host GET_reports_profit_loss anonymous)) = 401%Z.
Proof.
  destruct (reports_require_admin_or_staff quiet_host GET_reports_profit_loss
              anonymous (or_introl eq_refl)) as [H _].
  destruct (H eq_refl) as [E _]. rewrite E. reflexivity.
Defined.

(** *** The body of a profit-and-loss report *)



(** *** Failures *)

Lemma failure_message code msg :
  In code [400; 401; 403; 500]%Z ->
  is_failure (res_status_json code (message_body msg)).
Proof. intros H. split; [exact H|]. exists (message_body msg), msg. now split. Qed.

Lemma failure_server_error err : is_failure (server_error err).
Proof.
  split; [simpl; tauto|].
  eexists _, _. split; reflexivity.
Qed.

Ltac failure :=
  first [ apply failure_server_error
        | apply failure_message; simpl; tauto
        | split; [simpl; tauto | eexists _, _; split; reflexivity] ].

Lemma report_failure h rt req :
  is_report rt ->
  status (response (serve h rt req)) <> 200%Z ->
  is_failure (response (serve h rt req)).
Proof.
  intros R NOK.
  destruct (report_served h rt req R) as [(r & E & S) | (_ & [(_ & Run) | (_ & Run)])].
  - rewrite S. cbn [response].
    destruct (checkAdminOrStaff_cases req) as [(_ & E') | [(_ & _ & E') | (_ & _ & _ & E')]];
      rewrite E' in E; inversion E; subst r; failure.
  - destruct Run as [G | err G S | parts err G S I | parts iso G S I B
                     | parts iso cq eq ps r G S I B Q]; cbn [response]; try failure.
    destruct Q; cbn [response] in *;
      first [failure | exfalso; apply NOK; reflexivity].
  - destruct Run; cbn [response] in *;
      first [failure | exfalso; apply NOK; reflexivity].
Qed.

Lemma login_failure h req :
  status (response (serve h POST_auth_login req)) <> 200%Z ->
  is_failure (response (serve h POST_auth_login req)).
Proof.
  intros NOK. unfold serve in *.
  destruct (login_total h req); cbn [response] in *;
    first [failure | exfalso; apply NOK; reflexivity].
Qed.

(** X31: for a request that carries a session, on each of the five
    routes, a response whose status is not 200 has status 400, 401, 403 or
    500 and a JSON body with a string field [message]. *)
Theorem failures_carry_message h rt req :
  status (response (serve h rt req)) <> 200%Z ->
  In (status (response (serve h rt req))) [400; 401; 403; 500]%Z
  /\ exists v msg,
       body (response (serve h rt req)) = Json v /\ get v "message" = VStr msg.
Proof.
  intros NOK. change (is_failure (response (serve h rt req))).
  destruct rt.
  - apply report_failure; [left; reflexivity | exact NOK].
  - apply report_failure; [right; reflexivity | exact NOK].
  - apply login_failure. exact NOK.
  - revert NOK. unfold serve, logout. reduce_run.
    cbv beta iota zeta delta [session_destroy].
    destruct (store_destroy h); cbn [response status]; intros NOK;
      first [failure | exfalso; apply NOK; reflexivity].
  - revert NOK. unfold serve, status_route. reduce_run.
    destruct (truthy (session_user req)); cbn [response status]; intros NOK;
      exfalso; apply NOK; reflexivity.
Qed.

Lemma failures_carry_message_witness :
  is_failure (response (serve quiet_host GET_reports_profit_loss anonymous)).
Proof.
  refine (failures_carry_message quiet_host GET_reports_profit_loss anonymous _).
  vm_compute. discriminate.
Defined.



(** *** The session *)





(** *** Bad requests *)

(** C4, as the code has it: for a request the middleware let through, on
    a host less than a day away from UTC, GET /reports/profit-loss answers
    400 "Invalid month format, use YYYY-MM" exactly when [month] is absent
    or its string form does not match the format, answers 400 "Invalid
    branch ID" exactly when [month] is a string that matches, [branchId] is
    truthy (present and not the empty string) and [parseInt(branchId, 10)]
    is NaN, and answers 400 in no other case. *)
Theorem profit_loss_bad_request h req :
  tz_bounded h ->
  checkAdminOrStaff req = Next ->
  let month := assoc "month" (query req) in
  let branchId := assoc "branchId" (query req) in
  let r := response (serve h GET_reports_profit_loss req) in
  (r = invalid_month <-> month = None \/ month_re (toString month) = false)
  /\ (r = invalid_branch <->
      (exists s, month = Some (QStr s) /\ month_re s = true)
      /\ qs_truthy branchId = true
      /\ parseInt10 (toString branchId) = None)
  /\ (status r = 400%Z -> r = invalid_month \/ r = invalid_branch).
Proof.
  intros Tz Mw month branchId r.
  assert (Run : profit_loss_run h req (serve h GET_reports_profit_loss req)).
  { unfold serve, guarded. rewrite Mw. apply profit_loss_total. }
  subst r month branchId.
  destruct Run as [G | err G S | parts err G S I | parts iso G S I B
                   | parts iso cq eq ps r G S I B Q]; cbn [response].
  - (* invalid month *)
    pose proof (proj1 (bad_month_iff req) G) as G'.
    split; [tauto|]. split; [|auto].
    split; [discriminate|].
    intros ((s & M & R) & _). pose proof (good_month_string req s M R). congruence.
  - (* month is not a string *)
    split; [split; [discriminate | intros C; apply bad_month_iff in C; congruence]|].
    split; [|discriminate].
    split; [discriminate|].
    intros ((s & M & R) & _). rewrite M in S. discriminate S.
  - (* the date is invalid: excluded by the bound on the time zone *)
    exfalso. destruct (split_method_inr _ _ _ _ S) as (s & M & ->).
    assert (R : month_re s = true).
    { destruct (month_re s) eqn:R; [reflexivity|].
      assert (C : bad_month req = true)
        by (apply bad_month_iff; right; rewrite M; exact R).
      congruence. }
    destruct (last_day_iso_defined h s Tz R) as (y4 & m2 & iso & Sp & L).
    rewrite Sp in I. cbn [nth] in I. congruence.
  - (* invalid branch id *)
    apply branch_filter_early in B. destruct B as (_ & T & P).
    destruct (split_method_inr _ _ _ _ S) as (s & M & _).
    assert (R : month_re s = true).
    { destruct (month_re s) eqn:R; [reflexivity|].
      assert (C : bad_month req = true)
        by (apply bad_month_iff; right; rewrite M; exact R).
      congruence. }
    split; [split; [discriminate | intros C; apply bad_month_iff in C; congruence]|].
    split; [|auto].
    split; [|reflexivity]. intros _. eauto.
  - (* the queries were sent *)
    assert (NB : ~ (qs_truthy (assoc "branchId" (query req)) = true
                    /\ parseInt10 (toString (assoc "branchId" (query req))) = None)).
    { intros (T & P).
      assert (E : branch_filter (assoc "branchId" (query req))
                    (collectionsQuery0, expensesQuery0,
                     [PStr (nth 0 parts "undefined" ++ "-"
                            ++ nth 1 parts "undefined" ++ "-01");
                      PStr (nth 0 (split "T" iso) "undefined")])
                  = inl invalid_branch)
        by (apply branch_filter_early; auto).
      congruence. }
    destruct Q; cbn [response];
      (split; [split; [discriminate | intros C; apply bad_month_iff in C; congruence]|]);
      (split; [split; [discriminate | intros (_ & T & P); exfalso; auto]
              | discriminate]).
Qed.

(** C4, as stated, fails: [?branchId=] is present and is not a number, and
    the report is computed all the same. *)
Lemma empty_branch_is_not_rejected :
  checkAdminOrStaff empty_branch = Next
  /\ status (response (serve demo_host GET_reports_profit_loss empty_branch))
     = 200%Z
  /\ ~ bad_request_when_present demo_host empty_branch.
Proof.
  split; [reflexivity|]. split; [reflexivity|].
  intros (_ & [_ H] & _).
  assert (E : response (serve demo_host GET_reports_profit_loss empty_branch)
              = invalid_branch).
  { apply H. repeat split; try discriminate; reflexivity. }
  vm_compute in E. discriminate E.
Qed.

Lemma profit_loss_bad_request_witness :
  response (serve demo_host GET_reports_profit_loss letter_branch) = invalid_branch.
Proof.
  refine (proj2 (proj1 (proj2 (profit_loss_bad_request demo_host letter_branch
                                 _ eq_refl))) _).
  - intros t. vm_compute. discriminate.
  - split; [exists "2024-02"; split; reflexivity | split; reflexivity].
Defined.

(** *** The date range *)

(** C3, as the code has it: for a request the middleware let through
    whose [month] is a string [YYYY-MM] with [MM] from 01 to 12 and [YYYY]
    from 0100 on, on a host whose local time is UTC or behind it, every
    query either report sends is one of the three dated queries and binds
    [$1] to [YYYY-MM-01] and [$2] to the last calendar day of that month;
    and a query is sent, unless the branch id is rejected. *)
Theorem report_covers_month h rt req s :
  is_report rt ->
  checkAdminOrStaff req = Next ->
  assoc "month" (query req) = Some (QStr s) ->
  month_re s = true ->
  (100 <= denoted_year s)%Z ->
  (1 <= denoted_month s <= 12)%Z ->
  behind_utc h ->
  (forall sql ps,
      In (sql, ps) (queries (world (serve h rt req))) ->
      dated_query sql /\ covers_month s ps)
  /\ (queries (world (serve h rt req)) <> []
      \/ response (serve h rt req) = invalid_branch).
Proof.
  intros R Mw M Re Hy Hm Tz.
  destruct (month_range h s Tz Re Hy Hm) as (y4 & m2 & iso & Sp & I & St & E1 & E2).
  pose proof (good_month_string req s M Re) as G.
  assert (SM : split_method "month" "-" (assoc "month" (query req)) = inr [y4; m2]).
  { rewrite M. cbn [split_method]. now rewrite Sp. }
  destruct (report_served h rt req R) as [(r & E & _) | (_ & [(_ & Run) | (_ & Run)])];
    [congruence | | ].
  - destruct Run as [G' | err G' S | parts err G' S I' | parts iso' G' S I' B
                     | parts iso' cq eq ps r G' S I' B Q]; try congruence.
    + rewrite SM in S. inversion S; subst parts. cbn [nth] in I'. congruence.
    + split; [intros sql ps []|]. right. reflexivity.
    + rewrite SM in S. inversion S; subst parts. cbn [nth] in I', B.
      assert (iso' = iso) by congruence. subst iso'.
      rewrite St, E1 in B.
      destruct (branch_filter_extends _ _ _ _ _ _ _ B) as ((suffix & -> & ->) & extra & ->).
      assert (C : forall sql ps,
                 In (sql, ps)
                    [(collectionsQuery0 ++ suffix,
                      ([PStr (s ++ "-01"); PStr (last_day s)] ++ extra)%list);
                     (expensesQuery0 ++ suffix,
                      ([PStr (s ++ "-01"); PStr (last_day s)] ++ extra)%list)] ->
                 dated_query sql /\ covers_month s ps).
      { intros sql ps [H | [H | []]]; inversion H; subst; split;
          try reflexivity; exists suffix; auto. }
      destruct Q; cbn [world queries after] in *;
        (split; [ | left; discriminate]);
        intros sql ps' HIn; apply C; cbn [In] in *; tauto.
  - destruct Run as [G' | err G' S | parts err G' S I' | parts iso' err G' S I' Q
                     | parts iso' rows G' S I' Q]; try congruence.
    + rewrite SM in S. inversion S; subst parts. cbn [nth] in I'. congruence.
    + rewrite SM in S. inversion S; subst parts. cbn [nth] in *.
      assert (iso' = iso) by congruence. subst iso'. rewrite St, E2.
      cbn [world queries after]. split; [|left; discriminate].
      intros sql ps [H | []]. inversion H; subst. split; [|reflexivity].
      exists "". rewrite append_nil_r. auto.
    + rewrite SM in S. inversion S; subst parts. cbn [nth] in *.
      assert (iso' = iso) by congruence. subst iso'. rewrite St, E2.
      cbn [world queries after]. split; [|left; discriminate].
      intros sql ps [H | []]. inversion H; subst. split; [|reflexivity].
      exists "". rewrite append_nil_r. auto.
Qed.

(** C3, as stated, fails: [2024-13] passes the format check, and the
    range queried runs into January 2025. *)
Lemma month_thirteen_overruns :
  checkAdminOrStaff month_thirteen = Next
  /\ month_re "2024-13" = true
  /\ queries (world (serve demo_host GET_reports_monthly_collections
                       month_thirteen))
     = [(monthlySql, [PStr "2024-13-01"; PStr "2025-01-31"])]
  /\ ~ range_is_the_month demo_host GET_reports_monthly_collections
        month_thirteen.
Proof.
  split; [reflexivity|]. split; [reflexivity|]. split; [reflexivity|].
  intros H.
  specialize (H "2024-13" eq_refl eq_refl monthlySql
                [PStr "2024-13-01"; PStr "2025-01-31"] (or_introl eq_refl)).
  vm_compute in H. discriminate H.
Qed.

Lemma report_covers_month_witness :
  covers_month "2024-02" [PStr "2024-02-01"; PStr "2024-02-29"].
Proof.
  refine (proj2 (proj1 (report_covers_month demo_host
                          GET_reports_monthly_collections february "2024-02"
                          (or_intror eq_refl) eq_refl eq_refl eq_refl _ _ _)
                   monthlySql [PStr "2024-02-01"; PStr "2024-02-29"]
                   (or_introl eq_refl))).
  - vm_compute. discriminate.
  - split; vm_compute; discriminate.
  - intros t. split; vm_compute; [reflexivity | discriminate].
Defined.

(** East of UTC the local midnight of the last day is still the day
    before in UTC, which is the date [toISOString] prints: in India the
    range queried for January 2024 ends on the 30th. *)
Lemma east_of_utc_ends_a_day_early :
  queries (world (serve kolkata_host GET_reports_monthly_collections january))
  = [(monthlySql, [PStr "2024-01-01"; PStr "2024-01-30"])].
Proof. vm_compute. reflexivity. Qed.

End AppFacts.

(** ** The search filter of AllStudents *)

Module AllStudentsFacts.
Import AllStudents.

Lemma prefix_iff a : forall b,
  String.prefix a b = true <-> exists post, b = a ++ post.
Proof.
  induction a as [| x r IH]; intros b.
  - split; [intros _; exists b; reflexivity | intros _; destruct b; reflexivity].
  - destruct b as [| y s]; simpl.
    + split; [discriminate | intros (post & D); discriminate D].
    + destruct (ascii_dec x y) as [-> | N].
      * rewrite IH. split; intros (post & E); exists post; congruence.
      * split; [discriminate | intros (post & E); congruence].
Qed.

Lemma includes_iff hay needle :
  Js.includes hay needle = true
  <-> exists pre post, hay = pre ++ needle ++ post.
Proof.
  induction hay as [| c r IH].
  - cbn [Js.includes]. rewrite orb_false_r, prefix_iff. split.
    + intros (post & E). exists "", post. exact E.
    + intros (pre & post & E). destruct pre; simpl in E; [eauto | discriminate E].
  - cbn [Js.includes]. rewrite orb_true_iff, prefix_iff, IH. split.
    + intros [(post & E) | (pre & post & E)].
      * exists "", post. exact E.
      * exists (String c pre), post. simpl. now rewrite E.
    + intros (pre & post & E). destruct pre as [| x pre]; simpl in E.
      * left. eauto.
      * right. exists pre, post. congruence.
Qed.

(** The ASCII mapping works character by character. *)
Lemma toLowerCase_app a b :
  Js.toLowerCase (a ++ b) = Js.toLowerCase a ++ Js.toLowerCase b.
Proof. induction a; simpl; congruence. Qed.

Lemma toLowerCase_split a : forall h b,
  Js.toLowerCase h = a ++ b ->
  exists h1 h2, h = h1 ++ h2 /\ Js.toLowerCase h1 = a /\ Js.toLowerCase h2 = b.
Proof.
  induction a as [| x r IH]; intros h b E.
  - exists "", h. auto.
  - destruct h as [| c h]; simpl in E; [discriminate E|].
    inversion E as [[Ec Er]].
    destruct (IH h b Er) as (h1 & h2 & -> & L1 & L2).
    exists (String c h1), h2. simpl. rewrite L1. auto.
Qed.

Lemma includes_ci hay needle :
  Js.includes (Js.toLowerCase hay) (Js.toLowerCase needle) = true
  <-> contains_ci hay needle.
Proof.
  rewrite includes_iff. unfold contains_ci, same_letters. split.
  - intros (pre & post & E).
    destruct (toLowerCase_split pre hay _ E) as (h1 & h23 & -> & _ & E23).
    destruct (toLowerCase_split _ h23 _ E23) as (h2 & h3 & -> & E2 & _).
    exists h1, h2, h3. auto.
  - intros (pre & mid & post & -> & E).
    exists (Js.toLowerCase pre), (Js.toLowerCase post).
    now rewrite !toLowerCase_app, E.
Qed.

Lemma contains_ci_empty hay needle :
  contains_ci "" needle -> contains_ci hay needle.
Proof.
  intros (pre & mid & post & E & S).
  destruct pre; simpl in E; [|discriminate E].
  destruct mid; simpl in E; [|discriminate E].
  exists "", "", hay. auto.
Qed.

Lemma matches_iff searchTerm student :
  matches searchTerm student = true
  <-> contains_ci (name student) searchTerm
      \/ contains_ci (phone student) searchTerm
      \/ exists r, registrationNumber student = Some r /\ contains_ci r searchTerm.
Proof.
  unfold matches. rewrite !orb_true_iff, !includes_ci.
  destruct (registrationNumber student) as [r |].
  - rewrite andb_true_iff, includes_ci, negb_true_iff. split.
    + intros [[N | P] | (_ & R)]; eauto.
    + intros [N | [P | (r' & E & R)]]; auto.
      inversion E; subst r'.
      destruct (String.eqb r "") eqn:Z; [|auto].
      apply String.eqb_eq in Z. subst r.
      left. left. now apply contains_ci_empty.
  - split.
    + intros [[N | P] | D]; [auto | auto | discriminate D].
    + intros [N | [P | (r & D & _)]]; [auto | auto | discriminate D].
Qed.

Lemma filter_Subseq {A : Type} (f : A -> bool) (l : list A) : Subseq (filter f l) l.
Proof.
  induction l as [| x l IH]; simpl.
  - constructor.
  - destruct (f x); now constructor.
Qed.

Lemma nat_of_lower_char c :
  nat_of_ascii (Js.lower_char c)
  = if (65 <=? nat_of_ascii c)%nat && (nat_of_ascii c <=? 90)%nat
    then (nat_of_ascii c + 32)%nat else nat_of_ascii c.
Proof.
  unfold Js.lower_char.
  destruct ((65 <=? nat_of_ascii c)%nat && (nat_of_ascii c <=? 90)%nat) eqn:U;
    [|reflexivity].
  apply nat_ascii_embedding.
  apply andb_true_iff in U. destruct U as [_ U]. apply Nat.leb_le in U. lia.
Qed.

Lemma nat_of_ascii_inj c d : nat_of_ascii c = nat_of_ascii d -> c = d.
Proof.
  intros H. rewrite <- (ascii_nat_embedding c), <- (ascii_nat_embedding d).
  now rewrite H.
Qed.

Lemma lower_char_eq c d :
  Js.lower_char c = Js.lower_char d <-> same_char_up_to_case c d.
Proof.
  unfold same_char_up_to_case, capital_of.
  assert (I : c = d <-> nat_of_ascii c = nat_of_ascii d)
    by (split; [congruence | apply nat_of_ascii_inj]).
  assert (E : Js.lower_char c = Js.lower_char d
              <-> nat_of_ascii (Js.lower_char c) = nat_of_ascii (Js.lower_char d))
    by (split; [congruence | apply nat_of_ascii_inj]).
  rewrite E, I, !nat_of_lower_char.
  generalize (nat_of_ascii c) (nat_of_ascii d). intros n m.
  destruct (Nat.leb_spec 65 n), (Nat.leb_spec n 90), (Nat.leb_spec 65 m),
    (Nat.leb_spec m 90); cbn [andb]; lia.
Qed.

Lemma toLowerCase_eq a : forall b,
  Js.toLowerCase a = Js.toLowerCase b <-> same_up_to_case a b.
Proof.
  induction a as [| c a IH]; intros [| d b]; simpl; try tauto;
    try (split; [discriminate | contradiction]).
  rewrite <- IH, <- lower_char_eq. split.
  - intros H. inversion H. auto.
  - intros [-> ->]. reflexivity.
Qed.

Lemma includes_up_to_case hay needle :
  Js.includes (Js.toLowerCase hay) (Js.toLowerCase needle) = true
  <-> occurs_up_to_case hay needle.
Proof.
  rewrite includes_ci. unfold contains_ci, same_letters, occurs_up_to_case.
  split; intros (pre & mid & post & E & S); exists pre, mid, post;
    (split; [exact E|]); now apply toLowerCase_eq.
Qed.

Lemma includes_nil needle : Js.includes "" needle = true -> needle = "".
Proof.
  intros H. apply includes_iff in H. destruct H as (pre & post & E).
  destruct pre; [|discriminate E]. destruct needle; [reflexivity | discriminate E].
Qed.

Lemma includes_anything hay : Js.includes hay "" = true.
Proof. destruct hay; reflexivity. Qed.

Lemma matches_with_iff toLowerCase searchTerm student :
  lowers_ascii toLowerCase ->
  matches_with toLowerCase searchTerm student = true
  <-> Js.includes (toLowerCase (name student)) (toLowerCase searchTerm) = true
      \/ Js.includes (toLowerCase (phone student)) (toLowerCase searchTerm) = true
      \/ exists r, registrationNumber student = Some r
                   /\ Js.includes (toLowerCase r) (toLowerCase searchTerm) = true.
Proof.
  intros L. unfold matches_with. rewrite !orb_true_iff.
  destruct (registrationNumber student) as [r |].
  - rewrite andb_true_iff, negb_true_iff. split.
    + intros [[N | P] | (_ & R)]; eauto.
    + intros [N | [P | (r' & E & R)]]; auto.
      inversion E; subst r'.
      destruct (String.eqb r "") eqn:Z; [|auto].
      apply String.eqb_eq in Z. subst r.
      rewrite (L "" eq_refl) in R. apply includes_nil in R.
      left. left. rewrite R. apply includes_anything.
  - split.
    + intros [[N | P] | D]; [auto | auto | discriminate D].
    + intros [N | [P | (r & D & _)]]; [auto | auto | discriminate D].
Qed.

(** C7, as the code has it: a student is in [filteredStudents] exactly
    when the student is in the sorted array and the lower-cased name, phone
    or non-null registration number includes the lower-cased search term,
    [toLowerCase] being the engine's; for text in ASCII that is: the name,
    the phone or a non-null registration number contains the search term
    up to the case of the letters; and [filteredStudents] is the sorted
    array with elements left out: none added, none repeated, none moved. *)
Theorem filteredStudents_lower_case (toLowerCase : string -> string)
    (sortedStudents : list Student) (searchTerm : string) :
  lowers_ascii toLowerCase ->
  (forall student,
      In student (filteredStudents_with toLowerCase sortedStudents searchTerm)
      <-> In student sortedStudents
          /\ (Js.includes (toLowerCase (name student)) (toLowerCase searchTerm) = true
              \/ Js.includes (toLowerCase (phone student)) (toLowerCase searchTerm)
                 = true
              \/ exists r, registrationNumber student = Some r
                           /\ Js.includes (toLowerCase r) (toLowerCase searchTerm)
                              = true))
  /\ (ascii_text searchTerm = true ->
      forall student,
        ascii_text (name student) = true ->
        ascii_text (phone student) = true ->
        (forall r, registrationNumber student = Some r -> ascii_text r = true) ->
        (In student (filteredStudents_with toLowerCase sortedStudents searchTerm)
         <-> In student sortedStudents
             /\ (occurs_up_to_case (name student) searchTerm
                 \/ occurs_up_to_case (phone student) searchTerm
                 \/ exists r, registrationNumber student = Some r
                              /\ occurs_up_to_case r searchTerm)))
  /\ Subseq (filteredStudents_with toLowerCase sortedStudents searchTerm)
       sortedStudents.
Proof.
  intros L.
  assert (M : forall student,
             In student (filteredStudents_with toLowerCase sortedStudents searchTerm)
             <-> In student sortedStudents
                 /\ (Js.includes (toLowerCase (name student)) (toLowerCase searchTerm)
                     = true
                     \/ Js.includes (toLowerCase (phone student))
                          (toLowerCase searchTerm) = true
                     \/ exists r, registrationNumber student = Some r
                                  /\ Js.includes (toLowerCase r)
                                       (toLowerCase searchTerm) = true)).
  { intros student. unfold filteredStudents_with.
    rewrite filter_In, (matches_with_iff _ _ _ L). reflexivity. }
  split; [exact M|]. split; [|apply filter_Subseq].
  intros At student An Ap Ar. rewrite M.
  rewrite (L _ At), (L _ An), (L _ Ap), !includes_up_to_case.
  assert (R : (exists r, registrationNumber student = Some r
                         /\ Js.includes (toLowerCase r) (Js.toLowerCase searchTerm)
                            = true)
              <-> exists r, registrationNumber student = Some r
                            /\ occurs_up_to_case r searchTerm).
  { split; intros (r & E & H); exists r; (split; [exact E|]);
      [rewrite (L _ (Ar r E)) in H | rewrite (L _ (Ar r E))];
      now apply includes_up_to_case. }
  rewrite R. reflexivity.
Qed.

Lemma filteredStudents_lower_case_witness :
  In asha (filteredStudents_with Js.toLowerCase class "SH").
Proof.
  refine (proj2 (proj1 (proj2 (filteredStudents_lower_case Js.toLowerCase class "SH"
                                 (fun s _ => eq_refl)))
                   eq_refl asha eq_refl eq_refl _) _).
  - intros r E. inversion E. reflexivity.
  - split; [left; reflexivity|].
    left. apply includes_up_to_case. reflexivity.
Defined.

(** Case folding on two examples. *)
Example sh_occurs_in_Asha : occurs_up_to_case "Asha" "SH".
Proof. apply includes_up_to_case. reflexivity. Qed.

Example hs_does_not_occur_in_Asha : ~ occurs_up_to_case "Asha" "hs".
Proof. intros H. apply includes_up_to_case in H. discriminate H. Qed.

(** The engine of the example is an engine as the theorem has it. *)
Lemma greek_lower_lowers_ascii : lowers_ascii greek_lower.
Proof.
  intros s A. unfold greek_lower.
  destruct (String.eqb s "ΝΙΚΟΣ") eqn:E1.
  { apply String.eqb_eq in E1. subst s. discriminate A. }
  destruct (String.eqb s "Σ") eqn:E2.
  { apply String.eqb_eq in E2. subst s. discriminate A. }
  reflexivity.
Qed.

(** C7, as stated, fails on text beyond ASCII: the name [ΝΙΚΟΣ] contains
    the search term [Σ] as it is, and the student is not shown, because
    the sigma that ends the name is lower-cased to the final sigma and the
    sigma of the search term to the plain one. *)
Lemma final_sigma_is_not_found :
  In nikos [nikos]
  /\ name nikos = "ΝΙΚΟ" ++ "Σ" ++ ""
  /\ occurs_up_to_case (name nikos) "Σ"
  /\ filteredStudents_with greek_lower [nikos] "Σ" = []
  /\ ~ shows_what_contains greek_lower [nikos] "Σ".
Proof.
  assert (O : occurs_up_to_case (name nikos) "Σ")
    by (apply includes_up_to_case; reflexivity).
  split; [left; reflexivity|]. split; [reflexivity|]. split; [exact O|].
  split; [reflexivity|].
  intros H. destruct (proj2 (H nikos)) as [].
  split; [left; reflexivity | left; exact O].
Qed.

(** The two ways of saying "contains, whatever the case" agree. *)
Lemma contains_ci_iff hay needle :
  contains_ci hay needle <-> occurs_up_to_case hay needle.
Proof. now rewrite <- includes_ci, includes_up_to_case. Qed.

(** With the ASCII mapping for engine the search is [filteredStudents]. *)
Lemma filteredStudents_with_ascii sortedStudents searchTerm :
  filteredStudents_with Js.toLowerCase sortedStudents searchTerm
  = filteredStudents sortedStudents searchTerm.
Proof. reflexivity. Qed.

End AllStudentsFacts.

(** ** Whole numbers as doubles: sums and differences are exact *)

Module NumberFacts.
Import JsNumber.
Local Open Scope Z_scope.

Lemma shl_S m n : shl m (S n) = xO (shl m n).
Proof. reflexivity. Qed.

Lemma shl_Z m n : Zpos (shl m n) = Zpos m * 2 ^ Z.of_nat n.
Proof.
  induction n as [| n IH].
  - simpl. lia.
  - rewrite shl_S, (Pos2Z.inj_xO (shl m n)), IH, Nat2Z.inj_succ, Z.pow_succ_r by lia.
    lia.
Qed.

Lemma shl_digits m n :
  Zpos (digits2_pos (shl m n)) = Zpos (digits2_pos m) + Z.of_nat n.
Proof.
  induction n as [| n IH].
  - simpl. lia.
  - rewrite shl_S. cbn [digits2_pos]. rewrite Pos2Z.inj_succ, IH. lia.
Qed.

Lemma Pos_iter_shl m d : Pos.iter xO m d = shl m (Pos.to_nat d).
Proof. unfold shl. now rewrite Pos2Nat.inj_iter. Qed.

Lemma digits_bounds m :
  2 ^ (Zpos (digits2_pos m) - 1) <= Zpos m < 2 ^ Zpos (digits2_pos m).
Proof.
  induction m as [m IH | m IH |]; cbn [digits2_pos].
  - rewrite Pos2Z.inj_succ, (Pos2Z.inj_xI m).
    replace (Z.succ (Zpos (digits2_pos m)) - 1) with (Z.succ (Zpos (digits2_pos m) - 1)) by lia.
    rewrite !Z.pow_succ_r by lia. lia.
  - rewrite Pos2Z.inj_succ, (Pos2Z.inj_xO m).
    replace (Z.succ (Zpos (digits2_pos m)) - 1) with (Z.succ (Zpos (digits2_pos m) - 1)) by lia.
    rewrite !Z.pow_succ_r by lia. lia.
  - simpl. lia.
Qed.

Lemma digits_le_53 c : Zpos c < 2 ^ 53 -> Zpos (digits2_pos c) <= 53.
Proof.
  intros H. destruct (Z_le_gt_dec (Zpos (digits2_pos c)) 53) as [L | G]; [exact L|].
  exfalso. pose proof (digits_bounds c) as [B _].
  assert (2 ^ 53 <= 2 ^ (Zpos (digits2_pos c) - 1)) by (apply Z.pow_le_mono_r; lia).
  lia.
Qed.

Lemma iter_pos_nat {A} (f : A -> A) p : forall x,
  iter_pos f p x = Nat.iter (Pos.to_nat p) f x.
Proof.
  induction p as [p IH | p IH |]; intros x; cbn [iter_pos].
  - rewrite !IH, Pos2Nat.inj_xI.
    replace (S (2 * Pos.to_nat p)) with (S (Pos.to_nat p + Pos.to_nat p)) by lia.
    now rewrite Nat.iter_succ_r, Nat.iter_add.
  - rewrite !IH, Pos2Nat.inj_xO.
    replace (2 * Pos.to_nat p)%nat with (Pos.to_nat p + Pos.to_nat p)%nat by lia.
    now rewrite Nat.iter_add.
  - reflexivity.
Qed.

Lemma shr_shl m n :
  Nat.iter n shr_1 (Build_shr_record (Zpos (shl m n)) false false)
  = Build_shr_record (Zpos m) false false.
Proof.
  induction n as [| n IH]; [reflexivity|].
  rewrite Nat.iter_succ_r, shl_S. cbn [shr_1 orb]. exact IH.
Qed.

Lemma fexp_53 t : -1074 <= t -> fexp prec emax (53 + t) = t.
Proof.
  intros H. unfold fexp, emin, prec, emax. rewrite Z.max_l by lia. lia.
Qed.

Lemma shr_nat mz e n :
  shr (Build_shr_record (Zpos (shl mz n)) false false) e (Z.of_nat n)
  = (Build_shr_record (Zpos mz) false false, e + Z.of_nat n).
Proof.
  destruct n as [| n].
  - cbn. now rewrite Z.add_0_r.
  - unfold shr. destruct (Z.of_nat (S n)) as [| p | p] eqn:E; try lia.
    rewrite iter_pos_nat.
    assert (H : Pos.to_nat p = S n) by lia.
    now rewrite H, shr_shl.
Qed.

(** A mantissa of 53 bits followed by [n] zero bits, at exponent [t - n],
    rounds to itself at exponent [t]. *)
Lemma round_aux_shifted mz t n :
  Zpos (digits2_pos mz) = 53 -> -1074 <= t <= 971 ->
  binary_round_aux prec emax false (Zpos (shl mz n)) (t - Z.of_nat n) loc_Exact
  = S754_finite false mz t.
Proof.
  intros D T. unfold binary_round_aux, shr_fexp.
  cbn [Zdigits2 shr_record_of_loc]. rewrite shl_digits, D.
  replace (53 + Z.of_nat n + (t - Z.of_nat n)) with (53 + t) by lia.
  rewrite fexp_53 by lia.
  replace (t - (t - Z.of_nat n)) with (Z.of_nat n) by lia.
  rewrite shr_nat. cbn [shr_m loc_of_shr_record round_nearest_even Zdigits2 shr_record_of_loc].
  rewrite D. replace (t - Z.of_nat n + Z.of_nat n) with t by lia.
  rewrite fexp_53 by lia. rewrite Z.sub_diag. cbn [shr shr_m].
  unfold prec, emax.
  destruct (Z.leb_spec t (1024 - 53)) as [L | G]; [reflexivity | lia].
Qed.

Lemma shl_shl c a b : shl (shl c a) b = shl c (b + a).
Proof. unfold shl. now rewrite Nat.iter_add. Qed.

(** An integer below 2^53, given with trailing zero bits at a negative
    exponent, normalizes to its canonical representation: no rounding. *)
Lemma normalize_exact M e c :
  e <= 0 -> Zpos M = Zpos c * 2 ^ (- e) -> Zpos c < 2 ^ 53 ->
  binary_normalize prec emax (Zpos M) e false = canon c.
Proof.
  intros He HM Hc.
  pose proof (digits_le_53 c Hc) as Dc.
  assert (EM : M = shl c (Z.to_nat (- e))).
  { apply Pos2Z.inj. rewrite HM, shl_Z, Z2Nat.id by lia. reflexivity. }
  assert (DM : Zpos (digits2_pos M) = Zpos (digits2_pos c) + - e).
  { rewrite EM, shl_digits, Z2Nat.id by lia. reflexivity. }
  unfold canon, binary_normalize, binary_round.
  rewrite DM.
  remember (Zpos (digits2_pos c)) as dc eqn:Hdc.
  assert (D1 : 1 <= dc) by (subst dc; lia).
  remember (shl c (Z.to_nat (53 - dc))) as mz eqn:Hmz.
  assert (Dmz : Zpos (digits2_pos mz) = 53).
  { subst mz. rewrite shl_digits, Z2Nat.id by lia. lia. }
  replace (dc + - e + e) with (53 + (dc - 53)) by lia.
  rewrite fexp_53 by lia.
  unfold shl_align.
  destruct (dc - 53 - e) as [| p | d] eqn:E.
  - assert (M = shl mz 0) as ->.
    { change (shl mz 0) with mz. rewrite EM, Hmz. f_equal. lia. }
    replace e with (dc - 53 - Z.of_nat 0) by (change (Z.of_nat 0) with 0; lia).
    apply round_aux_shifted; lia.
  - assert (M = shl mz (Pos.to_nat p)) as ->.
    { rewrite EM, Hmz, shl_shl. f_equal. lia. }
    replace e with (dc - 53 - Z.of_nat (Pos.to_nat p)) by lia.
    apply round_aux_shifted; lia.
  - assert (Pos.iter xO M d = shl mz 0) as ->.
    { change (shl mz 0) with mz. rewrite Pos_iter_shl, EM, shl_shl, Hmz.
      f_equal. lia. }
    replace (dc - 53) with (dc - 53 - Z.of_nat 0) at 1
      by (change (Z.of_nat 0) with 0; lia).
    apply round_aux_shifted; lia.
Qed.

Lemma int_float_zero : Prim2SF (int_float 0) = S754_zero false.
Proof. reflexivity. Qed.

Lemma int_float_pos c :
  Zpos c < 2 ^ 53 -> Prim2SF (int_float (Zpos c)) = canon c.
Proof.
  intros H. unfold int_float. rewrite of_uint63_spec, Uint63.of_Z_spec.
  rewrite Z.mod_small.
  - apply normalize_exact; [lia | cbn; lia | exact H].
  - split; [lia|]. eapply Z.lt_trans; [exact H | reflexivity].
Qed.

Lemma shl_align_fst m e e' :
  e' <= e -> Zpos (fst (shl_align m e e')) = Zpos m * 2 ^ (e - e').
Proof.
  intros H. unfold shl_align. destruct (e' - e) as [| p | d] eqn:E; try lia.
  - cbn [fst]. replace (e - e') with 0 by lia. lia.
  - cbn [fst]. rewrite Pos_iter_shl, shl_Z. f_equal. f_equal. lia.
Qed.

Lemma canon_Z c :
  Zpos c < 2 ^ 53 ->
  exists m t, canon c = S754_finite false m t
              /\ t <= 0 /\ Zpos m = Zpos c * 2 ^ (- t).
Proof.
  intros H. pose proof (digits_le_53 c H). eexists _, _. split; [reflexivity|].
  split; [lia|]. rewrite shl_Z, Z2Nat.id by lia. f_equal. f_equal. lia.
Qed.

Lemma pow2_split x y : 0 <= x -> 0 <= y -> 2 ^ x * 2 ^ y = 2 ^ (x + y).
Proof. intros. now rewrite Z.pow_add_r. Qed.

Lemma SFadd_canon a b :
  Zpos a + Zpos b < 2 ^ 53 ->
  SF64add (canon a) (canon b) = canon (a + b).
Proof.
  intros H.
  destruct (canon_Z a ltac:(lia)) as (ma & ta & -> & Ta & Ma).
  destruct (canon_Z b ltac:(lia)) as (mb & tb & -> & Tb & Mb).
  unfold SF64add, SFadd. cbn [cond_Zopp].
  set (ez := Z.min ta tb).
  assert (Ea : ez <= ta) by (subst ez; lia).
  assert (Eb : ez <= tb) by (subst ez; lia).
  pose proof (shl_align_fst ma ta ez Ea) as Fa.
  pose proof (shl_align_fst mb tb ez Eb) as Fb.
  change (Zpos (fst (shl_align ma ta ez)) + Zpos (fst (shl_align mb tb ez)))
    with (Zpos (fst (shl_align ma ta ez) + fst (shl_align mb tb ez))).
  apply normalize_exact; [lia | | rewrite Pos2Z.inj_add; exact H].
  rewrite !Pos2Z.inj_add, Fa, Fb, Ma, Mb, <- !Z.mul_assoc, !pow2_split by lia.
  replace (- ta + (ta - ez)) with (- ez) by lia.
  replace (- tb + (tb - ez)) with (- ez) by lia. lia.
Qed.

Lemma SFsub_canon a b :
  Zpos b < Zpos a -> Zpos a < 2 ^ 53 ->
  SF64sub (canon a) (canon b) = canon (a - b).
Proof.
  intros L H.
  destruct (canon_Z a ltac:(lia)) as (ma & ta & -> & Ta & Ma).
  destruct (canon_Z b ltac:(lia)) as (mb & tb & -> & Tb & Mb).
  unfold SF64sub, SFsub. cbn [cond_Zopp].
  set (ez := Z.min ta tb).
  assert (Ea : ez <= ta) by (subst ez; lia).
  assert (Eb : ez <= tb) by (subst ez; lia).
  pose proof (shl_align_fst ma ta ez Ea) as Fa.
  pose proof (shl_align_fst mb tb ez Eb) as Fb.
  assert (V : Zpos (fst (shl_align ma ta ez)) - Zpos (fst (shl_align mb tb ez))
              = Zpos (a - b) * 2 ^ (- ez)).
  { rewrite Fa, Fb, Ma, Mb, <- !Z.mul_assoc, !pow2_split by lia.
    replace (- ta + (ta - ez)) with (- ez) by lia.
    replace (- tb + (tb - ez)) with (- ez) by lia.
    rewrite Pos2Z.inj_sub by lia. lia. }
  assert (P : 0 < 2 ^ (- ez)) by (apply Z.pow_pos_nonneg; lia).
  destruct (Zpos (fst (shl_align ma ta ez)) - Zpos (fst (shl_align mb tb ez)))
    as [| M | M] eqn:E; try lia.
  apply normalize_exact; [lia | exact V | rewrite Pos2Z.inj_sub by lia; lia].
Qed.

Lemma SFsub_canon_same a :
  Zpos a < 2 ^ 53 -> SF64sub (canon a) (canon a) = S754_zero false.
Proof.
  intros H. unfold canon, SF64sub, SFsub. cbn [cond_Zopp].
  now rewrite Z.sub_diag.
Qed.

Lemma int_float_add a b :
  0 <= a -> 0 <= b -> a + b < 2 ^ 53 ->
  (int_float a + int_float b)%float = int_float (a + b).
Proof.
  intros Ha Hb H. apply Prim2SF_inj. rewrite add_spec.
  destruct a as [| a | a], b as [| b | b]; try lia.
  - reflexivity.
  - rewrite Z.add_0_l, int_float_zero, int_float_pos by lia. reflexivity.
  - rewrite Z.add_0_r, int_float_zero, int_float_pos by lia. reflexivity.
  - change (Zpos a + Zpos b) with (Zpos (a + b)).
    rewrite !int_float_pos by lia. now apply SFadd_canon.
Qed.

Lemma int_float_sub a b :
  0 <= b <= a -> a < 2 ^ 53 ->
  (int_float a - int_float b)%float = int_float (a - b).
Proof.
  intros Hb H. apply Prim2SF_inj. rewrite sub_spec.
  destruct a as [| a | a], b as [| b | b]; try lia.
  - reflexivity.
  - rewrite Z.sub_0_r, int_float_zero, int_float_pos by lia. reflexivity.
  - destruct (Z.eq_dec (Zpos a) (Zpos b)) as [E | N].
    + inversion E; subst b. rewrite Z.sub_diag, int_float_zero, int_float_pos by lia.
      now apply SFsub_canon_same.
    + replace (Zpos a - Zpos b) with (Zpos (a - b)) by (rewrite Pos2Z.inj_sub; lia).
      rewrite !int_float_pos by (try rewrite Pos2Z.inj_sub; lia).
      apply SFsub_canon; lia.
Qed.

(** Adding [p] to one whole amount and taking it from another keeps
    their sum, to the bit. *)
Lemma whole_sum_preserved a d p :
  0 <= a -> 0 < p <= d -> a + d < 2 ^ 53 ->
  ((int_float a + int_float p) + (int_float d - int_float p))%float
  = (int_float a + int_float d)%float.
Proof.
  intros Ha Hp H.
  rewrite (int_float_add a p), (int_float_sub d p), int_float_add, (int_float_add a d)
    by lia.
  f_equal. lia.
Qed.

(** Below 2^53 the double nearest to an integer is the integer. *)
Lemma nearest_int_float n :
  0 <= n < 2 ^ 53 -> Js.nearest n = int_float n.
Proof.
  intros [Lo Hi]. destruct n as [| c | c]; [reflexivity | | lia].
  unfold Js.nearest.
  rewrite (normalize_exact c 0 c) by (try exact Hi; cbn; lia).
  rewrite <- (int_float_pos c Hi). apply SF2Prim_Prim2SF.
Qed.

End NumberFacts.

(** ** The optimistic payment update of CollectionDue *)

Module CollectionDueFacts.
Import CollectionDue.

(** C9, as the code has it: the updated list has the entries of the old
    one, position by position; an entry whose [historyId] differs from the
    selected one is unchanged; in an entry whose [historyId] matches,
    [amountPaid] is the double [amountPaid + p], [dueAmount] is the double
    [dueAmount - p], the field of the chosen method is [field + p], and the
    other method's field and every other field are unchanged; and when the
    entry's amounts and [p] are whole numbers, the sum
    [amountPaid + dueAmount] is unchanged. *)
Theorem optimistic_update_frame (collections : list Collection)
    (selected : Collection) (meth : method) (p : float) :
  let updated := updatedCollections collections selected meth p in
  List.length updated = List.length collections
  /\ (forall i c,
         nth_error collections i = Some c ->
         exists c', nth_error updated i = Some c'
                    /\ entry_updated selected meth p c c')
  /\ (forall i c c' a d n,
         nth_error collections i = Some c ->
         nth_error updated i = Some c' ->
         PrimFloat.eqb (historyId c) (historyId selected) = true ->
         whole_amounts c p a d n ->
         (amountPaid c' + dueAmount c')%float
         = (amountPaid c + dueAmount c)%float).
Proof.
  cbv zeta. unfold updatedCollections. split; [apply length_map|]. split.
  - intros i c H. rewrite nth_error_map, H. cbn [option_map].
    eexists. split; [reflexivity|].
    unfold entry_updated.
    destruct (PrimFloat.eqb (historyId c) (historyId selected)); [|reflexivity].
    destruct meth; cbn; repeat split; reflexivity.
  - intros i c c' a d n H H' E (Ea & Ed & Ep & Ha & Hn & Hs).
    rewrite nth_error_map, H in H'. cbn [option_map] in H'. rewrite E in H'.
    inversion H'; subst c'. cbn [paid amountPaid dueAmount].
    rewrite Ea, Ed, Ep. apply NumberFacts.whole_sum_preserved; assumption.
Qed.

Lemma optimistic_update_frame_witness :
  (amountPaid (paid Cash 100 whole_sample)
   + dueAmount (paid Cash 100 whole_sample))%float
  = (amountPaid whole_sample + dueAmount whole_sample)%float.
Proof.
  refine (proj2 (proj2 (optimistic_update_frame [whole_sample] whole_sample
                          Cash 100))
            0%nat whole_sample _ 100%Z 700%Z 100%Z eq_refl eq_refl eq_refl _).
  repeat split; try reflexivity; vm_compute; discriminate.
Defined.

(** C9, as stated, fails: paying 0.1 of a due 0.7 on top of a paid 0.1
    gives 0.2 + 0.6 = 0.8, where 0.1 + 0.7 is 0.7999999999999999. *)
Lemma sum_not_preserved :
  (PrimFloat.ltb 0 0.1 && PrimFloat.leb 0.1 (dueAmount sample) = true)
  /\ ~ sum_preserved [sample] sample Cash 0.1.
Proof.
  split; [reflexivity|].
  intros H. specialize (H 0%nat sample _ eq_refl eq_refl eq_refl).
  apply (f_equal (fun x => PrimFloat.eqb x 0.8)) in H.
  vm_compute in H. discriminate H.
Qed.

(** C10: when [api.updateCollectionPayment] rejects, [handlePaymentSubmit]
    ends with [collections] equal to what it was when the handler started;
    if the request was sent at all, the optimistic list was shown in the
    meantime and an error toast is raised. *)
Theorem failed_payment_restores_collections (env : Env) (st : State)
    (selected : Collection) (meth : method) (err : Js.error) :
  selectedCollection st = Some selected ->
  paymentMethod st = Some meth ->
  updateCollectionPayment env (historyId selected)
    (parseFloat env (paymentAmount st)) meth = Some err ->
  let run := handlePaymentSubmit env st in
  collections (final run) = collections st
  /\ forall shown,
       pending run = Some shown ->
       collections shown
       = updatedCollections (collections st) selected meth
           (parseFloat env (paymentAmount st))
       /\ exists msg, toasts run = [toast_error msg].
Proof.
  intros S M F. cbv zeta. unfold handlePaymentSubmit. rewrite S, M.
  destruct (negb (String.eqb (paymentAmount st) "")).
  - destruct (PrimFloat.is_nan (parseFloat env (paymentAmount st))
              || PrimFloat.leb (parseFloat env (paymentAmount st)) 0
              || PrimFloat.ltb (dueAmount selected) (parseFloat env (paymentAmount st))).
    + cbn. split; [reflexivity | discriminate].
    + rewrite F. cbn. split; [reflexivity|].
      intros shown E. inversion E. cbn. split; [reflexivity | eauto].
  - cbn. split; [reflexivity | discriminate].
Qed.

Lemma failed_payment_restores_collections_witness :
  collections (final (handlePaymentSubmit offline paying)) = [sample].
Proof.
  exact (proj1 (failed_payment_restores_collections offline paying sample Cash
                  (Js.mkError "Error" "Network Error") eq_refl eq_refl eq_refl)).
Defined.

End CollectionDueFacts.

(** ** Doubles: NaN, infinities and comparisons *)

Module FloatFacts.
Local Open Scope Z_scope.

Lemma SFcompare_refl f : f <> S754_nan -> SFcompare f f = Some Eq.
Proof.
  destruct f as [s | s | | s m e]; intros N; try congruence; cbn.
  - reflexivity.
  - destruct s; reflexivity.
  - rewrite Z.compare_refl.
    assert (C : Pos.compare_cont Eq m m = Eq) by apply Pos.compare_cont_refl.
    rewrite C. destruct s; reflexivity.
Qed.

(** A double is NaN exactly when its specification is. *)
Lemma is_nan_iff x : PrimFloat.is_nan x = true <-> Prim2SF x = S754_nan.
Proof.
  unfold PrimFloat.is_nan. rewrite eqb_spec, negb_true_iff. unfold SFeqb. split.
  - intros H. destruct (Prim2SF x) eqn:E; try reflexivity;
      rewrite SFcompare_refl in H by discriminate; discriminate H.
  - intros ->. reflexivity.
Qed.

Lemma is_nan_false_iff x : PrimFloat.is_nan x = false <-> Prim2SF x <> S754_nan.
Proof.
  rewrite <- is_nan_iff. destruct (PrimFloat.is_nan x); split; congruence.
Qed.

Lemma is_infinity_iff x :
  PrimFloat.is_infinity x = true <-> exists s, Prim2SF x = S754_infinity s.
Proof.
  unfold PrimFloat.is_infinity. rewrite eqb_spec, abs_spec.
  change (Prim2SF infinity) with (S754_infinity false).
  destruct (Prim2SF x) as [s | s | | s m e]; cbn; split;
    try discriminate; try (intros (s' & D); discriminate D); eauto.
Qed.

Lemma shr_1_nonneg mrs : 0 <= shr_m mrs -> 0 <= shr_m (shr_1 mrs).
Proof.
  destruct mrs as [m r s]. cbn [shr_m].
  destruct m as [| [p | p |] | p]; cbn; lia.
Qed.

Lemma iter_shr_1_nonneg p : forall mrs,
  0 <= shr_m mrs -> 0 <= shr_m (iter_pos shr_1 p mrs).
Proof.
  induction p as [p IH | p IH |]; intros mrs H; cbn [iter_pos].
  - apply IH, IH, shr_1_nonneg, H.
  - apply IH, IH, H.
  - apply shr_1_nonneg, H.
Qed.

Lemma shr_nonneg mrs e n : 0 <= shr_m mrs -> 0 <= shr_m (fst (shr mrs e n)).
Proof.
  intros H. unfold shr. destruct n; cbn [fst]; try exact H.
  now apply iter_shr_1_nonneg.
Qed.

Lemma shr_record_of_loc_m m l : shr_m (shr_record_of_loc m l) = m.
Proof. destruct l as [| []]; reflexivity. Qed.

Lemma round_nearest_even_nonneg m l : 0 <= m -> 0 <= round_nearest_even m l.
Proof.
  intros H. unfold round_nearest_even.
  destruct l as [| []]; try lia. destruct (Z.even m); lia.
Qed.

(** Rounding a mantissa does not produce NaN. *)
Lemma binary_round_aux_not_nan sx mx ex lx :
  0 <= mx -> binary_round_aux prec emax sx mx ex lx <> S754_nan.
Proof.
  intros H. unfold binary_round_aux, shr_fexp.
  match goal with |- context [shr ?a ?b ?c] =>
    pose proof (shr_nonneg a b c) as N1; destruct (shr a b c) as [mrs' e'] end.
  cbn [fst] in N1. rewrite shr_record_of_loc_m in N1. specialize (N1 H).
  match goal with |- context [shr ?a ?b ?c] =>
    pose proof (shr_nonneg a b c) as N2; destruct (shr a b c) as [mrs'' e''] end.
  cbn [fst] in N2. rewrite shr_record_of_loc_m in N2.
  specialize (N2 (round_nearest_even_nonneg _ _ N1)).
  destruct (shr_m mrs''); try lia; try discriminate.
  destruct (e'' <=? emax - prec); discriminate.
Qed.

Lemma binary_normalize_not_nan m e sz :
  binary_normalize prec emax m e sz <> S754_nan.
Proof.
  unfold binary_normalize, binary_round.
  destruct m as [| p | p]; [discriminate | |];
    match goal with |- context [shl_align ?a ?b ?c] =>
      destruct (shl_align a b c) as [mz ez] end;
    apply binary_round_aux_not_nan; lia.
Qed.

(** The difference of two numbers is NaN only for two infinities of the
    same sign. *)
Lemma sub_nan x y :
  PrimFloat.is_nan x = false -> PrimFloat.is_nan y = false ->
  PrimFloat.is_nan (x - y) = true ->
  PrimFloat.is_infinity x = true /\ PrimFloat.is_infinity y = true
  /\ PrimFloat.eqb x y = true.
Proof.
  rewrite !is_nan_false_iff, is_nan_iff, !is_infinity_iff, eqb_spec, sub_spec.
  unfold SF64sub, SFsub.
  destruct (Prim2SF x) as [sx | sx | | sx mx ex], (Prim2SF y) as [sy | sy | | sy my ey];
    intros Nx Ny H; try congruence; try discriminate H.
  - destruct sx, sy; discriminate H.
  - destruct sx, sy; try discriminate H; repeat split; eauto.
  - exfalso. revert H. apply binary_normalize_not_nan.
Qed.

(** A finite number taken from itself leaves zero. *)
Lemma sub_diag x :
  PrimFloat.is_nan x = false -> PrimFloat.is_infinity x = false ->
  (x - x)%float = 0%float.
Proof.
  intros N I. apply Prim2SF_inj. rewrite sub_spec.
  change (Prim2SF 0) with (S754_zero false).
  apply is_nan_false_iff in N.
  assert (F : forall s, Prim2SF x <> S754_infinity s).
  { intros s E. assert (T : PrimFloat.is_infinity x = true)
      by (apply is_infinity_iff; eauto). congruence. }
  unfold SF64sub, SFsub.
  destruct (Prim2SF x) as [s | s | | s m e]; try congruence.
  - destruct s; reflexivity.
  - now rewrite Z.sub_diag.
Qed.

(** [x || 0] is never NaN. *)
Lemma or_zero_number x : PrimFloat.is_nan (Js.or_zero x) = false.
Proof.
  unfold Js.or_zero, Js.truthy_num.
  destruct (PrimFloat.is_nan x) eqn:N; cbn [orb negb]; [reflexivity|].
  destruct (PrimFloat.is_zero x); cbn [negb]; [reflexivity | exact N].
Qed.

(** A number above zero is not NaN. *)
Lemma positive_number x : PrimFloat.ltb 0 x = true -> PrimFloat.is_nan x = false.
Proof.
  rewrite ltb_spec, is_nan_false_iff. change (Prim2SF 0) with (S754_zero false).
  intros H E. rewrite E in H. discriminate H.
Qed.

(** Above zero, for a number, is the same as not at or below it. *)
Lemma positive_iff x :
  PrimFloat.ltb 0 x = true
  <-> PrimFloat.is_nan x = false /\ PrimFloat.leb x 0 = false.
Proof.
  rewrite ltb_spec, leb_spec, is_nan_false_iff.
  change (Prim2SF 0) with (S754_zero false). unfold SFltb, SFleb.
  destruct (Prim2SF x) as [s | [] | | [] m e]; cbn; split;
    try discriminate; try tauto; try (intros [N D]; congruence);
    try (intros _; split; [discriminate | reflexivity]).
Qed.

Lemma ltb_irrefl x : PrimFloat.ltb x x = false.
Proof.
  rewrite ltb_spec. unfold SFltb.
  destruct (Prim2SF x) as [s | s | | s m e] eqn:E; try reflexivity;
    rewrite SFcompare_refl by discriminate; reflexivity.
Qed.

(** A number is equal to itself. *)
Lemma eqb_refl_iff x : PrimFloat.eqb x x = true <-> PrimFloat.is_nan x = false.
Proof.
  unfold PrimFloat.is_nan. rewrite negb_false_iff. reflexivity.
Qed.

(** Above zero and below infinity is finite. *)
Lemma finite_positive x :
  PrimFloat.ltb 0 x = true -> PrimFloat.ltb x infinity = true ->
  PrimFloat.is_nan x = false /\ PrimFloat.is_infinity x = false.
Proof.
  intros P I. split; [now apply positive_number|].
  destruct (PrimFloat.is_infinity x) eqn:F; [|reflexivity].
  apply is_infinity_iff in F. destruct F as (s & F).
  rewrite ltb_spec in P, I. rewrite F in P, I.
  change (Prim2SF 0) with (S754_zero false) in P.
  change (Prim2SF infinity) with (S754_infinity false) in I.
  destruct s; [discriminate P | discriminate I].
Qed.

End FloatFacts.

(** ** Logging in, and what follows *)

Module LoginFacts.
Import Js Express JsFacts Auth AuthFacts Reports App Examples.

Lemma strict_eq_str_false (v : value) (s : string) :
  strict_eq v (VStr s) = false <-> v <> VStr s.
Proof.
  split.
  - intros H E. apply strict_eq_str in E. congruence.
  - intros N. destruct (strict_eq v (VStr s)) eqn:E; [|reflexivity].
    apply strict_eq_str in E. contradiction.
Qed.

Ltac guard_case :=
  repeat match goal with
         | H : _ /\ _ |- _ => destruct H
         | H : context [if ?b then _ else _] |- _ => destruct b eqn:?
         | |- context [if ?b then _ else _] => destruct b eqn:?
         | H : context [match ?x with _ => _ end] |- _ => destruct x eqn:?
         end; try discriminate; try congruence; try tauto.

(** X1: the role checks agree on who is not logged in, and are nested.
    [checkAdmin], [checkAdminOrStaff] and [checkPermission] answer the 401
    "Unauthorized - Please log in" exactly when the session has no user,
    and [authenticateUser] answers it then too; [checkAdmin] calls [next()]
    exactly for a user whose role is ['admin'], and whoever passes it
    passes [checkAdminOrStaff] and [checkPermission]; [authenticateUser]
    calls [next()] exactly when the session has a user with a truthy
    [id]. *)
Theorem role_checks_nest h req :
  let u := session_user req in
  let unauthorized :=
    Responded (res_status_json 401 (message_body "Unauthorized - Please log in")) in
  (checkAdmin req = unauthorized <-> truthy u = false)
  /\ (checkAdminOrStaff req = unauthorized <-> truthy u = false)
  /\ (checkPermission h req = unauthorized <-> truthy u = false)
  /\ (truthy u = false -> authenticateUser req = unauthorized)
  /\ (checkAdmin req = Next <-> truthy u = true /\ get u "role" = VStr "admin")
  /\ (checkAdmin req = Next ->
      checkAdminOrStaff req = Next /\ checkPermission h req = Next)
  /\ (authenticateUser req = Next
      <-> truthy u = true /\ truthy (get u "id") = true).
Proof.
  intros u unauthorized. subst unauthorized.
  unfold checkAdmin, checkAdminOrStaff, checkPermission, authenticateUser.
  fold u.
  destruct (truthy u) eqn:T; cbn [negb andb];
    [destruct (strict_eq (get u "role") (VStr "admin")) eqn:A; cbn [negb orb];
     [apply strict_eq_str in A | apply strict_eq_str_false in A] | ];
    repeat split; intros; guard_case.
Qed.

Lemma destructure_inr what v k a :
  destructure what v k = inr a <-> (v <> VUndefined /\ v <> VNull /\ a = get v k).
Proof.
  destruct v; simpl; split;
    try (intros H; inversion H; repeat split; congruence);
    try (intros (A & B & C); congruence).
Qed.

Lemma destructure_inl what v k e :
  destructure what v k = inl e -> v = VUndefined \/ v = VNull.
Proof. destruct v; simpl; intros H; try discriminate H; auto. Qed.

(** X2: what POST /login answers.  400 exactly when the body is there
    and the username or the password is missing or falsy; 401 exactly when
    both are given and the query finds no row, or a first row whose
    password is not strictly equal to the one given; 200 exactly when the
    first row's password is strictly equal to it; 500 exactly when there is
    no body to read or the pool rejects the query. *)
Theorem login_status h req :
  let r := response (serve h POST_auth_login req) in
  let username := get (req_body req) "username" in
  let password := get (req_body req) "password" in
  let has_body := req_body req <> VUndefined /\ req_body req <> VNull in
  let given := truthy username = true /\ truthy password = true in
  let answer := pool_query h loginSql [PVal username] in
  (status r = 400%Z <-> has_body /\ ~ given)
  /\ (status r = 401%Z <->
      has_body /\ given
      /\ (answer = inr []
          \/ exists user rest,
               answer = inr (user :: rest)
               /\ strict_eq password (field user "password") = false))
  /\ (status r = 200%Z <->
      has_body /\ given
      /\ exists user rest,
           answer = inr (user :: rest)
           /\ strict_eq password (field user "password") = true)
  /\ (status r = 500%Z <->
      ~ has_body \/ (given /\ exists err, answer = inl err)).
Proof.
  cbv zeta. unfold serve.
  destruct (login_total h req) as
    [ err U | u p U P G | u p err U P G Q | u p U P G Q
    | u p user rest U P G Q E | u p user rest U P G Q E ];
    cbn [response status res_status_json login_error res_json];
    try (apply destructure_inl in U);
    try (apply destructure_inr in U, P; destruct U as (A & B & ->), P as (_ & _ & ->));
    try (apply orb_true_iff in G; rewrite !negb_true_iff in G);
    try (apply orb_false_iff in G; rewrite !negb_false_iff in G; destruct G as [G1 G2]);
    repeat split; intros; try discriminate;
    repeat match goal with
           | H : _ /\ _ |- _ => destruct H
           | H : _ \/ _ |- _ => destruct H
           | H : exists _, _ |- _ => destruct H
           end;
    try congruence; try tauto.
  all: try solve [intuition congruence].
  all: try solve [right; eauto].
  all: try solve [right; split; [tauto | eauto]].
  all: try solve [eauto].
Qed.

Lemma login_ok h req :
  status (response (serve h POST_auth_login req)) = 200%Z ->
  exists username user rest,
    pool_query h loginSql [PVal username] = inr (user :: rest)
    /\ serve h POST_auth_login req
       = mkResult
           (res_json (VObj [("message", VStr "Login successful");
                            ("user", logged_in user)]))
           (mkWorld (Some (mkSession (logged_in user)))
              [(loginSql, [PVal username])]).
Proof.
  unfold serve. intros OK.
  destruct (login_total h req); try discriminate OK. eauto.
Qed.

(** X3: a GET /status that carries the session a successful POST /login
    stored answers [isAuthenticated: true] with the very user object the
    login answered, and leaves the session as it is. *)
Theorem login_then_status h req req' :
  status (response (serve h POST_auth_login req)) = 200%Z ->
  stored (world (serve h POST_auth_login req)) = Some (session req') ->
  exists u,
    body (response (serve h POST_auth_login req))
    = Json (VObj [("message", VStr "Login successful"); ("user", u)])
    /\ serve h GET_auth_status req'
       = mkResult
           (res_json (VObj [("isAuthenticated", VBool true); ("user", u)]))
           (initial req').
Proof.
  intros OK St.
  destruct (login_ok h req OK) as (username & user & rest & Q & E).
  rewrite E in St |- *. cbn [world stored response body res_json] in *.
  inversion St as [S]. exists (logged_in user). split; [reflexivity|].
  unfold serve, status_route, run_handler, session_user. rewrite <- S.
  reflexivity.
Qed.

Lemma login_then_status_witness :
  response (serve demo_host GET_auth_status after_login)
  = res_json
      (VObj [("isAuthenticated", VBool true);
             ("user", VObj [("id", VNum 1); ("username", VStr "asha");
                            ("role", VStr "admin")])]).
Proof.
  destruct (login_then_status demo_host login_request after_login
              eq_refl eq_refl) as (u & B & S).
  inversion B; subst u. now rewrite S.
Defined.



Ltac pick :=
  cbn [fst In];
  first [ left; reflexivity
        | right; left; reflexivity
        | right; right; left; reflexivity
        | right; right; right; left; reflexivity
        | right; right; right; right; left; reflexivity
        | right; right; right; right; right; left; reflexivity ].

(** X5: the text of every query the five routes send is one of six
    fixed strings, so nothing of a request is spliced into SQL (what the
    request gives travels in the bound parameters); and no request sends
    more than two queries. *)
Theorem sql_text_is_fixed h rt req :
  Forall (fun q : string * list param =>
            In (fst q)
               [loginSql;
                collectionsQuery0; collectionsQuery0 ++ " AND branch_id = $3";
                expensesQuery0; expensesQuery0 ++ " AND branch_id = $3";
                monthlySql])
         (queries (world (serve h rt req)))
  /\ (List.length (queries (world (serve h rt req))) <= 2)%nat.
Proof.
  assert (B : forall b cq eq ps ps0,
             branch_filter b (collectionsQuery0, expensesQuery0, ps0) = inr (cq, eq, ps) ->
             (cq = collectionsQuery0 /\ eq = expensesQuery0)
             \/ (cq = collectionsQuery0 ++ " AND branch_id = $3"
                 /\ eq = expensesQuery0 ++ " AND branch_id = $3")).
  { intros b cq eq ps ps0. unfold branch_filter.
    destruct (qs_truthy b); [destruct (parseInt10 (toString b)); [|discriminate]|];
      intros H; inversion H; auto. }
  destruct rt.
  - destruct (AppFacts.report_served h GET_reports_profit_loss req (or_introl eq_refl))
      as [(r & _ & ->) | (_ & [(_ & Run) | (D & _)])]; [ | | discriminate D].
    + cbn. split; [constructor | lia].
    + destruct Run as [| | | | parts iso cq eq ps r G S I Bf Q];
        try (cbn; split; [constructor | lia]).
      apply B in Bf.
      destruct Q; cbn [world queries after List.length]; (split; [|lia]);
        apply Forall_forall; intros q HIn; cbn [In] in HIn;
        destruct Bf as [[-> ->] | [-> ->]];
        repeat (destruct HIn as [<- | HIn]; [pick|]); contradiction.
  - destruct (AppFacts.report_served h GET_reports_monthly_collections req
                (or_intror eq_refl))
      as [(r & _ & ->) | (_ & [(D & _) | (_ & Run)])]; [ | discriminate D | ].
    + cbn. split; [constructor | lia].
    + destruct Run; cbn [world queries after List.length]; (split; [|lia]);
        apply Forall_forall; intros q HIn; cbn [In] in HIn;
        repeat (destruct HIn as [<- | HIn]; [pick|]); contradiction.
  - unfold serve. destruct (login_total h req);
      cbn [world queries initial List.length]; (split; [|lia]);
      apply Forall_forall; intros q HIn; cbn [In] in HIn;
      repeat (destruct HIn as [<- | HIn]; [pick|]); contradiction.
  - unfold serve, logout. reduce_run. cbv beta iota zeta delta [session_destroy].
    destruct (store_destroy h); cbn; split; try constructor; lia.
  - unfold serve, status_route. reduce_run.
    destruct (truthy (session_user req)); cbn; split; try constructor; lia.
Qed.

Lemma app_eq_two {A : Type} (pre post : list A) x a b :
  (pre ++ x :: post)%list = [a; b] ->
  (pre = [] /\ x = a /\ post = [b]) \/ (pre = [a] /\ x = b /\ post = []).
Proof.
  destruct pre as [| p [| q [| ? ?]]]; cbn; intros H; inversion H; auto.
Qed.

Lemma app_eq_one {A : Type} (pre post : list A) x a :
  (pre ++ x :: post)%list = [a] -> pre = [] /\ x = a /\ post = [].
Proof.
  destruct pre as [| p [| ? ?]]; cbn; intros H; inversion H; auto.
Qed.

Lemma app_eq_nil {A : Type} (pre post : list A) x : (pre ++ x :: post)%list <> [].
Proof. destruct pre; discriminate. Qed.

(** X6: a query the pool rejects is the last one its request sends: the
    route stops there and answers 500 with the error's message under
    [error]. *)
Theorem rejected_query_ends_request h rt req pre sql ps post err :
  queries (world (serve h rt req)) = (pre ++ (sql, ps) :: post)%list ->
  pool_query h sql ps = inl err ->
  post = []
  /\ status (response (serve h rt req)) = 500%Z
  /\ exists v,
       body (response (serve h rt req)) = Json v
       /\ get v "error" = VStr (message err).
Proof.
  intros Q F.
  assert (OK : forall e, e = err ->
            status (server_error e) = 500%Z
            /\ exists v, body (server_error e) = Json v
                         /\ get v "error" = VStr (message err)).
  { intros e ->. split; [reflexivity|]. eexists. split; reflexivity. }
  destruct rt.
  - destruct (AppFacts.report_served h GET_reports_profit_loss req (or_introl eq_refl))
      as [(r & _ & E) | (_ & [(_ & Run) | (D & _)])]; [ | | discriminate D].
    + rewrite E in Q. cbn in Q. symmetry in Q. now apply app_eq_nil in Q.
    + destruct Run as [| | | | parts iso cq eq ps' r G S I Bf Qr];
        try (cbn in Q; symmetry in Q; now apply app_eq_nil in Q).
      destruct Qr; cbn [world queries after response] in *; symmetry in Q;
        first [ apply app_eq_one in Q; destruct Q as (-> & X & ->); inversion X; subst
              | apply app_eq_two in Q;
                destruct Q as [(-> & X & ->) | (-> & X & ->)]; inversion X; subst ];
        try congruence;
        (split; [reflexivity | apply OK; congruence]).
  - destruct (AppFacts.report_served h GET_reports_monthly_collections req
                (or_intror eq_refl))
      as [(r & _ & E) | (_ & [(D & _) | (_ & Run)])]; [ | discriminate D | ].
    + rewrite E in Q. cbn in Q. symmetry in Q. now apply app_eq_nil in Q.
    + destruct Run; cbn [world queries after response] in *; symmetry in Q;
        try (now apply app_eq_nil in Q);
        apply app_eq_one in Q; destruct Q as (-> & X & ->); inversion X; subst;
        try congruence;
        (split; [reflexivity | apply OK; congruence]).
  - unfold serve in *. destruct (login_total h req);
      cbn [world queries initial response] in *; symmetry in Q;
      try (now apply app_eq_nil in Q);
      apply app_eq_one in Q; destruct Q as (-> & X & ->); inversion X; subst;
      try congruence.
    split; [reflexivity|]. split; [reflexivity|].
    eexists. split; [reflexivity|]. cbn. congruence.
  - revert Q. unfold serve, logout. reduce_run.
    cbv beta iota zeta delta [session_destroy].
    destruct (store_destroy h); cbn; intros Q; symmetry in Q;
      now apply app_eq_nil in Q.
  - revert Q. unfold serve, status_route. reduce_run.
    destruct (truthy (session_user req)); cbn; intros Q; symmetry in Q;
      now apply app_eq_nil in Q.
Qed.

Lemma rejected_query_ends_request_witness :
  status (response (serve down_host GET_reports_profit_loss february)) = 500%Z.
Proof.
  refine (proj1 (proj2 (rejected_query_ends_request down_host
                          GET_reports_profit_loss february []
                          collectionsQuery0
                          [PStr "2024-02-01"; PStr "2024-02-29"] []
                          (mkError "Error" "connection refused") _ _)));
    reflexivity.
Defined.

(** X28: the two routes that ask for no login.  GET /logout sends no
    query and answers 200 exactly when the store destroys the session,
    whoever is or is not logged in: the session is then gone and the cookie
    [connect.sid] cleared; when the store fails it answers 500 and the
    session stays.  GET /status always answers 200 and leaves everything as
    it is; [isAuthenticated] says whether the session has a user, of whom
    the body shows [id], [username] and [role] and nothing else. *)
Theorem logout_and_status h req :
  let out := serve h GET_auth_logout req in
  let st := serve h GET_auth_status req in
  let u := session_user req in
  queries (world out) = []
  /\ (status (response out) = 200%Z <-> store_destroy h = None)
  /\ (store_destroy h = None ->
      response out
      = mkResponse 200 (Json (message_body "Logout successful")) ["connect.sid"]
      /\ stored (world out) = None)
  /\ (store_destroy h <> None ->
      response out
      = res_status_json 500 (message_body "Could not log out, please try again.")
      /\ stored (world out) = Some (session req))
  /\ world st = initial req
  /\ status (response st) = 200%Z
  /\ exists v,
       body (response st) = Json v
       /\ get v "isAuthenticated" = VBool (truthy u)
       /\ (truthy u = true ->
           get v "user" = VObj [("id", get u "id");
                                ("username", get u "username");
                                ("role", get u "role")])
       /\ (truthy u = false -> get v "user" = VNull).
Proof.
  cbv zeta. unfold serve, logout, status_route. reduce_run.
  cbv beta iota zeta delta [session_destroy].
  split; [destruct (store_destroy h); reflexivity|].
  split; [destruct (store_destroy h); cbn; split; congruence|].
  split; [intros ->; split; reflexivity|].
  split; [destruct (store_destroy h); [split; reflexivity | congruence]|].
  destruct (truthy (session_user req)); cbn [world response status body res_json];
    (split; [reflexivity|]); (split; [reflexivity|]);
    eexists; (split; [reflexivity|]); (split; [reflexivity|]);
    split; intros D; first [reflexivity | discriminate D].
Qed.

End LoginFacts.

(** ** The last day of a month, for any month number *)

Module MonthEndFacts.
Import Js JsDate JsFacts DateFacts.
Local Open Scope Z_scope.

(** The day before the last day of a month is in the same month. *)
Lemma before_last_index_fields l m :
  0 <= l <= 1 -> 1 <= m <= 12 ->
  0 <= last_index l m - 1
  /\ month_of (last_index l m - 1) l = m - 1
  /\ date_of (last_index l m - 1) l (m - 1)
     = match m with
       | 2 => 28 + l
       | 4 | 6 | 9 | 11 => 30
       | _ => 31
       end - 1.
Proof.
  intros Hl Hm.
  assert (L : l = 0 \/ l = 1) by lia.
  assert (C : m = 1 \/ m = 2 \/ m = 3 \/ m = 4 \/ m = 5 \/ m = 6 \/ m = 7
              \/ m = 8 \/ m = 9 \/ m = 10 \/ m = 11 \/ m = 12) by lia.
  destruct L as [-> | ->];
    destruct C as [-> | [-> | [-> | [-> | [-> | [-> | [-> | [-> | [-> | [-> | [-> | ->]]]]]]]]]]];
    vm_compute; repeat split; congruence.
Qed.

(** The last day of month [m] of year [y], or ([k = 1]) the day before. *)
Lemma month_end_fields y m k t :
  1 <= m <= 12 -> 0 <= k <= 1 ->
  Day t = MakeDay y m 0 - k ->
  YearFromTime t = y /\ MonthFromTime t + 1 = m
  /\ DateFromTime t = days_in_month y m - k.
Proof.
  intros Hm Hk Ht.
  assert (K : k = 0 \/ k = 1) by lia.
  destruct K as [-> | ->].
  - rewrite Z.sub_0_r in *. apply last_day_fields; [exact Hm | exact Ht].
  - rewrite MakeDay_last in Ht by exact Hm.
    pose proof (last_index_range y m Hm) as R.
    pose proof (leap_flag_range y) as B.
    destruct (before_last_index_fields (leap_flag y) m B Hm) as (P & M & Dt).
    assert (Hy : YearFromTime t = y).
    { unfold YearFromTime. apply YearFromDay_unique.
      rewrite DayFromYear_succ. lia. }
    assert (Hl : InLeapYear t = leap_flag y).
    { unfold InLeapYear, leap_flag. now rewrite Hy. }
    assert (Hd : DayWithinYear t = last_index (leap_flag y) m - 1).
    { unfold DayWithinYear. rewrite Hy. lia. }
    split; [exact Hy|].
    unfold DateFromTime, MonthFromTime. rewrite Hl, Hd, M.
    split; [lia|]. rewrite Dt.
    unfold days_in_month. rewrite is_leap_year_DaysInYear. unfold leap_flag.
    destruct (DaysInYear y =? 366); reflexivity.
Qed.

(** Day 0 of any month number is the last day of a calendar month: the
    month number carries into the year. *)
Lemma MakeDay_carry y m :
  MakeDay y m 0 = MakeDay (y + (m - 1) / 12) ((m - 1) mod 12 + 1) 0.
Proof.
  unfold MakeDay.
  assert (E1 : y + m / 12 = y + (m - 1) / 12 + ((m - 1) mod 12 + 1) / 12)
    by (Z.div_mod_to_equations; lia).
  assert (E2 : m mod 12 = ((m - 1) mod 12 + 1) mod 12)
    by (Z.div_mod_to_equations; lia).
  now rewrite <- E1, <- E2.
Qed.

(** [new Date(y, m, 0).toISOString()] for any year and month four and two
    digits can denote: the date printed is the last day of the month the
    month number carries to, or the day before it east of UTC. *)
Lemma iso_of_month_end tza y m k :
  0 <= y <= 9999 -> 0 <= m <= 99 ->
  (k = 0 /\ (forall t, - msPerDay < tza t <= 0))
  \/ (k = 1 /\ (forall t, 0 < tza t <= msPerDay)) ->
  let Y := (if y <=? 99 then 1900 + y else y) + (m - 1) / 12 in
  let M := (m - 1) mod 12 + 1 in
  Y <= 9999 ->
  exists rest,
    toISOString (construct tza (Some y) (Some m) 0)
    = inr ((pad_digits 4 Y ++ "-" ++ pad_digits 2 M ++ "-"
            ++ pad_digits 2 (days_in_month Y M - k))
           ++ String "T" rest)%string.
Proof.
  intros Hy Hm Hk Y M HY.
  unfold construct.
  replace ((0 <=? y) && (y <=? 99))%bool with (y <=? 99)
    by (replace (0 <=? y) with true by (symmetry; apply Z.leb_le; lia); reflexivity).
  set (yr := if y <=? 99 then 1900 + y else y) in *.
  assert (Hyr : 100 <= yr <= 9999).
  { subst yr. destruct (y <=? 99) eqn:E; [apply Z.leb_le in E | apply Z.leb_gt in E]; lia. }
  assert (HM : 1 <= M <= 12) by (subst M; Z.div_mod_to_equations; lia).
  assert (HY0 : 99 <= Y) by (subst Y; Z.div_mod_to_equations; lia).
  set (fd := MakeDate (MakeDay yr m 0) (MakeTime 0 0 0 0)).
  assert (Hoff : - msPerDay * (1 - k) < tza fd <= msPerDay * k /\ 0 <= k <= 1
                 /\ (k = 0 \/ 0 < tza fd)).
  { destruct Hk as [(-> & Tz) | (-> & Tz)]; specialize (Tz fd); unfold msPerDay in *; lia. }
  generalize dependent (tza fd). intros off Hoff.
  assert (Hd : Day (fd - off) = MakeDay Y M 0 - k).
  { subst fd Y M. rewrite <- MakeDay_carry.
    unfold Day, MakeDate, MakeTime. unfold msPerDay in *.
    Z.div_mod_to_equations. lia. }
  destruct (month_end_fields Y M k (fd - off) HM ltac:(lia) Hd) as (Fy & Fm & Fd).
  assert (Hc : TimeClip (fd - off) = Some (fd - off)).
  { unfold TimeClip.
    assert (B : Z.abs (fd - off) <= 8640000000000000).
    { subst fd. unfold MakeDate, MakeTime.
      subst Y M. rewrite MakeDay_carry.
      rewrite MakeDay_last by exact HM.
      pose proof (last_index_range (yr + (m - 1) / 12) ((m - 1) mod 12 + 1) HM) as R.
      pose proof (DaysInYear_cases (yr + (m - 1) / 12)) as C.
      pose proof (DayFromYear_bound (yr + (m - 1) / 12) ltac:(lia)) as Db.
      unfold msPerDay in *. lia. }
    apply Z.leb_le in B. now rewrite B. }
  rewrite Hc. unfold toISOString. rewrite Fy, Fm, Fd.
  unfold year_string.
  replace ((0 <=? Y) && (Y <=? 9999))%bool with true
    by (symmetry; apply andb_true_iff; split; apply Z.leb_le; lia).
  eexists. rewrite !append_assoc. reflexivity.
Qed.

End MonthEndFacts.

(** ** More of the reports *)

Module ReportRouteFacts.
Import Js Express JsFacts JsDate DateFacts MonthEndFacts Auth AuthFacts Reports ReportsFacts.
Import App Examples AppFacts FloatFacts.

Lemma served_profit_loss h req :
  checkAdminOrStaff req = Next ->
  profit_loss_run h req (serve h GET_reports_profit_loss req).
Proof. intros Mw. unfold serve, guarded. rewrite Mw. apply profit_loss_total. Qed.

Lemma served_monthly_collections h req :
  checkAdminOrStaff req = Next ->
  monthly_collections_run h req (serve h GET_reports_monthly_collections req).
Proof. intros Mw. unfold serve, guarded. rewrite Mw. apply monthly_collections_total. Qed.

(** The range a report queries, from what [toISOString] printed. *)
Lemma report_queries_range h rt req s y4 m2 iso D :
  is_report rt ->
  checkAdminOrStaff req = Next ->
  assoc "month" (query req) = Some (QStr s) ->
  month_re s = true ->
  split "-" s = [y4; m2] ->
  last_day_iso h y4 m2 = inr iso ->
  y4 ++ "-" ++ m2 ++ "-01" = s ++ "-01" ->
  nth 0 (split "T" iso) "undefined" = D ->
  slice0 10 iso = D ->
  (forall sql ps,
      In (sql, ps) (queries (world (serve h rt req))) ->
      dated_query sql /\ firstn 2 ps = [PStr (s ++ "-01"); PStr D])
  /\ (queries (world (serve h rt req)) <> []
      \/ response (serve h rt req) = invalid_branch).
Proof.
  intros R Mw M Re Sp I St E1 E2.
  pose proof (good_month_string req s M Re) as G.
  assert (SM : split_method "month" "-" (assoc "month" (query req)) = inr [y4; m2]).
  { rewrite M. cbn [split_method]. now rewrite Sp. }
  destruct R as [-> | ->].
  - destruct (served_profit_loss h req Mw)
      as [G' | err G' S | parts err G' S I' | parts iso' G' S I' B
         | parts iso' cq eq ps r G' S I' B Q]; try congruence.
    + rewrite SM in S. inversion S; subst parts. cbn [nth] in I'. congruence.
    + split; [intros sql ps []|]. right. reflexivity.
    + rewrite SM in S. inversion S; subst parts. cbn [nth] in I', B.
      assert (iso' = iso) by congruence. subst iso'.
      rewrite St, E1 in B.
      destruct (branch_filter_extends _ _ _ _ _ _ _ B) as ((suffix & -> & ->) & extra & ->).
      assert (C : forall sql ps,
                 In (sql, ps)
                    [(collectionsQuery0 ++ suffix,
                      ([PStr (s ++ "-01"); PStr D] ++ extra)%list);
                     (expensesQuery0 ++ suffix,
                      ([PStr (s ++ "-01"); PStr D] ++ extra)%list)] ->
                 dated_query sql /\ firstn 2 ps = [PStr (s ++ "-01"); PStr D]).
      { intros sql ps [H | [H | []]]; inversion H; subst; split;
          try reflexivity; exists suffix; auto. }
      destruct Q; cbn [world queries after] in *;
        (split; [ | left; discriminate]);
        intros sql ps' HIn; apply C; cbn [In] in *; tauto.
  - destruct (served_monthly_collections h req Mw)
      as [G' | err G' S | parts err G' S I' | parts iso' err G' S I' Q
         | parts iso' rows G' S I' Q]; try congruence.
    + rewrite SM in S. inversion S; subst parts. cbn [nth] in I'. congruence.
    + rewrite SM in S. inversion S; subst parts. cbn [nth] in *.
      assert (iso' = iso) by congruence. subst iso'. rewrite St, E2.
      cbn [world queries after]. split; [|left; discriminate].
      intros sql ps [H | []]. inversion H; subst. split; [|reflexivity].
      exists "". rewrite append_nil_r. auto.
    + rewrite SM in S. inversion S; subst parts. cbn [nth] in *.
      assert (iso' = iso) by congruence. subst iso'. rewrite St, E2.
      cbn [world queries after]. split; [|left; discriminate].
      intros sql ps [H | []]. inversion H; subst. split; [|reflexivity].
      exists "". rewrite append_nil_r. auto.
Qed.

(** What [toISOString] prints for a month string that passed the check. *)
Lemma month_end_iso h s k :
  month_re s = true ->
  (k = 0%Z /\ behind_utc h) \/ (k = 1%Z /\ ahead_of_utc h) ->
  (range_year s <= 9999)%Z ->
  let D := iso_day (range_year s) (range_month s)
             (days_in_month (range_year s) (range_month s) - k) in
  exists y4 m2 iso,
    split "-" s = [y4; m2]
    /\ last_day_iso h y4 m2 = inr iso
    /\ y4 ++ "-" ++ m2 ++ "-01" = s ++ "-01"
    /\ nth 0 (split "T" iso) "undefined" = D
    /\ slice0 10 iso = D.
Proof.
  intros R Hk HY. cbv zeta.
  destruct (month_re_inv s R) as (y4 & m2 & E & Ly & Lm & Dy & Dm & Sy & Sm & Sp).
  assert (Ey : denoted_year s = digits_value 0 y4) by (unfold denoted_year; now rewrite Sy).
  assert (Em : denoted_month s = digits_value 0 m2) by (unfold denoted_month; now rewrite Sm).
  pose proof (digits_value_bounds y4 0 Dy ltac:(lia)) as By.
  pose proof (digits_value_bounds m2 0 Dm ltac:(lia)) as Bm.
  rewrite Ly in By. rewrite Lm in Bm.
  change (10 ^ Z.of_nat 4)%Z with 10000%Z in By.
  change (10 ^ Z.of_nat 2)%Z with 100%Z in Bm.
  unfold range_year, range_month in *. rewrite Ey, Em in *.
  destruct (iso_of_month_end (LocalTZA h) (digits_value 0 y4) (digits_value 0 m2) k
              ltac:(lia) ltac:(lia) Hk HY) as (rest & I).
  exists y4, m2. eexists. split; [exact Sp|].
  split.
  { unfold last_day_iso.
    rewrite !toNumber_digits by (try assumption; intros ->; discriminate).
    exact I. }
  split; [rewrite E; now rewrite !append_assoc|].
  unfold iso_day. apply iso_date_part.
  - rewrite !free_of_app, !pad_digits_free_T. reflexivity.
  - rewrite !length_app, !pad_digits_length. reflexivity.
Qed.

(** X7: on a server at or behind UTC, for every [month] that passes the
    format check (months 00 and 13 to 99 and years 0000 to 0099 included),
    each query of either report binds [$1] to [YYYY-MM-01] as given and
    [$2] to the last day of the calendar month the [Date] constructor
    carries the pair to: month [(MM - 1) mod 12 + 1] of the year
    [Y + (MM - 1) div 12], where [Y] is [1900 + YYYY] for a [YYYY] up to
    99 and [YYYY] otherwise; and a query is sent, unless the branch id is
    rejected. *)
Theorem report_range_behind_utc h rt req s :
  is_report rt ->
  checkAdminOrStaff req = Next ->
  assoc "month" (query req) = Some (QStr s) ->
  month_re s = true ->
  behind_utc h ->
  (range_year s <= 9999)%Z ->
  (1 <= range_month s <= 12)%Z
  /\ (forall sql ps,
         In (sql, ps) (queries (world (serve h rt req))) ->
         firstn 2 ps
         = [PStr (s ++ "-01");
            PStr (iso_day (range_year s) (range_month s)
                    (days_in_month (range_year s) (range_month s)))])
  /\ (queries (world (serve h rt req)) <> []
      \/ response (serve h rt req) = invalid_branch).
Proof.
  intros R Mw M Re Tz HY.
  split; [unfold range_month; Z.div_mod_to_equations; lia|].
  destruct (month_end_iso h s 0 Re (or_introl (conj eq_refl Tz)) HY)
    as (y4 & m2 & iso & Sp & I & St & E1 & E2).
  rewrite Z.sub_0_r in E1, E2.
  destruct (report_queries_range h rt req s y4 m2 iso _ R Mw M Re Sp I St E1 E2)
    as [A B].
  split; [|exact B]. intros sql ps HIn. exact (proj2 (A sql ps HIn)).
Qed.

Lemma report_range_behind_utc_witness :
  Forall (fun q : string * list param =>
            firstn 2 (snd q) = [PStr "0024-02-01"; PStr "1924-02-29"])
         (queries (world (serve demo_host GET_reports_profit_loss year_twenty_four))).
Proof.
  apply Forall_forall. intros [sql ps] HIn.
  refine (proj1 (proj2 (report_range_behind_utc demo_host GET_reports_profit_loss
                          year_twenty_four "0024-02"
                          (or_introl eq_refl) eq_refl eq_refl eq_refl _ _))
            sql ps HIn).
  - intros t. split; vm_compute; [reflexivity | discriminate].
  - vm_compute. discriminate.
Defined.

(** X8: on a server east of UTC (by a day at most) the range of either
    report ends a day early: [$2] is the day before the last day of that
    month, so what is dated on the last day is left out. *)
Theorem east_of_utc_drops_last_day h rt req s :
  is_report rt ->
  checkAdminOrStaff req = Next ->
  assoc "month" (query req) = Some (QStr s) ->
  month_re s = true ->
  ahead_of_utc h ->
  (range_year s <= 9999)%Z ->
  (forall sql ps,
      In (sql, ps) (queries (world (serve h rt req))) ->
      firstn 2 ps
      = [PStr (s ++ "-01");
         PStr (iso_day (range_year s) (range_month s)
                 (days_in_month (range_year s) (range_month s) - 1))])
  /\ (queries (world (serve h rt req)) <> []
      \/ response (serve h rt req) = invalid_branch).
Proof.
  intros R Mw M Re Tz HY.
  destruct (month_end_iso h s 1 Re (or_intror (conj eq_refl Tz)) HY)
    as (y4 & m2 & iso & Sp & I & St & E1 & E2).
  destruct (report_queries_range h rt req s y4 m2 iso _ R Mw M Re Sp I St E1 E2)
    as [A B].
  split; [|exact B]. intros sql ps HIn. exact (proj2 (A sql ps HIn)).
Qed.

Lemma east_of_utc_drops_last_day_witness :
  Forall (fun q : string * list param =>
            firstn 2 (snd q) = [PStr "2024-01-01"; PStr "2024-01-30"])
         (queries (world (serve kolkata_host GET_reports_monthly_collections january))).
Proof.
  apply Forall_forall. intros [sql ps] HIn.
  refine (proj1 (east_of_utc_drops_last_day kolkata_host
                   GET_reports_monthly_collections january "2024-01"
                   (or_intror eq_refl) eq_refl eq_refl eq_refl _ _)
            sql ps HIn).
  - intros t. split; vm_compute; [reflexivity | discriminate].
  - vm_compute. discriminate.
Defined.

(** X10: whenever GET /reports/monthly-collections answers 200, the
    month is a string, one query was sent, and the body is [{month,
    records}] with one record per row, in the order of the rows; in a
    record [studentId], [studentName], [email] and [phone] are the row's
    columns, [totalFee], [amountPaid] and [dueAmount] are numbers and never
    NaN, and [collected] and [due] are [parseFloat] of their columns as it
    is (NaN included). *)
Theorem monthly_collections_success_body h req :
  status (response (serve h GET_reports_monthly_collections req)) = 200%Z ->
  exists month ps rows,
    assoc "month" (query req) = Some (QStr month)
    /\ queries (world (serve h GET_reports_monthly_collections req))
       = [(monthlySql, ps)]
    /\ pool_query h monthlySql ps = inr rows
    /\ body (response (serve h GET_reports_monthly_collections req))
       = Json (VObj [("month", VStr month);
                     ("records", VArr (map (record_of_row h) rows))])
    /\ forall r,
         let record := record_of_row h r in
         get record "studentId" = field r "student_id"
         /\ get record "studentName" = field r "student_name"
         /\ get record "email" = field r "email"
         /\ get record "phone" = field r "phone"
         /\ (exists x, get record "totalFee" = VNum x /\ PrimFloat.is_nan x = false)
         /\ (exists x, get record "amountPaid" = VNum x /\ PrimFloat.is_nan x = false)
         /\ (exists x, get record "dueAmount" = VNum x /\ PrimFloat.is_nan x = false)
         /\ get record "collected" = VNum (parseFloat h (field r "total_collected"))
         /\ get record "due" = VNum (parseFloat h (field r "total_due")).
Proof.
  intros OK.
  destruct (report_served h GET_reports_monthly_collections req (or_intror eq_refl))
    as [(r & E & S) | (_ & [(D & _) | (_ & R)])]; [ | discriminate D | ].
  - rewrite S in OK. cbn [response] in OK.
    destruct (checkAdminOrStaff_cases req) as [(_ & E') | [(_ & _ & E') | (_ & _ & _ & E')]];
      rewrite E' in E; inversion E; subst r; discriminate OK.
  - destruct R as [G | err G S | parts err G S I | parts iso err G S I Q
                   | parts iso rows G S I Q]; try discriminate OK.
    destruct (split_method_inr _ _ _ _ S) as (month & M & _).
    exists month. eexists. exists rows.
    rewrite M. cbn [to_value qs_value world queries after response body res_json].
    split; [reflexivity|]. split; [reflexivity|]. split; [exact Q|].
    split; [reflexivity|].
    intros r. cbv zeta. unfold record_of_row.
    repeat split; try reflexivity;
      eexists; (split; [reflexivity | apply or_zero_number]).
Qed.

Lemma monthly_collections_success_body_witness :
  exists rows,
    body (response (serve demo_host GET_reports_monthly_collections february))
    = Json (VObj [("month", VStr "2024-02");
                  ("records", VArr (map (record_of_row demo_host) rows))]).
Proof.
  destruct (monthly_collections_success_body demo_host february eq_refl)
    as (month & ps & rows & M & _ & _ & B & _).
  inversion M; subst month. exists rows. exact B.
Defined.

(** X11: in the body of a 200 of GET /reports/profit-loss,
    [totalCollected] and [totalExpenses] are never NaN, and [profitLoss],
    their difference, is NaN only when both are infinities of the same
    sign. *)
Theorem profit_loss_totals_are_numbers h req :
  status (response (serve h GET_reports_profit_loss req)) = 200%Z ->
  exists v totalCollected totalExpenses,
    body (response (serve h GET_reports_profit_loss req)) = Json v
    /\ get v "totalCollected" = VNum totalCollected
    /\ get v "totalExpenses" = VNum totalExpenses
    /\ get v "profitLoss" = VNum (totalCollected - totalExpenses)%float
    /\ PrimFloat.is_nan totalCollected = false
    /\ PrimFloat.is_nan totalExpenses = false
    /\ (PrimFloat.is_nan (totalCollected - totalExpenses) = true ->
        PrimFloat.is_infinity totalCollected = true
        /\ PrimFloat.is_infinity totalExpenses = true
        /\ PrimFloat.eqb totalCollected totalExpenses = true).
Proof.
  intros OK.
  destruct (report_served h GET_reports_profit_loss req (or_introl eq_refl))
    as [(r & E & S) | (_ & [(_ & R) | (D & _)])]; [ | | discriminate D].
  - rewrite S in OK. cbn [response] in OK.
    destruct (checkAdminOrStaff_cases req) as [(_ & E') | [(_ & _ & E') | (_ & _ & _ & E')]];
      rewrite E' in E; inversion E; subst r; discriminate OK.
  - destruct R as [G | err G S | parts err G S I | parts iso G S I B
                   | parts iso cq eq ps r G S I B Q];
      try discriminate OK.
    destruct Q as [cq eq ps err Q1 | cq eq ps rowsC err Q1 Q2
                   | cq eq ps rowsC rowsE err Q1 Q2 R1
                   | cq eq ps rowsC rowsE c err Q1 Q2 R1 R2
                   | cq eq ps rowsC rowsE c e Q1 Q2 R1 R2];
      try discriminate OK.
    eexists. exists (or_zero (parseFloat h c)), (or_zero (parseFloat h e)).
    cbn [response body res_json].
    split; [reflexivity|]. unfold profit_loss_body.
    split; [reflexivity|]. split; [reflexivity|]. split; [reflexivity|].
    split; [apply or_zero_number|]. split; [apply or_zero_number|].
    apply sub_nan; apply or_zero_number.
Qed.

Lemma profit_loss_totals_are_numbers_witness :
  exists v totalCollected totalExpenses,
    body (response (serve demo_host GET_reports_profit_loss february)) = Json v
    /\ get v "profitLoss" = VNum (totalCollected - totalExpenses)%float
    /\ PrimFloat.is_nan (totalCollected - totalExpenses) = false.
Proof.
  destruct (profit_loss_totals_are_numbers demo_host february eq_refl)
    as (v & tc & te & B & C & X & P & Nc & Ne & F).
  exists v, tc, te. split; [exact B|]. split; [exact P|].
  destruct (PrimFloat.is_nan (tc - te)) eqn:N; [|reflexivity].
  destruct (F eq_refl) as (I & _).
  assert (V : body (response (serve demo_host GET_reports_profit_loss february))
              = Json (profit_loss_body (VStr "2024-02") 100.5 40))
    by reflexivity.
  rewrite V in B. injection B as <-. injection C as <-. discriminate I.
Defined.

Lemma digit_is_no_sign c :
  is_digit c = true ->
  is_space c = false /\ Ascii.eqb c "-" = false /\ Ascii.eqb c "+" = false.
Proof.
  destruct c as [[] [] [] [] [] [] [] []]; vm_compute; intros H;
    try discriminate H; repeat split.
Qed.

Lemma take_digits_app ds rest :
  all_digits ds = true -> no_leading_digit rest = true ->
  take_digits (ds ++ rest) = ds.
Proof.
  intros D N. induction ds as [| c r IH].
  - destruct rest as [| x rest]; [reflexivity|]. simpl in *.
    apply negb_true_iff in N. now rewrite N.
  - simpl in D. apply andb_true_iff in D. destruct D as [Dc Dr].
    simpl. rewrite Dc, IH by exact Dr. reflexivity.
Qed.

Lemma skip_spaces_digit c r :
  is_digit c = true -> skip_spaces (String c r) = String c r.
Proof.
  intros H.
  destruct c as [[] [] [] [] [] [] [] []]; try (vm_compute in H; discriminate H);
    destruct r as [| b [| x r3]]; reflexivity.
Qed.

(** [parseInt] reads the leading digits and ignores what follows. *)
Lemma parseInt10_leading_digits ds rest :
  ds <> "" -> all_digits ds = true -> no_leading_digit rest = true ->
  parseInt10 (ds ++ rest) = Some (nearest (digits_value 0 ds)).
Proof.
  intros NE D N.
  pose proof (take_digits_app ds rest D N) as T.
  destruct ds as [| c r]; [congruence|].
  simpl in D. apply andb_true_iff in D. destruct D as [Dc Dr].
  destruct (digit_is_no_sign c Dc) as (Sp & Mi & Pl).
  unfold parseInt10. cbn [append]. rewrite (skip_spaces_digit c _ Dc).
  assert (E : match String c (r ++ rest) with
              | String "-" rest0 => (true, rest0)
              | String "+" rest0 => (false, rest0)
              | _ => (false, String c (r ++ rest))
              end = (false, String c (r ++ rest))).
  { apply Ascii.eqb_neq in Mi, Pl.
    destruct c as [[] [] [] [] [] [] [] []]; try reflexivity; congruence. }
  rewrite E. cbn [append] in T. rewrite T. reflexivity.
Qed.

(** X12: a [branchId] needs only to start with digits: for a valid
    month and [branchId] a string of digits followed by anything that is
    not a digit ([12abc]), the digits denoting a number below 2^53 (which
    a double holds exactly), GET /reports/profit-loss does not answer 400;
    it sends its queries with the condition [AND branch_id = $3] and the
    number the leading digits denote as third parameter. *)
Theorem branch_id_leading_digits h req s ds rest :
  tz_bounded h ->
  checkAdminOrStaff req = Next ->
  assoc "month" (query req) = Some (QStr s) ->
  month_re s = true ->
  assoc "branchId" (query req) = Some (QStr (ds ++ rest)) ->
  ds <> "" -> all_digits ds = true -> no_leading_digit rest = true ->
  (digits_value 0 ds < 2 ^ 53)%Z ->
  let r := serve h GET_reports_profit_loss req in
  status (response r) <> 400%Z
  /\ queries (world r) <> []
  /\ forall sql ps,
       In (sql, ps) (queries (world r)) ->
       (sql = collectionsQuery0 ++ " AND branch_id = $3"
        \/ sql = expensesQuery0 ++ " AND branch_id = $3")
       /\ List.length ps = 3%nat
       /\ nth_error ps 2 = Some (PNum (JsNumber.int_float (digits_value 0 ds))).
Proof.
  intros Tz Mw M Re Br NE D N Small. cbv zeta.
  pose proof (parseInt10_leading_digits ds rest NE D N) as P.
  rewrite (NumberFacts.nearest_int_float (digits_value 0 ds)) in P
    by (split; [apply (digits_value_bounds ds 0 D); lia | exact Small]).
  pose proof (good_month_string req s M Re) as G.
  destruct (last_day_iso_defined h s Tz Re) as (y4 & m2 & iso & Sp & L).
  assert (SM : split_method "month" "-" (assoc "month" (query req)) = inr [y4; m2]).
  { rewrite M. cbn [split_method]. now rewrite Sp. }
  assert (T : qs_truthy (Some (QStr (ds ++ rest))) = true).
  { destruct ds; [congruence | reflexivity]. }
  destruct (served_profit_loss h req Mw)
    as [G' | err G' S | parts err G' S I' | parts iso' G' S I' B
       | parts iso' cq eq ps r G' S I' B Q]; try congruence.
  - rewrite SM in S. inversion S; subst parts. cbn [nth] in I'. congruence.
  - apply branch_filter_early in B. destruct B as (_ & _ & B).
    rewrite Br in B. cbn [toString qs_toString] in B. congruence.
  - unfold branch_filter in B. rewrite Br, T in B.
    cbn [toString qs_toString] in B. rewrite P in B.
    destruct Q; cbn [response status world queries after server_error res_status_json
                       res_json];
      (split; [discriminate|]); (split; [discriminate|]);
      intros sql' ps' HIn; cbn [In] in HIn; inversion B; subst;
      repeat (destruct HIn as [HIn | HIn]; [inversion HIn; subst; cbn; auto|]);
      contradiction.
Qed.

Lemma branch_id_leading_digits_witness :
  queries (world (serve demo_host GET_reports_profit_loss trailing_branch)) <> [].
Proof.
  refine (proj1 (proj2 (branch_id_leading_digits demo_host trailing_branch
                          "2024-02" "12" "abc" _ eq_refl eq_refl eq_refl eq_refl
                          _ eq_refl eq_refl eq_refl))).
  - intros t. vm_compute. discriminate.
  - discriminate.
Defined.

End ReportRouteFacts.

(** ** The menu of the sidebar *)

Module SidebarFacts.
Import Sidebar.

Lemma at_most_one {A : Type} (f : A -> string) (p : string) (l : list A) :
  NoDup (map f l) ->
  (List.length (filter (fun x => String.eqb p (f x)) l) <= 1)%nat.
Proof.
  induction l as [| x l IH]; intros N; [simpl; lia|].
  inversion N as [| ? ? Nx Nl]; subst. specialize (IH Nl). simpl.
  destruct (String.eqb p (f x)) eqn:E; [|exact IH].
  apply String.eqb_eq in E. subst p. simpl.
  assert (Z : filter (fun y => String.eqb (f x) (f y)) l = []).
  { clear IH N Nl. induction l as [| y l IH]; [reflexivity|]. simpl.
    destruct (String.eqb (f x) (f y)) eqn:E.
    - apply String.eqb_eq in E. exfalso. apply Nx. left. now symmetry.
    - apply IH. intros H. apply Nx. now right. }
  rewrite Z. simpl. lia.
Qed.

(** X13: clicks on the menu of the sidebar.  For every item of
    [menuItems]: a click never shows or hides the hostel dropdown (no item
    is labelled "Hostel"); the link is not followed exactly when the item
    is Students and the sidebar is not collapsed, and the click then
    toggles the student dropdown, a second click undoing the first; any
    other click follows the link and, on a phone, closes the sidebar.  And
    at most one item is marked active at a location. *)
Theorem menu_clicks (isMobile isCollapsed : bool) (st : SidebarState) (pathname : string) :
  Forall (fun item =>
            let click := onClick isMobile isCollapsed item st in
            showHostelDropdown (state_after click) = showHostelDropdown st
            /\ (defaultPrevented click = true
                <-> label item = "Students"
                    /\ effectiveIsCollapsed isMobile isCollapsed = false)
            /\ (defaultPrevented click = true ->
                state_after click
                = mkSidebarState (negb (showStudentDropdown st)) (showHostelDropdown st)
                    (isSidebarOpen st)
                /\ state_after (onClick isMobile isCollapsed item (state_after click)) = st)
            /\ (defaultPrevented click = false ->
                state_after click
                = mkSidebarState (showStudentDropdown st) (showHostelDropdown st)
                    (isSidebarOpen st && negb isMobile)))
         menuItems
  /\ (List.length (activeItems pathname) <= 1)%nat.
Proof.
  split.
  - destruct st as [a b c], isMobile, isCollapsed, a, b, c;
      repeat constructor; try discriminate;
      try (intros [D _]; discriminate D); try (intros [_ D]; discriminate D).
  - unfold activeItems, isActive. apply at_most_one.
    repeat constructor; cbn; intuition discriminate.
Qed.

End SidebarFacts.

(** ** The rest of AllStudents *)

Module StudentPageFacts.
Import AllStudents AllStudentsFacts JsFacts.
(** *** Pages *)

Lemma slice_nonneg {A : Type} (xs : list A) (a b : Z) :
  (0 <= a)%Z -> (0 <= b)%Z ->
  slice xs a b = firstn (Z.to_nat b - Z.to_nat a) (skipn (Z.to_nat a) xs).
Proof.
  intros Ha Hb. unfold slice.
  replace (a <? 0)%Z with false by (symmetry; apply Z.ltb_ge; lia).
  replace (b <? 0)%Z with false by (symmetry; apply Z.ltb_ge; lia).
  set (len := Z.of_nat (List.length xs)).
  destruct (Z_le_gt_dec a len) as [La | La].
  - rewrite (Z.min_l a len) by lia.
    destruct (Z_le_gt_dec b len) as [Lb | Lb].
    + rewrite (Z.min_l b len) by lia. f_equal. lia.
    + rewrite (Z.min_r b len) by lia.
      assert (L : List.length (skipn (Z.to_nat a) xs) = (List.length xs - Z.to_nat a)%nat)
        by apply length_skipn.
      rewrite !firstn_all2; try reflexivity; rewrite L; subst len; lia.
  - rewrite (Z.min_r a len) by lia.
    assert (E : skipn (Z.to_nat a) xs = []) by (apply skipn_all2; subst len; lia).
    assert (E' : skipn (Z.to_nat len) xs = [])
      by (apply skipn_all2; subst len; lia).
    rewrite E, E'. now rewrite !firstn_nil.
Qed.

Lemma ceil_div_spec n d :
  (0 < d)%Z -> (d * (ceil_div n d - 1) < n <= d * ceil_div n d)%Z.
Proof. intros H. unfold ceil_div. Z.div_mod_to_equations. lia. Qed.

(** Page [p] (from 1) of a list, [n] to the page. *)
Lemma page_is_chunk (l : list Student) (p n : nat) :
  currentStudents l (Z.of_nat p + 1) (Z.of_nat n) = firstn n (skipn (p * n) l).
Proof.
  unfold currentStudents, indexOfFirstStudent, indexOfLastStudent.
  rewrite slice_nonneg by lia.
  f_equal; [lia | f_equal; lia].
Qed.

Lemma chunks_concat {A : Type} (n : nat) : forall (k : nat) (l : list A),
  (List.length l <= k * n)%nat ->
  List.concat (map (fun p => firstn n (skipn (p * n) l)) (seq 0 k)) = l.
Proof.
  induction k as [| k IH]; intros l H.
  - destruct l; [reflexivity | simpl in H; lia].
  - cbn [seq]. rewrite <- seq_shift, map_cons, map_map. cbn [List.concat].
    rewrite (map_ext _ (fun p => firstn n (skipn (p * n) (skipn n l)))).
    + rewrite IH by (rewrite length_skipn; simpl in H; lia).
      cbn [Nat.mul skipn]. apply firstn_skipn.
    + intros p. rewrite skipn_skipn. f_equal. f_equal. lia.
Qed.

(** X14: the pages 1 to [totalPages] are the filtered list cut into
    consecutive pieces: put end to end they give the list back, and each
    holds at least one student and at most [studentsPerPage]. *)
Theorem pages_partition (filteredStudents : list Student) (studentsPerPage : Z) :
  (0 < studentsPerPage)%Z ->
  List.concat (pages filteredStudents studentsPerPage) = filteredStudents
  /\ Forall (fun page => (1 <= Z.of_nat (List.length page) <= studentsPerPage)%Z)
            (pages filteredStudents studentsPerPage).
Proof.
  intros H. unfold pages.
  set (n := Z.to_nat studentsPerPage).
  assert (En : studentsPerPage = Z.of_nat n) by (subst n; lia).
  pose proof (ceil_div_spec (Z.of_nat (List.length filteredStudents)) studentsPerPage H)
    as C.
  fold (totalPages filteredStudents studentsPerPage) in C.
  set (k := Z.to_nat (totalPages filteredStudents studentsPerPage)).
  assert (Ek : totalPages filteredStudents studentsPerPage = Z.of_nat k) by (subst k; nia).
  rewrite Ek, En in C.
  assert (M : map (fun p => currentStudents filteredStudents (Z.of_nat p + 1) studentsPerPage)
                  (seq 0 k)
              = map (fun p => firstn n (skipn (p * n) filteredStudents)) (seq 0 k)).
  { apply map_ext. intros p. rewrite En. apply page_is_chunk. }
  rewrite M. split.
  - apply chunks_concat. nia.
  - apply Forall_forall. intros page HIn. apply in_map_iff in HIn.
    destruct HIn as (p & <- & Hp). apply in_seq in Hp.
    rewrite length_firstn, length_skipn. nia.
Qed.

Lemma pages_partition_witness :
  List.concat (pages class 2) = class.
Proof.
  refine (proj1 (pages_partition class 2 _)). reflexivity.
Defined.

Lemma nth_error_chunk {A : Type} (l : list A) (n k i : nat) :
  nth_error (firstn n (skipn k l)) i
  = if (i <? n)%nat then nth_error l (k + i) else None.
Proof.
  destruct (Nat.ltb_spec i n) as [L | G].
  - rewrite nth_error_firstn.
    replace (i <? n)%nat with true by (symmetry; apply Nat.ltb_lt; exact L).
    apply nth_error_skipn.
  - apply nth_error_None. rewrite length_firstn. lia.
Qed.

(** X15: what a page shows, and where the pager goes.  Entry [i] of
    page [currentPage] is entry [indexOfFirstStudent + i] of the filtered
    list, for [i] below [studentsPerPage]; the page is not empty exactly
    when [currentPage] is at most [totalPages]; and from such a page the
    two buttons of the pager lead to a page from 1 to [totalPages], staying
    put exactly on the first and on the last page. *)
Theorem page_contents (filteredStudents : list Student)
    (currentPage studentsPerPage : Z) :
  (0 < studentsPerPage)%Z -> (1 <= currentPage)%Z ->
  let pageCount := totalPages filteredStudents studentsPerPage in
  let page := currentStudents filteredStudents currentPage studentsPerPage in
  (forall i : nat,
      nth_error page i
      = if (Z.of_nat i <? studentsPerPage)%Z
        then nth_error filteredStudents
               (Z.to_nat (indexOfFirstStudent currentPage studentsPerPage) + i)
        else None)
  /\ (page <> [] <-> (currentPage <= pageCount)%Z)
  /\ ((currentPage <= pageCount)%Z ->
      (1 <= previousPage currentPage <= pageCount)%Z
      /\ (1 <= nextPage pageCount currentPage <= pageCount)%Z
      /\ (previousPage currentPage = currentPage <-> currentPage = 1%Z)
      /\ (nextPage pageCount currentPage = currentPage <-> currentPage = pageCount)).
Proof.
  intros Hn Hp. cbv zeta.
  assert (E : exists p n, currentPage = (Z.of_nat p + 1)%Z
                          /\ studentsPerPage = Z.of_nat n /\ (0 < n)%nat).
  { exists (Z.to_nat (currentPage - 1)), (Z.to_nat studentsPerPage). lia. }
  destruct E as (p & n & -> & -> & Pn). clear Hn Hp.
  pose proof (ceil_div_spec (Z.of_nat (List.length filteredStudents)) (Z.of_nat n)
                ltac:(lia)) as C.
  fold (totalPages filteredStudents (Z.of_nat n)) in C.
  assert (F : Z.to_nat (indexOfFirstStudent (Z.of_nat p + 1) (Z.of_nat n)) = (p * n)%nat).
  { unfold indexOfFirstStudent, indexOfLastStudent. nia. }
  rewrite F, page_is_chunk.
  split; [|split].
  - intros i. rewrite nth_error_chunk.
    destruct (Nat.ltb_spec i n), (Z.ltb_spec (Z.of_nat i) (Z.of_nat n));
      try lia; reflexivity.
  - assert (L : List.length (firstn n (skipn (p * n) filteredStudents))
                = Nat.min n (List.length filteredStudents - p * n))
      by (rewrite length_firstn, length_skipn; reflexivity).
    destruct (firstn n (skipn (p * n) filteredStudents)) as [| x page] eqn:E.
    + split; [congruence|]. intros Le. simpl in L. exfalso. nia.
    + split; [|discriminate]. intros _. simpl in L. nia.
  - intros Le. unfold previousPage, nextPage. lia.
Qed.

Lemma page_contents_witness :
  currentStudents class 2 2 <> [] <-> (2 <= totalPages class 2)%Z.
Proof.
  refine (proj1 (proj2 (page_contents class 2 2 _ _))); lia.
Defined.

(** *** Deleting *)

Lemma filter_idem {A : Type} (f : A -> bool) (l : list A) :
  filter f (filter f l) = filter f l.
Proof.
  induction l as [| x l IH]; [reflexivity|]. simpl.
  destruct (f x) eqn:E; simpl; rewrite ?E, IH; reflexivity.
Qed.

(** X16: what [handleDelete] leaves.  When the user confirms and the
    server deletes, [students] loses exactly the students whose [id] is
    strictly equal to the one deleted, the others keeping their order, and
    deleting the same id again changes nothing; when the user declines or
    the request fails, [students] is unchanged. *)
Theorem handleDelete_spec (env : DeleteEnv) (students : list Student) (id : float) :
  let confirmed := confirm env "Are you sure you want to delete this student?" in
  let students' := fst (handleDelete env students id) in
  (confirmed = true -> deleteStudent env id = None ->
   (forall student,
       In student students'
       <-> In student students /\ PrimFloat.eqb (AllStudents.id student) id = false)
   /\ Subseq students' students
   /\ fst (handleDelete env students' id) = students')
  /\ (confirmed = false \/ deleteStudent env id <> None -> students' = students).
Proof.
  cbv zeta. unfold handleDelete.
  destruct (confirm env _); [destruct (deleteStudent env id) as [e |] eqn:D|];
    cbn [fst]; (split; [intros C N; try discriminate | intros [C | N]; try congruence]).
  - split; [|split].
    + intros student. rewrite filter_In, negb_true_iff. reflexivity.
    + apply filter_Subseq.
    + apply filter_idem.
Qed.

(** *** The WhatsApp link *)

(** X17: the WhatsApp link is [https://wa.me/] followed by digits only:
    the digits of the phone, a phone of digits alone being taken as it is,
    and a character that is not a digit making no difference wherever it
    stands. *)
Theorem whatsappUrl_digits (phone : string) :
  exists digits,
    whatsappUrl phone = "https://wa.me/" ++ digits
    /\ Js.all_digits digits = true
    /\ (Js.all_digits phone = true -> digits = phone)
    /\ (forall a b, phone = a ++ b -> digits = cleanedPhone a ++ cleanedPhone b)
    /\ (forall c a b,
           Js.is_digit c = false -> phone = a ++ String c b ->
           whatsappUrl phone = whatsappUrl (a ++ b)).
Proof.
  assert (App : forall a b, cleanedPhone (a ++ b) = cleanedPhone a ++ cleanedPhone b).
  { intros a b. induction a as [| c r IH]; [reflexivity|]. simpl.
    destruct (Js.is_digit c); simpl; now rewrite IH. }
  exists (cleanedPhone phone).
  split; [reflexivity|]. split; [|split; [|split]].
  - induction phone as [| c r IH]; [reflexivity|]. simpl.
    destruct (Js.is_digit c) eqn:D; [|exact IH]. simpl. now rewrite D, IH.
  - induction phone as [| c r IH]; [reflexivity|]. simpl. intros H.
    apply andb_true_iff in H. destruct H as [Hc Hr]. now rewrite Hc, IH.
  - intros a b ->. apply App.
  - intros c a b D ->. unfold whatsappUrl. rewrite !App. simpl. now rewrite D.
Qed.

(** *** Students as fetched *)

(** X18: a student fetched without a registration number gets the
    registration number "N/A" and is therefore found by every search term
    that "N/A" contains, case-insensitively ([n], [a], [/], [n/a]). *)
Theorem missing_registration_matches_na parse now (summary : StudentSummary)
    (sortedStudents : list Student) (searchTerm : string) :
  In (updatedStudent parse now summary) sortedStudents ->
  summary_registrationNumber summary = None
  \/ summary_registrationNumber summary = Some "" ->
  contains_ci "N/A" searchTerm ->
  registrationNumber (updatedStudent parse now summary) = Some "N/A"
  /\ In (updatedStudent parse now summary) (filteredStudents sortedStudents searchTerm).
Proof.
  intros HIn Missing C.
  assert (R : registrationNumber (updatedStudent parse now summary) = Some "N/A").
  { unfold updatedStudent. cbn [registrationNumber].
    destruct Missing as [-> | ->]; reflexivity. }
  split; [exact R|].
  unfold filteredStudents. apply filter_In. split; [exact HIn|].
  apply matches_iff. right. right. exists "N/A". auto.
Qed.

Lemma missing_registration_matches_na_witness :
  In (updatedStudent no_parse 0 bare_summary)
     (filteredStudents [updatedStudent no_parse 0 bare_summary] "n/a").
Proof.
  refine (proj2 (missing_registration_matches_na no_parse 0 bare_summary
                   [updatedStudent no_parse 0 bare_summary] "n/a"
                   (or_introl eq_refl) (or_introl eq_refl) _)).
  exists "", "N/A", "". split; reflexivity.
Defined.

Lemma or_default_filled s d : d <> "" -> or_default s d <> "".
Proof.
  intros N. unfold or_default. destruct s as [x |]; [|exact N].
  destruct (String.eqb x "") eqn:E; [exact N|]. now apply String.eqb_neq.
Qed.

(** X29: what [fetchStudents] leaves.  [loading] ends false; when the
    request fails [students] is unchanged and one error toast is raised;
    when it succeeds [students] holds one student per student of the
    response, in order, with the same id, name, phone, membership end and
    seat, a registration number and a creation date that are never empty,
    and the status ['expired'] when the membership end is read as an
    instant before now, the status of the response when it is not read at
    all, and one of the two in any case. *)
Theorem fetchStudents_spec (api : StudentsApi) (students : list Student)
    (fromDate toDate : string) (selectedBranchId : option float) :
  let r := fetchStudents api students fromDate toDate selectedBranchId in
  let answer := getStudents api (or_undefined fromDate) (or_undefined toDate)
                  selectedBranchId in
  fetched_loading r = false
  /\ (forall err, answer = inl err ->
      fetched r = students
      /\ fetched_toasts r = [error_toast "Failed to fetch students"])
  /\ (forall summaries, answer = inr summaries ->
      fetched_toasts r = []
      /\ List.length (fetched r) = List.length summaries
      /\ forall i summary,
           nth_error summaries i = Some summary ->
           exists student,
             nth_error (fetched r) i = Some student
             /\ id student = summary_id summary
             /\ name student = summary_name summary
             /\ phone student = summary_phone summary
             /\ membershipEnd student = summary_membershipEnd summary
             /\ seatNumber student = summary_seatNumber summary
             /\ (exists n, registrationNumber student = Some n /\ n <> "")
             /\ createdAt student <> ""
             /\ (status student = "expired"
                 \/ status student = summary_status summary)
             /\ (forall t, parse api (summary_membershipEnd summary) = Some t ->
                           (Z.abs t <= 8640000000000000)%Z -> (t < now api)%Z ->
                           status student = "expired")
             /\ (parse api (summary_membershipEnd summary) = None ->
                 status student = summary_status summary)).
Proof.
  cbv zeta. unfold fetchStudents.
  destruct (getStudents api _ _ _) as [err | summaries].
  - split; [reflexivity|]. split; [intros e _; split; reflexivity|].
    intros ss D. discriminate D.
  - split; [reflexivity|]. split; [intros e D; discriminate D|].
    intros ss E. inversion E; subst ss. cbn [fetched fetched_toasts].
    split; [reflexivity|]. split; [apply length_map|].
    intros i summary H. rewrite nth_error_map, H. cbn [option_map].
    eexists. split; [reflexivity|].
    unfold updatedStudent.
    cbn [id name phone membershipEnd seatNumber registrationNumber createdAt status].
    repeat (split; [reflexivity|]).
    split; [eexists; split; [reflexivity | apply or_default_filled; discriminate]|].
    split; [apply or_default_filled; discriminate|].
    split; [|split].
    + destruct (newDate _ _) as [t |]; [destruct (t <? now api)%Z|]; auto.
    + intros t P B L. unfold newDate, JsDate.TimeClip. rewrite P.
      apply Z.leb_le in B. rewrite B.
      apply Z.ltb_lt in L. now rewrite L.
    + intros P. unfold newDate. now rewrite P.
Qed.

(** *** Dates in the table *)

Lemma year_string_free_T y : Js.free_of "T" (JsDate.year_string y) = true.
Proof.
  unfold JsDate.year_string.
  destruct ((0 <=? y)%Z && (y <=? 9999)%Z); [apply pad_digits_free_T|].
  rewrite free_of_app, pad_digits_free_T.
  destruct (y <? 0)%Z; reflexivity.
Qed.

(** X19: what [formatDate] gives: "N/A" for [undefined] and for the
    empty string; a RangeError for a string [Date.parse] does not read; and
    for one it reads, the year, month and day of that instant in UTC, as
    [YYYY-MM-DD]. *)
Theorem formatDate_spec parse (dateString : option string) :
  (dateString = None \/ dateString = Some "" ->
   formatDate parse dateString = inr "N/A")
  /\ (forall s, dateString = Some s -> s <> "" ->
      parse s = None ->
      formatDate parse dateString = inl (Js.RangeError "Invalid time value"))
  /\ (forall s t, dateString = Some s -> s <> "" ->
      parse s = Some t -> (Z.abs t <= 8640000000000000)%Z ->
      formatDate parse dateString
      = inr (JsDate.year_string (JsDate.YearFromTime t) ++ "-"
             ++ Js.pad_digits 2 (JsDate.MonthFromTime t + 1) ++ "-"
             ++ Js.pad_digits 2 (JsDate.DateFromTime t))).
Proof.
  split; [|split].
  - intros [-> | ->]; reflexivity.
  - intros s -> N P. unfold formatDate, newDate.
    apply String.eqb_neq in N. now rewrite N, P.
  - intros s t -> N P B. unfold formatDate, newDate.
    apply String.eqb_neq in N. rewrite N, P.
    unfold JsDate.TimeClip. apply Z.leb_le in B. rewrite B.
    cbn [JsDate.toISOString]. f_equal.
    set (d := JsDate.year_string (JsDate.YearFromTime t) ++ "-"
              ++ Js.pad_digits 2 (JsDate.MonthFromTime t + 1) ++ "-"
              ++ Js.pad_digits 2 (JsDate.DateFromTime t)).
    match goal with |- nth 0 (Js.split "T" ?x) _ = _ =>
      replace x with (d ++ String "T"
                        (Js.pad_digits 2 (JsDate.HourFromTime t) ++ ":"
                         ++ Js.pad_digits 2 (JsDate.MinFromTime t) ++ ":"
                         ++ Js.pad_digits 2 (JsDate.SecFromTime t) ++ "."
                         ++ Js.pad_digits 3 (JsDate.msFromTime t) ++ "Z"))
        by (subst d; rewrite !append_assoc; reflexivity)
    end.
    rewrite split_free; [reflexivity|].
    subst d. rewrite !free_of_app, year_string_free_T, !pad_digits_free_T. reflexivity.
Qed.

(** X20: a student fetched without a creation date gets [createdAt]
    "N/A", and [formatDate] of it, as the table calls it for every row,
    throws a RangeError (where [Date.parse] does not read "N/A"). *)
Theorem missing_createdAt_breaks_formatDate parse now (summary : StudentSummary) :
  parse "N/A" = None ->
  summary_createdAt summary = None \/ summary_createdAt summary = Some "" ->
  createdAt (updatedStudent parse now summary) = "N/A"
  /\ formatDate parse (Some (createdAt (updatedStudent parse now summary)))
     = inl (Js.RangeError "Invalid time value").
Proof.
  intros P Missing.
  assert (C : createdAt (updatedStudent parse now summary) = "N/A").
  { unfold updatedStudent. cbn [createdAt].
    destruct Missing as [-> | ->]; reflexivity. }
  split; [exact C|]. rewrite C. unfold formatDate, newDate. cbn. now rewrite P.
Qed.

Lemma missing_createdAt_breaks_formatDate_witness :
  formatDate no_parse (Some (createdAt (updatedStudent no_parse 0 bare_summary)))
  = inl (Js.RangeError "Invalid time value").
Proof.
  exact (proj2 (missing_createdAt_breaks_formatDate no_parse 0 bare_summary
                  eq_refl (or_introl eq_refl))).
Defined.

(** *** Sorting state *)

(** X21: [handleSort] selects the column clicked and reverses the
    direction of that column alone; a second click on the same column
    restores both directions. *)
Theorem handleSort_toggles (col : column) (st : Sorting) :
  sortColumn (handleSort col st) = Some col
  /\ handleSort col (handleSort col st)
     = mkSorting (Some col) (createdAtSortDirection st) (seatSortDirection st)
  /\ match col with
     | createdAtColumn =>
         seatSortDirection (handleSort col st) = seatSortDirection st
         /\ createdAtSortDirection (handleSort col st) <> createdAtSortDirection st
     | seatNumberColumn =>
         createdAtSortDirection (handleSort col st) = createdAtSortDirection st
         /\ seatSortDirection (handleSort col st) <> seatSortDirection st
     end.
Proof.
  destruct col, st as [c [] []]; cbn; repeat split; discriminate.
Qed.

End StudentPageFacts.

(** ** The rest of CollectionDue *)

Module CollectionPageFacts.
Import CollectionDue FloatFacts.
(** *** Loading *)

Lemma map_throwing_inr f xs ys :
  map_throwing f xs = inr ys -> Forall2 (fun x y => f x = inr y) xs ys.
Proof.
  revert ys. induction xs as [| x xs IH]; intros ys H; simpl in H.
  - inversion H. constructor.
  - destruct (f x) as [e | y] eqn:Fx; [discriminate H|].
    destruct (map_throwing f xs) as [e | ys'] eqn:M; [discriminate H|].
    inversion H; subst. constructor; [exact Fx | now apply IH].
Qed.

Lemma Forall2_nth {A B : Type} (R : A -> B -> Prop) xs ys :
  Forall2 R xs ys ->
  List.length ys = List.length xs
  /\ forall i y, nth_error ys i = Some y ->
                 exists x, nth_error xs i = Some x /\ R x y.
Proof.
  induction 1 as [| x y xs ys Rxy F [L IH]].
  - split; [reflexivity|]. intros [| i] y H; discriminate H.
  - split; [simpl; congruence|].
    intros [| i] y' H; simpl in *.
    + inversion H; subst. eauto.
    + now apply IH.
Qed.

Lemma or_else_truthy v d : Js.truthy d = true -> Js.truthy (or_else v d) = true.
Proof. intros H. unfold or_else. destruct (Js.truthy v) eqn:T; assumption. Qed.

(** X22: a load takes every record or none.  [loadCollections] always
    ends with [loading] false, and either [collections] holds one object
    per record the server sent, in order, none of the records being [null]
    or [undefined], each object with the record's [historyId], its six
    amounts as numbers that are never NaN and a [phone] that is never
    empty, and no toast is raised; or [collections] is empty and one error
    toast with a message is raised. *)
Theorem loadCollections_all_or_nothing (api : CollectionsApi) (selectedMonth : string)
    (selectedBranchId : option float) :
  let r := loadCollections api selectedMonth selectedBranchId in
  loading r = false
  /\ ((exists data items,
         getCollections api (load_params selectedMonth selectedBranchId) = inr data
         /\ Js.get data "collections" = Js.VArr items
         /\ load_toasts r = []
         /\ List.length (loaded r) = List.length items
         /\ forall i c',
              nth_error (loaded r) i = Some c' ->
              exists c,
                nth_error items i = Some c
                /\ c <> Js.VNull /\ c <> Js.VUndefined
                /\ Js.get c' "historyId" = Js.get c "historyId"
                /\ (forall k,
                       In k ["totalFee"; "amountPaid"; "dueAmount"; "cash";
                             "online"; "securityMoney"] ->
                       exists x, Js.get c' k = Js.VNum x
                                 /\ PrimFloat.is_nan x = false)
                /\ Js.truthy (Js.get c' "phone") = true)
      \/ (loaded r = []
          /\ exists msg, load_toasts r = [toast_error msg] /\ msg <> "")).
Proof.
  cbv zeta. unfold loadCollections.
  assert (Msg : forall err,
             (if String.eqb (Js.message err) ""
              then "Failed to load collection data." else Js.message err) <> "").
  { intros err. destruct (String.eqb (Js.message err) "") eqn:E; [discriminate|].
    now apply String.eqb_neq. }
  assert (Failed : forall err,
             loading (mkLoaded [] false
                        [toast_error (if String.eqb (Js.message err) ""
                                      then "Failed to load collection data."
                                      else Js.message err)]) = false
             /\ forall P : Prop,
                  P \/ ([] = @nil Js.value
                        /\ exists msg,
                             [toast_error (if String.eqb (Js.message err) ""
                                           then "Failed to load collection data."
                                           else Js.message err)]
                             = [toast_error msg] /\ msg <> "")).
  { intros err. split; [reflexivity|]. intros P. right. split; [reflexivity|].
    eexists. split; [reflexivity | apply Msg]. }
  destruct (getCollections api _) as [err | data] eqn:G.
  { split; [reflexivity | apply Failed]. }
  destruct (Js.truthy data); cbn [negb].
  2:{ split; [reflexivity | apply Failed]. }
  destruct (Js.get data "collections") as [| | | | | items |] eqn:C;
    try (split; [reflexivity | apply (Failed invalid_data)]).
  destruct (map_throwing (mappedCollection api) items) as [err | mapped] eqn:M.
  { split; [reflexivity | apply Failed]. }
  split; [reflexivity|]. left. exists data, items.
  destruct (Forall2_nth _ _ _ (map_throwing_inr _ _ _ M)) as [L N].
  cbn [loaded load_toasts].
  repeat split; try assumption.
  intros i c' H. destruct (N i c' H) as (c & Hc & F).
  exists c. split; [exact Hc|].
  unfold mappedCollection in F.
  destruct (Js.prop c "historyId") as [e | hid] eqn:P; [discriminate F|].
  assert (Pc : c <> Js.VNull /\ c <> Js.VUndefined /\ hid = Js.get c "historyId").
  { destruct c; simpl in P; try discriminate P; inversion P;
      repeat split; congruence. }
  destruct Pc as (N1 & N2 & ->).
  inversion F; subst c'. repeat split; try assumption.
  - intros k [<- | [<- | [<- | [<- | [<- | [<- | []]]]]]];
      eexists; (split; [reflexivity | apply or_zero_number]).
  - cbn. now apply or_else_truthy.
Qed.

Lemma loadCollections_rejects_null :
  loaded (loadCollections careless_api "2024-02" None) = [].
Proof. reflexivity. Qed.

(** *** The table *)

Lemma includes_empty hay : Js.includes hay "" = true.
Proof. destruct hay; reflexivity. Qed.

Lemma filter_all {A : Type} (f : A -> bool) (l : list A) :
  (forall x, f x = true) -> filter f l = l.
Proof.
  intros H. induction l as [| x l IH]; [reflexivity|]. simpl. now rewrite H, IH.
Qed.

(** X23: what the table of collections shows, [toLowerCase] being the
    engine's.  An entry is in [filteredCollections] exactly when it is in
    [collections], the lower-cased search term is included in its
    lower-cased name or phone or in the student id as printed, and, with
    "show only due" ticked, its due amount is above zero.  For a search
    term, a name and a phone in ASCII that is: the name or the phone
    contains the search term up to the case of the letters, or the printed
    student id includes it lower-cased.  The table keeps the order of
    [collections], ticking the box only removes rows, and with an empty
    search and the box unticked the table is [collections] itself. *)
Theorem filteredCollections_spec (toLowerCase : string -> string)
    (toString : float -> string)
    (collections : list Collection) (searchTerm : string) (showOnlyDue : bool) :
  AllStudents.lowers_ascii toLowerCase ->
  let shown := filteredCollections toLowerCase toString collections searchTerm in
  (forall col,
      In col (shown showOnlyDue)
      <-> In col collections
          /\ (Js.includes (toLowerCase (name col)) (toLowerCase searchTerm) = true
              \/ Js.includes (toString (studentId col)) (toLowerCase searchTerm)
                 = true
              \/ Js.includes (toLowerCase (phone col)) (toLowerCase searchTerm)
                 = true)
          /\ (showOnlyDue = true -> PrimFloat.ltb 0 (dueAmount col) = true))
  /\ (AllStudents.ascii_text searchTerm = true ->
      forall col,
        AllStudents.ascii_text (name col) = true ->
        AllStudents.ascii_text (phone col) = true ->
        (In col (shown showOnlyDue)
         <-> In col collections
             /\ (AllStudents.occurs_up_to_case (name col) searchTerm
                 \/ Js.includes (toString (studentId col))
                      (Js.toLowerCase searchTerm) = true
                 \/ AllStudents.occurs_up_to_case (phone col) searchTerm)
             /\ (showOnlyDue = true -> PrimFloat.ltb 0 (dueAmount col) = true)))
  /\ AllStudents.Subseq (shown showOnlyDue) collections
  /\ AllStudents.Subseq (shown true) (shown false)
  /\ filteredCollections toLowerCase toString collections "" false = collections.
Proof.
  intros L shown. subst shown.
  assert (S : forall col,
             In col (filteredCollections toLowerCase toString collections searchTerm
                       showOnlyDue)
             <-> In col collections
                 /\ (Js.includes (toLowerCase (name col)) (toLowerCase searchTerm)
                     = true
                     \/ Js.includes (toString (studentId col))
                          (toLowerCase searchTerm) = true
                     \/ Js.includes (toLowerCase (phone col))
                          (toLowerCase searchTerm) = true)
                 /\ (showOnlyDue = true -> PrimFloat.ltb 0 (dueAmount col) = true)).
  { intros col. unfold filteredCollections, searched. cbv zeta.
    destruct showOnlyDue; rewrite !filter_In, !orb_true_iff; intuition congruence. }
  split; [exact S|]. split; [|split; [|split]].
  - intros At col An Ap. rewrite S.
    rewrite (L _ At), (L _ An), (L _ Ap), !AllStudentsFacts.includes_up_to_case.
    reflexivity.
  - unfold filteredCollections. cbv zeta. destruct showOnlyDue.
    + assert (T : forall (A : Type) (a b c : list A),
                 AllStudents.Subseq a b -> AllStudents.Subseq b c ->
                 AllStudents.Subseq a c).
      { intros A a b c H1 H2. revert a H1.
        induction H2 as [| x l1 l2 H IH | x l1 l2 H IH]; intros a H1.
        - exact H1.
        - inversion H1; subst; constructor; auto.
        - constructor. auto. }
      eapply T; apply AllStudentsFacts.filter_Subseq.
    + apply AllStudentsFacts.filter_Subseq.
  - unfold filteredCollections. cbv zeta. apply AllStudentsFacts.filter_Subseq.
  - unfold filteredCollections. cbv zeta. apply filter_all.
    intros col. unfold searched. cbv zeta. rewrite (L "" eq_refl).
    cbn [Js.toLowerCase]. now rewrite includes_empty.
Qed.

Lemma filteredCollections_spec_witness :
  In whole_sample
     (filteredCollections Js.toLowerCase seven_hundred [whole_sample] "SIT" true).
Proof.
  refine (proj2 (proj1 (proj2 (filteredCollections_spec Js.toLowerCase seven_hundred
                                 [whole_sample] "SIT" true (fun s _ => eq_refl)))
                   eq_refl whole_sample eq_refl eq_refl) _).
  split; [left; reflexivity|]. split; [|reflexivity].
  left. apply AllStudentsFacts.includes_up_to_case. reflexivity.
Defined.

(** *** Paying a due *)

(** X24: [handlePaymentSubmit] sends the request exactly when a
    collection and a method are selected, the amount is not empty, and the
    payment is a number above zero that does not exceed the due amount of
    the selected collection; otherwise the state is left as it is and one
    error toast is raised.  While the request is in flight the dialogue is
    closed, [isSubmitting] is true and the optimistic list is shown; when
    the handler is done [isSubmitting] is false, and after a success the
    list shown stays and the success toast is raised. *)
Theorem payment_request_is_validated (env : Env) (st : State) :
  let run := handlePaymentSubmit env st in
  let payment := parseFloat env (paymentAmount st) in
  (pending run <> None
   <-> exists selected meth,
         selectedCollection st = Some selected
         /\ paymentMethod st = Some meth
         /\ paymentAmount st <> ""
         /\ PrimFloat.ltb 0 payment = true
         /\ PrimFloat.ltb (dueAmount selected) payment = false)
  /\ (pending run = None ->
      final run = st /\ exists msg, toasts run = [toast_error msg])
  /\ (forall shown,
         pending run = Some shown ->
         isSubmitting shown = true /\ isPayModalOpen shown = false
         /\ isSubmitting (final run) = false
         /\ isPayModalOpen (final run) = false
         /\ forall selected meth,
              selectedCollection st = Some selected ->
              paymentMethod st = Some meth ->
              collections shown
              = updatedCollections (collections st) selected meth payment
              /\ (updateCollectionPayment env (historyId selected) payment meth = None ->
                  collections (final run) = collections shown
                  /\ toasts run = [toast_success "Payment updated successfully!"])).
Proof.
  cbv zeta. unfold handlePaymentSubmit.
  destruct (selectedCollection st) as [selected |];
    [destruct (paymentMethod st) as [meth |];
     [destruct (String.eqb (paymentAmount st) "") eqn:A; cbn [negb] | ] | ].
  - (* no amount *)
    apply String.eqb_eq in A. cbn [pending final toasts].
    split; [split; [congruence | intros (s & m & _ & _ & N & _); congruence]|].
    split; [eauto | discriminate].
  - apply String.eqb_neq in A.
    set (p := parseFloat env (paymentAmount st)).
    destruct (PrimFloat.is_nan p || PrimFloat.leb p 0
              || PrimFloat.ltb (dueAmount selected) p) eqn:V.
    + (* invalid amount *)
      cbn [pending final toasts].
      split; [split; [congruence|]|split; [eauto | discriminate]].
      intros (s & m & Es & _ & _ & P & D). inversion Es; subst s.
      apply positive_iff in P. destruct P as [N L].
      rewrite N, L, D in V. discriminate V.
    + apply orb_false_iff in V. destruct V as [V D].
      apply orb_false_iff in V. destruct V as [N L].
      assert (P : PrimFloat.ltb 0 p = true) by (apply positive_iff; auto).
      destruct (updateCollectionPayment env (historyId selected) p meth) as [err |] eqn:U;
        cbn [pending final toasts];
        (split; [split; [intros _; exists selected, meth; auto | discriminate]|]);
        (split; [discriminate|]);
        intros shown E; inversion E; subst shown;
        cbn [isSubmitting isPayModalOpen collections];
        (split; [reflexivity|]); (split; [reflexivity|]);
        (split; [reflexivity|]); (split; [reflexivity|]);
        intros s m Es Em; inversion Es; inversion Em; subst s m;
        (split; [reflexivity|]); intros F;
        first [congruence | split; reflexivity].
  - cbn [pending final toasts].
    split; [split; [congruence | intros (s & m & _ & N & _); congruence]|].
    split; [eauto | discriminate].
  - cbn [pending final toasts].
    split; [split; [congruence | intros (s & m & N & _); congruence]|].
    split; [eauto | discriminate].
Qed.

(** X25: paying the amount the dialogue proposes clears the due.  After
    [handlePayDueClick] no method is chosen, so submitting sends nothing
    and changes nothing; once a method is chosen, submitting the amount
    filled in (the whole due, taken to print and parse back to itself, and
    to be positive and finite) sends the request, and the entry shown has a
    due amount of exactly 0, its paid amount raised by the due, and its
    "Pay Due" button gone. *)
Theorem full_payment_clears_due (env : Env) (toString : float -> string)
    (st : State) (collection : Collection) (meth : method) :
  toString (dueAmount collection) <> "" ->
  parseFloat env (toString (dueAmount collection)) = dueAmount collection ->
  PrimFloat.ltb 0 (dueAmount collection) = true ->
  PrimFloat.ltb (dueAmount collection) infinity = true ->
  PrimFloat.eqb (historyId collection) (historyId collection) = true ->
  let opened := handlePayDueClick toString st collection in
  pending (handlePaymentSubmit env opened) = None
  /\ final (handlePaymentSubmit env opened) = opened
  /\ exists shown,
       pending (handlePaymentSubmit env (setPaymentMethod meth opened)) = Some shown
       /\ forall i,
            nth_error (collections st) i = Some collection ->
            exists c',
              nth_error (collections shown) i = Some c'
              /\ dueAmount c' = 0%float
              /\ amountPaid c' = (amountPaid collection + dueAmount collection)%float
              /\ PrimFloat.ltb 0 (dueAmount c') = false.
Proof.
  intros NE RT Pos Fin Id. cbv zeta.
  split; [reflexivity|]. split; [reflexivity|].
  destruct (finite_positive _ Pos Fin) as [N I].
  unfold handlePaymentSubmit, setPaymentMethod, handlePayDueClick.
  cbn [selectedCollection paymentMethod paymentAmount collections isSubmitting
       isPayModalOpen].
  apply String.eqb_neq in NE. rewrite NE, RT. cbn [negb].
  destruct (proj1 (positive_iff _) Pos) as [_ L].
  rewrite N, L, ltb_irrefl. cbn [orb].
  destruct (updateCollectionPayment env _ _ meth);
    cbn [pending]; (eexists; split; [reflexivity|]);
    intros i H; cbn [collections]; unfold updatedCollections;
    rewrite nth_error_map, H; cbn [option_map]; rewrite Id;
    (eexists; split; [reflexivity|]);
    cbn [paid dueAmount amountPaid]; rewrite sub_diag by assumption;
    repeat split; reflexivity.
Qed.

Lemma full_payment_clears_due_witness :
  exists shown,
    pending (handlePaymentSubmit online_env
               (setPaymentMethod Cash
                  (handlePayDueClick seven_hundred idle whole_sample)))
    = Some shown
    /\ exists c', nth_error (collections shown) 0 = Some c'
                  /\ dueAmount c' = 0%float.
Proof.
  destruct (full_payment_clears_due online_env seven_hundred idle whole_sample Cash)
    as (_ & _ & shown & P & H); try reflexivity.
  - discriminate.
  - exists shown. split; [exact P|].
    destruct (H 0%nat eq_refl) as (c' & E & D & _). eauto.
Defined.

(** *** Totals *)

Local Open Scope Z_scope.

Lemma sum_paid_nonneg l rows : whole_rows l rows -> 0 <= sum_paid rows.
Proof. induction 1 as [| c r l rows (_ & _ & A & _) _ IH]; simpl; lia. Qed.

Lemma sum_due_nonneg l rows : whole_rows l rows -> 0 <= sum_due rows.
Proof. induction 1 as [| c r l rows (_ & _ & _ & D) _ IH]; simpl; lia. Qed.

Lemma paid_total selected meth n l rows :
  whole_rows l rows -> payable selected n l rows -> 0 < n ->
  forall acc a,
    acc = JsNumber.int_float a -> 0 <= a ->
    a + sum_paid rows + sum_due rows < 2 ^ 53 ->
    fold_left (fun sum c => (sum + amountPaid c)%float)
      (updatedCollections l selected meth (JsNumber.int_float n)) acc
    = JsNumber.int_float (a + sum_paid rows + matching selected l * n).
Proof.
  intros W. induction W as [| c r l rows (Ea & Ed & Ha & Hd) W IH];
    intros P Hn acc a -> Hacc B.
  - unfold updatedCollections, matching.
    cbn [map fold_left filter List.length sum_paid fold_right]. f_equal. lia.
  - inversion P as [| ? ? ? ? Pc P']; subst.
    pose proof (sum_paid_nonneg _ _ W) as Sp.
    pose proof (sum_due_nonneg _ _ W) as Sd.
    change (sum_paid (r :: rows)) with (fst r + sum_paid rows) in B.
    change (sum_due (r :: rows)) with (snd r + sum_due rows) in B.
    change (sum_paid (r :: rows)) with (fst r + sum_paid rows).
    unfold updatedCollections, matching in *. cbn [map fold_left filter].
    destruct (PrimFloat.eqb (historyId c) (historyId selected)) eqn:E.
    + specialize (Pc eq_refl). cbn [paid amountPaid List.length].
      rewrite Ea, (NumberFacts.int_float_add (fst r) n) by lia.
      rewrite NumberFacts.int_float_add by lia.
      rewrite (IH P' Hn _ (a + (fst r + n))) by (try reflexivity; lia).
      f_equal. lia.
    + rewrite Ea, NumberFacts.int_float_add by lia.
      rewrite (IH P' Hn _ (a + fst r)) by (try reflexivity; lia).
      f_equal. lia.
Qed.

Lemma due_total selected meth n l rows :
  whole_rows l rows -> payable selected n l rows -> 0 < n ->
  forall acc a,
    acc = JsNumber.int_float a -> 0 <= a ->
    a + sum_due rows < 2 ^ 53 ->
    fold_left (fun sum c => (sum + dueAmount c)%float)
      (updatedCollections l selected meth (JsNumber.int_float n)) acc
    = JsNumber.int_float (a + sum_due rows - matching selected l * n)
      /\ matching selected l * n <= sum_due rows.
Proof.
  intros W. induction W as [| c r l rows (Ea & Ed & Ha & Hd) W IH];
    intros P Hn acc a -> Hacc B.
  - unfold updatedCollections, matching.
    cbn [map fold_left filter List.length sum_due fold_right].
    split; [f_equal; lia | lia].
  - inversion P as [| ? ? ? ? Pc P']; subst.
    pose proof (sum_due_nonneg _ _ W) as Sd.
    change (sum_due (r :: rows)) with (snd r + sum_due rows) in B.
    change (sum_due (r :: rows)) with (snd r + sum_due rows).
    unfold updatedCollections, matching in *. cbn [map fold_left filter].
    destruct (PrimFloat.eqb (historyId c) (historyId selected)) eqn:E.
    + specialize (Pc eq_refl). cbn [paid dueAmount List.length].
      rewrite Ed, (NumberFacts.int_float_sub (snd r) n) by lia.
      rewrite NumberFacts.int_float_add by lia.
      destruct (IH P' Hn _ (a + (snd r - n)) eq_refl ltac:(lia) ltac:(lia)) as [-> K].
      split; [f_equal; lia | lia].
    + rewrite Ed, NumberFacts.int_float_add by lia.
      destruct (IH P' Hn _ (a + snd r) eq_refl ltac:(lia) ltac:(lia)) as [-> K].
      split; [f_equal; lia | lia].
Qed.

Lemma whole_total (f : Collection -> float) (g : Z * Z -> Z) l rows :
  Forall2 (fun c r => f c = JsNumber.int_float (g r) /\ 0 <= g r) l rows ->
  forall acc a,
    acc = JsNumber.int_float a -> 0 <= a ->
    a + fold_right (fun r s => g r + s) 0 rows < 2 ^ 53 ->
    fold_left (fun sum c => (sum + f c)%float) l acc
    = JsNumber.int_float (a + fold_right (fun r s => g r + s) 0 rows).
Proof.
  induction 1 as [| c r l rows (E & G) W IH]; intros acc a -> Ha B.
  - cbn [fold_left fold_right]. f_equal. lia.
  - cbn [fold_left fold_right] in *.
    assert (0 <= fold_right (fun r s => g r + s) 0 rows).
    { clear -W. induction W as [| ? ? ? ? (_ & ?) _ ?]; simpl; lia. }
    rewrite E, NumberFacts.int_float_add by lia.
    rewrite (IH _ (a + g r)) by (try reflexivity; lia).
    f_equal. lia.
Qed.

Lemma whole_stats (l : list Collection) (rows : list (Z * Z)) :
  whole_rows l rows ->
  sum_paid rows + sum_due rows < 2 ^ 53 ->
  totalStudents (summaryStats l) = List.length rows
  /\ totalCollected (summaryStats l) = JsNumber.int_float (sum_paid rows)
  /\ totalDue (summaryStats l) = JsNumber.int_float (sum_due rows)
  /\ (totalCollected (summaryStats l) + totalDue (summaryStats l))%float
     = JsNumber.int_float (sum_paid rows + sum_due rows).
Proof.
  intros W B. set (filteredCollections := l) in *.
  pose proof (sum_paid_nonneg _ _ W) as Sp.
  pose proof (sum_due_nonneg _ _ W) as Sd.
  assert (C : totalCollected (summaryStats filteredCollections)
              = JsNumber.int_float (sum_paid rows)).
  { cbn [summaryStats totalCollected]. unfold reduce_sum.
    rewrite (whole_total amountPaid fst filteredCollections rows) with (a := 0);
      try reflexivity; try lia.
    - eapply Forall2_impl; [|exact W]. cbv beta. tauto.
    - change (fold_right (fun r s => fst r + s) 0 rows) with (sum_paid rows). lia. }
  assert (D : totalDue (summaryStats filteredCollections)
              = JsNumber.int_float (sum_due rows)).
  { cbn [summaryStats totalDue]. unfold reduce_sum.
    rewrite (whole_total dueAmount snd filteredCollections rows) with (a := 0);
      try reflexivity; try lia.
    - eapply Forall2_impl; [|exact W]. cbv beta. tauto.
    - change (fold_right (fun r s => snd r + s) 0 rows) with (sum_due rows). lia. }
  split; [cbn; eapply Forall2_length; exact W|].
  split; [exact C|]. split; [exact D|].
  rewrite C, D. apply NumberFacts.int_float_add; lia.
Qed.

(** X26: whole amounts add up exactly.  When what is paid and what is
    due are whole numbers of rupees in every row shown, and all of it
    together stays below 2^53, "Total Collected" and "Total Due" are the
    exact sums, and so is their sum. *)
Theorem summaryStats_whole (filteredCollections : list Collection)
    (rows : list (Z * Z)) :
  whole_rows filteredCollections rows ->
  sum_paid rows + sum_due rows < 2 ^ 53 ->
  let stats := summaryStats filteredCollections in
  totalStudents stats = List.length rows
  /\ totalCollected stats = JsNumber.int_float (sum_paid rows)
  /\ totalDue stats = JsNumber.int_float (sum_due rows)
  /\ (totalCollected stats + totalDue stats)%float
     = JsNumber.int_float (sum_paid rows + sum_due rows).
Proof. intros W B. cbv zeta. now apply whole_stats. Qed.

Lemma summaryStats_whole_witness :
  totalCollected (summaryStats [whole_sample; whole_sample])
  = JsNumber.int_float 200.
Proof.
  refine (proj1 (proj2 (summaryStats_whole [whole_sample; whole_sample]
                          [(100, 700); (100, 700)] _ _))).
  - repeat constructor; cbn; lia.
  - cbn. lia.
Defined.

(** X27: an optimistic payment moves its amount from "Total Due" to
    "Total Collected".  For whole amounts, a payment of [n] that every
    entry it updates can bear leaves the number of rows as it is, raises
    the total collected by [n] for each entry with the selected
    [historyId] (one, when ids are unique), lowers the total due by as
    much, and leaves their sum unchanged. *)
Theorem payment_moves_due_to_collected (collections : list Collection)
    (rows : list (Z * Z)) (selected : Collection) (meth : method) (n : Z) :
  whole_rows collections rows ->
  payable selected n collections rows ->
  0 < n ->
  sum_paid rows + sum_due rows < 2 ^ 53 ->
  let before := summaryStats collections in
  let after := summaryStats
                 (updatedCollections collections selected meth
                    (JsNumber.int_float n)) in
  let moved := matching selected collections * n in
  totalStudents after = totalStudents before
  /\ totalCollected after = JsNumber.int_float (sum_paid rows + moved)
  /\ totalDue after = JsNumber.int_float (sum_due rows - moved)
  /\ (totalCollected after + totalDue after)%float
     = (totalCollected before + totalDue before)%float.
Proof.
  intros W P Hn B. cbv zeta.
  pose proof (sum_paid_nonneg _ _ W) as Sp.
  pose proof (sum_due_nonneg _ _ W) as Sd.
  destruct (whole_stats collections rows W B) as (_ & C0 & D0 & S0).
  assert (C : totalCollected (summaryStats (updatedCollections collections selected meth
                                              (JsNumber.int_float n)))
              = JsNumber.int_float (sum_paid rows + matching selected collections * n)).
  { cbn [summaryStats totalCollected]. unfold reduce_sum.
    now rewrite (paid_total selected meth n collections rows W P Hn 0%float 0 eq_refl)
      by lia. }
  destruct (due_total selected meth n collections rows W P Hn 0%float 0 eq_refl
              ltac:(lia) ltac:(lia)) as [D K].
  assert (M : 0 <= matching selected collections * n).
  { unfold matching. nia. }
  split; [cbn; unfold updatedCollections; apply length_map|].
  split; [exact C|].
  split; [exact D|].
  rewrite S0. cbn [summaryStats totalCollected totalDue] in *. unfold reduce_sum in *.
  rewrite C, D.
  rewrite NumberFacts.int_float_add by lia. f_equal. lia.
Qed.

Lemma payment_moves_due_to_collected_witness :
  totalDue (summaryStats (updatedCollections [whole_sample] whole_sample Cash
                            (JsNumber.int_float 100)))
  = JsNumber.int_float (700 - 1 * 100).
Proof.
  refine (proj1 (proj2 (proj2 (payment_moves_due_to_collected [whole_sample]
                                 [(100, 700)] whole_sample Cash 100 _ _ _ _)))).
  - repeat constructor; cbn; lia.
  - repeat constructor. cbn. lia.
  - lia.
  - cbn. lia.
Defined.

End CollectionPageFacts.

(** ** The month CollectionDue starts with *)

Module CurrentMonthFacts.
Import Js JsFacts JsDate.
Local Open Scope Z_scope.

Lemma digits_value_app a : forall acc b,
  digits_value acc (a ++ b) = digits_value (digits_value acc a) b.
Proof. induction a as [| c r IH]; intros acc b; [reflexivity|]. simpl. apply IH. Qed.

Lemma digits_value_pad w : forall acc n,
  0 <= n < 10 ^ Z.of_nat w ->
  digits_value acc (pad_digits w n) = acc * 10 ^ Z.of_nat w + n.
Proof.
  induction w as [| w IH]; intros acc n H.
  - simpl in *. lia.
  - cbn [pad_digits]. rewrite digits_value_app.
    rewrite Nat2Z.inj_succ, Z.pow_succ_r in * by lia.
    rewrite IH by (Z.div_mod_to_equations; lia).
    cbn [digits_value].
    assert (D : is_digit (digit_char (n mod 10)) = true).
    { apply digit_char_is_digit. Z.div_mod_to_equations. lia. }
    assert (V : digit_val (digit_char (n mod 10)) = n mod 10).
    { assert (R : 0 <= n mod 10 <= 9) by (Z.div_mod_to_equations; lia).
      assert (C : n mod 10 = 0 \/ n mod 10 = 1 \/ n mod 10 = 2 \/ n mod 10 = 3
                  \/ n mod 10 = 4 \/ n mod 10 = 5 \/ n mod 10 = 6 \/ n mod 10 = 7
                  \/ n mod 10 = 8 \/ n mod 10 = 9) by lia.
      destruct C as [-> | [-> | [-> | [-> | [-> | [-> | [-> | [-> | [-> | ->]]]]]]]]];
        reflexivity. }
    rewrite V. Z.div_mod_to_equations. lia.
Qed.

Lemma all_digits_pad w : forall n, all_digits (pad_digits w n) = true.
Proof.
  induction w as [| w IH]; intros n; [reflexivity|].
  cbn [pad_digits].
  assert (A : forall a b, all_digits (a ++ b) = (all_digits a && all_digits b)%bool).
  { intros a b. induction a; simpl; [reflexivity|]. rewrite IHa. now rewrite andb_assoc. }
  rewrite A, IH. cbn [all_digits andb]. rewrite andb_true_r.
  apply digit_char_is_digit. Z.div_mod_to_equations. lia.
Qed.

Lemma month_of_range d l : 0 <= month_of d l <= 11.
Proof. unfold month_of. DateFacts.split_ifs; lia. Qed.

Lemma year_month_string y4 m2 :
  String.length y4 = 4%nat -> String.length m2 = 2%nat ->
  all_digits y4 = true -> all_digits m2 = true ->
  Reports.month_re (y4 ++ "-" ++ m2) = true
  /\ Reports.denoted_year (y4 ++ "-" ++ m2) = digits_value 0 y4
  /\ Reports.denoted_month (y4 ++ "-" ++ m2) = digits_value 0 m2.
Proof.
  intros Ly Lm Dy Dm.
  destruct y4 as [| a [| b [| c [| d [| ? ?]]]]]; try discriminate Ly.
  destruct m2 as [| e [| f [| ? ?]]]; try discriminate Lm.
  simpl in Dy, Dm.
  repeat match goal with
         | H : (_ && _)%bool = true |- _ => apply andb_true_iff in H; destruct H
         end.
  unfold Reports.month_re, Reports.denoted_year, Reports.denoted_month.
  cbn [append substring]. split; [|split; reflexivity].
  repeat match goal with H : is_digit _ = true |- _ => rewrite H; clear H end.
  reflexivity.
Qed.

(** X30: the month the page asks for first.  For an instant in the years
    0 to 9999, [currentMonth] is the year and the month of that instant in
    UTC as [YYYY-MM]: a string the reports' format check accepts, whose
    month is from 1 to 12. *)
Theorem currentMonth_is_a_month (now : Z) :
  Z.abs now <= 8640000000000000 ->
  0 <= YearFromTime now <= 9999 ->
  exists month,
    CollectionDue.currentMonth now = inr month
    /\ month = (pad_digits 4 (YearFromTime now) ++ "-"
                ++ pad_digits 2 (MonthFromTime now + 1))%string
    /\ Reports.month_re month = true
    /\ Reports.denoted_year month = YearFromTime now
    /\ Reports.denoted_month month = MonthFromTime now + 1
    /\ 1 <= Reports.denoted_month month <= 12.
Proof.
  intros B Y.
  pose proof (month_of_range (DayWithinYear now) (InLeapYear now)) as M.
  fold (MonthFromTime now) in M.
  set (y4 := pad_digits 4 (YearFromTime now)).
  set (m2 := pad_digits 2 (MonthFromTime now + 1)).
  destruct (year_month_string y4 m2) as (R & Ey & Em);
    try apply pad_digits_length; try apply all_digits_pad.
  assert (Vy : digits_value 0 y4 = YearFromTime now).
  { subst y4. rewrite digits_value_pad; [lia|]. change (10 ^ Z.of_nat 4) with 10000. lia. }
  assert (Vm : digits_value 0 m2 = MonthFromTime now + 1).
  { subst m2. rewrite digits_value_pad; [lia|]. change (10 ^ Z.of_nat 2) with 100. lia. }
  exists (y4 ++ "-" ++ m2)%string.
  split.
  - unfold CollectionDue.currentMonth, TimeClip. apply Z.leb_le in B. rewrite B.
    cbn [toISOString]. f_equal. unfold year_string.
    replace ((0 <=? YearFromTime now) && (YearFromTime now <=? 9999))%bool with true
      by (symmetry; apply andb_true_iff; split; apply Z.leb_le; lia).
    fold y4 m2.
    match goal with |- slice0 7 ?x = _ =>
      replace x with ((y4 ++ "-" ++ m2) ++ "-"
                      ++ pad_digits 2 (DateFromTime now) ++ "T"
                      ++ pad_digits 2 (HourFromTime now) ++ ":"
                      ++ pad_digits 2 (MinFromTime now) ++ ":"
                      ++ pad_digits 2 (SecFromTime now) ++ "."
                      ++ pad_digits 3 (msFromTime now) ++ "Z")%string
        by (rewrite !append_assoc; reflexivity)
    end.
    replace 7%nat with (String.length (y4 ++ "-" ++ m2)%string)
      by (subst y4 m2; rewrite !length_app, !pad_digits_length; reflexivity).
    apply slice0_app.
  - split; [reflexivity|]. split; [exact R|].
    rewrite Ey, Em, Vy, Vm. repeat split; lia.
Qed.

Lemma currentMonth_is_a_month_witness :
  exists month, CollectionDue.currentMonth 1706745600000 = inr month /\ Reports.month_re month = true.
Proof.
  destruct (currentMonth_is_a_month 1706745600000) as (month & E & _ & R & _).
  - vm_compute. discriminate.
  - split; vm_compute; discriminate.
  - exists month. split; [exact E | exact R].
Defined.

End CurrentMonthFacts.
